(** * civitai_model_metadata_download.py: a shallow embedding and its properties

    The script hashes a model file, asks the Civitai registry for the model
    version with that hash and then for the parent model, and writes both
    records as a JSON sidecar file.

    Python values are modelled as follows.
    - [str] is a list of Unicode code points (a Python [str] is a sequence of
      code points; lone surrogates are legal in it and matter for the UTF-8
      writer).
    - [bytes] is a list of [byte].
    - what [response.json()] returns is a [value]: the JSON subset of Python
      objects, with the insertion-ordered [dict] as an association list.
    - exceptions are an inductive type; a computation is a function from the
      [world] (file system and the log of calls that leave the process) to an
      [outcome] and the new world.
    - the operating system, the network, the standard output and the float
      formatter of the Python runtime are an [env] of oracles.
    [os.path] is [posixpath]. *)

From Stdlib Require Import ZArith List String Ascii Bool Lia.
From Stdlib.Strings Require Import Byte.
From Stdlib Require Import SpecFloat DecimalString DecimalPos DecimalZ.
From stdpp Require Import base decidable option list gmap sets strings.
From Equations Require Import Equations.
Import ListNotations.

Local Open Scope Z_scope.

Set Default Proof Using "Type".
Set Warnings "-register-all".

(* ================================================================== *)
(** * Part I. The embedding                                            *)
(* ================================================================== *)

(** ** Python strings *)

Abbreviation char := Z.
Abbreviation str := (list Z).
Abbreviation bytes := (list byte).

(** A string literal of the source (ASCII) as a [str]. *)
Definition py (s : string) : str :=
  map (fun a => Z.of_N (N_of_ascii a)) (list_ascii_of_string s).

(** [s.endswith(suffix)] and [s.startswith(prefix)]. *)
Definition endswith (s suffix : str) : bool :=
  bool_decide (suffix `suffix_of` s).

Definition startswith (s prefix : str) : bool :=
  bool_decide (prefix `prefix_of` s).

(** [s.rfind(c)] for a one-character needle: the highest index of [c] in [s],
    or -1. [rfind_from] walks [s] from index [i], remembering the [last] hit. *)
Fixpoint rfind_from (c : char) (s : str) (i last : Z) : Z :=
  match s with
  | [] => last
  | x :: s' => rfind_from c s' (i + 1) (if x =? c then i else last)
  end.

Definition rfind (s : str) (c : char) : Z := rfind_from c s 0 (-1).

(** Slices [s[:i]], [s[i:]] and [s[i:j]] for indices that are not negative. *)
Definition upto (s : str) (i : Z) : str := take (Z.to_nat i) s.
Definition from (s : str) (i : Z) : str := drop (Z.to_nat i) s.
Definition slice (s : str) (i j : Z) : str := take (Z.to_nat (j - i)) (drop (Z.to_nat i) s).

Definition sep : char := 47.     (* "/" *)
Definition extsep : char := 46.  (* "." *)

(** [posixpath.basename]. *)
Definition basename (p : str) : str :=
  let i := rfind p sep + 1 in
  from p i.

(** [posixpath.join] of two components. *)
Definition join (a b : str) : str :=
  if startswith b [sep] then b
  else if bool_decide (a = []) || endswith a [sep] then a ++ b
  else a ++ [sep] ++ b.

(** [posixpath.splitext] ([genericpath._splitext]): the extension starts at
    the last dot of the last component, leading dots of that component apart.
    The [while] loop that looks for a character other than a dot between
    [filenameIndex] and [dotIndex] is the [existsb]. *)
Definition splitext (p : str) : str * str :=
  let sepIndex := rfind p sep in
  let dotIndex := rfind p extsep in
  if (sepIndex <? dotIndex)
     && existsb (fun x => negb (x =? extsep)) (slice p (sepIndex + 1) dotIndex)
  then (upto p dotIndex, from p dotIndex)
  else (p, []).

(** ** The configuration *)

Definition BASE_URL : str := py "https://civitai.com/api/v1".
Definition EXTENSION : str := py ".safetensors".

(** ** Python objects that come out of [response.json()] *)

Inductive value : Type :=
| VNone
| VBool (b : bool)
| VInt (n : Z)
| VFloat (x : spec_float)
| VStr (s : str)
| VList (items : list value)
| VDict (items : list (str * value)).

(** [bool(o)], the test behind [if o:] and [if not o:]. *)
Definition truthy (o : value) : bool :=
  match o with
  | VNone => false
  | VBool b => b
  | VInt n => negb (n =? 0)
  | VFloat (S754_zero _) => false
  | VFloat _ => true
  | VStr s => negb (bool_decide (s = []))
  | VList l => negb (bool_decide (l = []))
  | VDict d => negb (bool_decide (d = []))
  end.

(** Lookup in a [dict]; keys of a [dict] are unique, the first binding is the
    binding. *)
Fixpoint assoc (k : str) (d : list (str * value)) : option value :=
  match d with
  | [] => None
  | (k', v) :: d' => if bool_decide (k' = k) then Some v else assoc k d'
  end.

(** [d[k] = v]: replaces the binding of [k], or appends a new one at the end. *)
Fixpoint setitem (d : list (str * value)) (k : str) (v : value) : list (str * value) :=
  match d with
  | [] => [(k, v)]
  | (k', v') :: d' => if bool_decide (k' = k) then (k, v) :: d' else (k', v') :: setitem d' k v
  end.

Definition keys (d : list (str * value)) : list str := map fst d.

#[global] Instance spec_float_eq_dec : EqDecision spec_float.
Proof. solve_decision. Defined.

(** Equality of objects decided, through the nested lists. *)
Fixpoint value_eqb (x y : value) : bool :=
  match x, y with
  | VNone, VNone => true
  | VBool a, VBool b => bool_decide (a = b)
  | VInt a, VInt b => a =? b
  | VFloat a, VFloat b => bool_decide (a = b)
  | VStr a, VStr b => bool_decide (a = b)
  | VList a, VList b =>
      (fix go (a b : list value) : bool :=
         match a, b with
         | [], [] => true
         | x :: a', y :: b' => value_eqb x y && go a' b'
         | _, _ => false
         end) a b
  | VDict a, VDict b =>
      (fix go (a b : list (str * value)) : bool :=
         match a, b with
         | [], [] => true
         | (k, x) :: a', (k', y) :: b' => bool_decide (k = k') && value_eqb x y && go a' b'
         | _, _ => false
         end) a b
  | _, _ => false
  end.

(** Induction on objects that reaches inside lists and dicts. *)
Lemma value_ind' (P : value -> Prop)
  (HNone : P VNone) (HBool : forall b, P (VBool b)) (HInt : forall n, P (VInt n))
  (HFloat : forall x, P (VFloat x)) (HStr : forall s, P (VStr s))
  (HList : forall l, Forall P l -> P (VList l))
  (HDict : forall d, Forall (fun kv => P (snd kv)) d -> P (VDict d)) :
  forall v, P v.
Proof.
  fix F 1. intros [ | b | n | x | s | l | d ].
  - exact HNone.
  - exact (HBool b).
  - exact (HInt n).
  - exact (HFloat x).
  - exact (HStr s).
  - apply HList. induction l as [|v l IH]; constructor; [apply F | exact IH].
  - apply HDict. induction d as [|kv d IH]; constructor; [apply F | exact IH].
Qed.

Lemma value_eqb_eq x y : value_eqb x y = true <-> x = y.
Proof.
  revert y. induction x as [ | b | n | f | s | l IH | d IH ] using value_ind';
    intros [ | b' | n' | f' | s' | l' | d' ]; simpl;
    try (split; [discriminate | intro H; discriminate H || inversion H]); try tauto.
  - rewrite bool_decide_eq_true. split; congruence.
  - rewrite Z.eqb_eq. split; congruence.
  - rewrite bool_decide_eq_true. split; congruence.
  - rewrite bool_decide_eq_true. split; congruence.
  - revert l'. induction IH as [|x l Hx _ IHl]; intros [|y l'];
      try (split; [discriminate | intro H; discriminate H || inversion H]); try tauto.
    rewrite andb_true_iff, Hx. specialize (IHl l'). rewrite IHl.
    split; [intros [-> H]; congruence | intro H; inversion H; auto].
  - revert d'. induction IH as [|[k x] l Hx _ IHl]; intros [|[k' y] l'];
      try (split; [discriminate | intro H; discriminate H || inversion H]); try tauto.
    rewrite !andb_true_iff, bool_decide_eq_true. simpl in Hx. rewrite Hx.
    specialize (IHl l'). rewrite IHl.
    split; [intros [[-> ->] H]; congruence | intro H; inversion H; auto].
Qed.

#[global] Instance value_eq_dec : EqDecision value.
Proof.
  intros x y. destruct (value_eqb x y) eqn:H.
  - left. now apply value_eqb_eq.
  - right. intro Hxy. apply value_eqb_eq in Hxy. congruence.
Defined.

(** ** Exceptions and outcomes *)

(** The error numbers the model distinguishes. [OSError] is what Python 3
    calls [IOError]; [FileNotFoundError], [PermissionError] and the like are
    its subclasses. *)
Inductive errno := ENOENT | EACCES | EISDIR | ENOTDIR | EEXIST | EIO | ENOSPC | EROFS.

Inductive exn :=
| OSError (code : errno) (filename : str)
| UnicodeEncodeError (c : char)
| AttributeError (obj : value) (attr : string)
| JSONDecodeError
| ConnectionError
| KeyboardInterrupt
| SystemExit (code : Z).

(** [except Exception] catches every class of the model but the two that
    derive from [BaseException] only. *)
Definition is_Exception (e : exn) : bool :=
  match e with
  | KeyboardInterrupt | SystemExit _ => false
  | _ => true
  end.

Definition is_OSError (e : exn) : bool :=
  match e with
  | OSError _ _ => true
  | _ => false
  end.

Inductive outcome (A : Type) : Type :=
| Ret (a : A)
| Raise (e : exn).
Arguments Ret {A} a.
Arguments Raise {A} e.

(** ** Formatted strings

    An f-string is kept as the list of its pieces: the literal text and the
    objects that fill its fields. *)
Inductive pyobj :=
| OStr (s : str)
| OInt (n : Z)
| OValue (v : value)
| OExn (e : exn).

Inductive piece :=
| Lit (s : string)
| Fld (o : pyobj).

Definition fstring := list piece.

(** ** The world *)

Inductive mode := RB | W_utf8.

(** The calls that reach outside the process, in the order they are made. *)
Inductive event :=
| EvPrint (line : fstring)
| EvOpen (path : str) (m : mode)
| EvGet (url : fstring)
| EvMakedirs (path : str)
| EvDump (path : str) (data : value).

Record world := World {
  files : gmap str bytes;     (* regular files and their contents *)
  dirs : gset str;            (* directories *)
  trace : list event
}.

(** A response of [requests.get]: its status code and what [.json()] gives
    (an exception when the body is not JSON). *)
Record response := Response {
  status_code : Z;
  json : outcome value
}.

(** What the program cannot decide: the registry's answers, the faults of
    the operating system, what [sys.stdout] does with a line, and
    [float.__repr__]. *)
Record env := Env {
  requests_get : fstring -> outcome response;
  open_error : mode -> str -> option errno;
  read_error : str -> nat -> option errno;   (* a read at this offset fails *)
  write_error : str -> option errno;         (* writing or closing fails *)
  makedirs_error : str -> option errno;
  print_error : fstring -> option exn;       (* sys.stdout does not take the line *)
  float_repr : spec_float -> str
}.

(** ** Computations *)

Definition IO (A : Type) : Type := world -> outcome A * world.

Definition ret {A} (a : A) : IO A := fun w => (Ret a, w).
Definition raise {A} (e : exn) : IO A := fun w => (Raise e, w).
Definition bind {A B} (m : IO A) (k : A -> IO B) : IO B :=
  fun w => match m w with
           | (Ret a, w') => k a w'
           | (Raise e, w') => (Raise e, w')
           end.

(** [try: body except Exception as e: handler(e)]. *)
Definition try_except_Exception {A} (body : IO A) (handler : exn -> IO A) : IO A :=
  fun w => match body w with
           | (Raise e, w') => if is_Exception e then handler e w' else (Raise e, w')
           | r => r
           end.

Definition lift {A} (r : outcome A) : IO A := fun w => (r, w).

(** [IO] with stdpp's monad notations: [x ← m; k] and [m ;; k]. *)
#[global] Instance IO_ret : MRet IO := @ret.
#[global] Instance IO_bind : MBind IO := fun A B k m => bind m k.

Definition emit (ev : event) : IO unit :=
  fun w => (Ret tt, World (files w) (dirs w) (trace w ++ [ev])).

(** ** [hashlib.sha256]

    SHA-256 as FIPS 180-4 defines it, on 32-bit words held in [Z]. *)

Definition byte_to_Z (b : byte) : Z := Z.of_N (Byte.to_N b).

Definition byte_of_Z (z : Z) : byte :=
  match Byte.of_N (Z.to_N (z mod 256)) with
  | Some b => b
  | None => x00
  end.

Definition wrap32 (x : Z) : Z := x mod 2 ^ 32.
Definition add32 (x y : Z) : Z := wrap32 (x + y).
Definition not32 (x : Z) : Z := Z.lxor x (2 ^ 32 - 1).
Definition rotr (n x : Z) : Z := Z.lor (Z.shiftr x n) (wrap32 (Z.shiftl x (32 - n))).

Definition Ch (x y z : Z) : Z := Z.lxor (Z.land x y) (Z.land (not32 x) z).
Definition Maj (x y z : Z) : Z := Z.lxor (Z.lxor (Z.land x y) (Z.land x z)) (Z.land y z).
Definition Sigma0 (x : Z) : Z := Z.lxor (Z.lxor (rotr 2 x) (rotr 13 x)) (rotr 22 x).
Definition Sigma1 (x : Z) : Z := Z.lxor (Z.lxor (rotr 6 x) (rotr 11 x)) (rotr 25 x).
Definition sigma0 (x : Z) : Z := Z.lxor (Z.lxor (rotr 7 x) (rotr 18 x)) (Z.shiftr x 3).
Definition sigma1 (x : Z) : Z := Z.lxor (Z.lxor (rotr 17 x) (rotr 19 x)) (Z.shiftr x 10).

Definition K256 : list Z :=
  0x428a2f98 :: 0x71374491 :: 0xb5c0fbcf :: 0xe9b5dba5 ::
  0x3956c25b :: 0x59f111f1 :: 0x923f82a4 :: 0xab1c5ed5 ::
  0xd807aa98 :: 0x12835b01 :: 0x243185be :: 0x550c7dc3 ::
  0x72be5d74 :: 0x80deb1fe :: 0x9bdc06a7 :: 0xc19bf174 ::
  0xe49b69c1 :: 0xefbe4786 :: 0x0fc19dc6 :: 0x240ca1cc ::
  0x2de92c6f :: 0x4a7484aa :: 0x5cb0a9dc :: 0x76f988da ::
  0x983e5152 :: 0xa831c66d :: 0xb00327c8 :: 0xbf597fc7 ::
  0xc6e00bf3 :: 0xd5a79147 :: 0x06ca6351 :: 0x14292967 ::
  0x27b70a85 :: 0x2e1b2138 :: 0x4d2c6dfc :: 0x53380d13 ::
  0x650a7354 :: 0x766a0abb :: 0x81c2c92e :: 0x92722c85 ::
  0xa2bfe8a1 :: 0xa81a664b :: 0xc24b8b70 :: 0xc76c51a3 ::
  0xd192e819 :: 0xd6990624 :: 0xf40e3585 :: 0x106aa070 ::
  0x19a4c116 :: 0x1e376c08 :: 0x2748774c :: 0x34b0bcb5 ::
  0x391c0cb3 :: 0x4ed8aa4a :: 0x5b9cca4f :: 0x682e6ff3 ::
  0x748f82ee :: 0x78a5636f :: 0x84c87814 :: 0x8cc70208 ::
  0x90befffa :: 0xa4506ceb :: 0xbef9a3f7 :: 0xc67178f2 :: nil.

(** The eight working variables, and the hash value between blocks. *)
Record regs := Regs { r_a : Z; r_b : Z; r_c : Z; r_d : Z; r_e : Z; r_f : Z; r_g : Z; r_h : Z }.

Definition H256_init : regs :=
  Regs 0x6a09e667 0xbb67ae85 0x3c6ef372 0xa54ff53a 0x510e527f 0x9b05688c 0x1f83d9ab 0x5be0cd19.

(** Big-endian words of a block. *)
Fixpoint be_words (block : list Z) : list Z :=
  match block with
  | b0 :: b1 :: b2 :: b3 :: rest => (((b0 * 256 + b1) * 256 + b2) * 256 + b3) :: be_words rest
  | _ => []
  end.

(** The message schedule, newest word first: [n] more words after [W]. *)
Fixpoint schedule (n : nat) (W : list Z) : list Z :=
  match n with
  | O => W
  | S n' =>
      let w := add32 (add32 (add32 (sigma1 (nth 1 W 0)) (nth 6 W 0)) (sigma0 (nth 14 W 0))) (nth 15 W 0) in
      schedule n' (w :: W)
  end.

Definition round (s : regs) (kw : Z * Z) : regs :=
  let '(Regs a b c d e f g h) := s in
  let T1 := add32 (add32 (add32 (add32 h (Sigma1 e)) (Ch e f g)) (fst kw)) (snd kw) in
  let T2 := add32 (Sigma0 a) (Maj a b c) in
  Regs (add32 T1 T2) a b c (add32 d T1) e f g.

Definition compress (H : regs) (block : bytes) : regs :=
  let W := rev (schedule 48 (rev (be_words (map byte_to_Z block)))) in
  let '(Regs a b c d e f g h) := fold_left round (combine K256 W) H in
  Regs (add32 (r_a H) a) (add32 (r_b H) b) (add32 (r_c H) c) (add32 (r_d H) d)
       (add32 (r_e H) e) (add32 (r_f H) f) (add32 (r_g H) g) (add32 (r_h H) h).

(** Runs a compression function [f] over the 64-byte blocks at the front of
    [data]; returns the hash value and the bytes that are left. *)
Equations? iter_blocks (f : regs -> bytes -> regs) (H : regs) (data : bytes) : regs * bytes
  by wf (length data) lt :=
  iter_blocks f H data with decide (64 <= length data)%nat => {
    | left _ := iter_blocks f (f H (take 64 data)) (drop 64 data);
    | right _ := (H, data) }.
Proof. rewrite length_drop. lia. Qed.

Definition hash_blocks : regs -> bytes -> regs * bytes := iter_blocks compress.

(** The padding of a message of [n] bytes: a one bit, zeros, and the length
    in bits as a 64-bit big-endian number. *)
Definition be_bytes (k : nat) (x : Z) : bytes :=
  map (fun i => byte_of_Z (Z.shiftr x (8 * Z.of_nat i))) (rev (seq 0 k)).

Definition padding (n : nat) : bytes :=
  x80 :: repeat x00 (Z.to_nat ((55 - Z.of_nat n) mod 64)) ++ be_bytes 8 (8 * Z.of_nat n).

Definition regs_bytes (H : regs) : bytes :=
  flat_map (be_bytes 4) [r_a H; r_b H; r_c H; r_d H; r_e H; r_f H; r_g H; r_h H].

(** The digest of a whole message (FIPS 180-4, section 6.2). *)
Definition SHA256 (msg : bytes) : bytes :=
  regs_bytes (fst (hash_blocks H256_init (msg ++ padding (length msg)))).

(** Lowercase hexadecimal. *)
Definition hexdigit (d : Z) : char := if d <? 10 then 48 + d else 87 + d.

Definition hex (bs : bytes) : str :=
  flat_map (fun b => [hexdigit (byte_to_Z b / 16); hexdigit (byte_to_Z b mod 16)]) bs.

(** The hash object: the hash value so far, the bytes of the block that is
    not full yet, and the number of bytes absorbed. *)
Record sha256_obj := Sha256 { sh_H : regs; sh_pending : bytes; sh_count : nat }.

Definition sha256_new : sha256_obj := Sha256 H256_init [] 0.

Definition sha256_update (o : sha256_obj) (data : bytes) : sha256_obj :=
  let '(H, rest) := hash_blocks (sh_H o) (sh_pending o ++ data) in
  Sha256 H rest (sh_count o + length data).

Definition sha256_digest (o : sha256_obj) : bytes :=
  regs_bytes (fst (hash_blocks (sh_H o) (sh_pending o ++ padding (sh_count o)))).

Definition sha256_hexdigest (o : sha256_obj) : str := hex (sha256_digest o).

(** ** [json.dump(data, f, indent=4, ensure_ascii=False)] *)

Definition hex4 (c : Z) : str :=
  [hexdigit (c / 4096 mod 16); hexdigit (c / 256 mod 16); hexdigit (c / 16 mod 16); hexdigit (c mod 16)].

(** What [encode_basestring] puts for one character: only the quote, the
    backslash and the control characters are escaped; with
    [ensure_ascii=False] every other character stands for itself. *)
Definition escape_char (c : char) : str :=
  if c =? 34 then [92; 34]
  else if c =? 92 then [92; 92]
  else if c =? 10 then [92; 110]
  else if c =? 13 then [92; 114]
  else if c =? 9 then [92; 116]
  else if c =? 8 then [92; 98]
  else if c =? 12 then [92; 102]
  else if (0 <=? c) && (c <? 32) then [92; 117] ++ hex4 c
  else [c].

Definition encode_basestring (s : str) : str := [34] ++ flat_map escape_char s ++ [34].

Fixpoint uint_digits (d : Decimal.uint) : str :=
  match d with
  | Decimal.Nil => []
  | Decimal.D0 d' => 48 :: uint_digits d'
  | Decimal.D1 d' => 49 :: uint_digits d'
  | Decimal.D2 d' => 50 :: uint_digits d'
  | Decimal.D3 d' => 51 :: uint_digits d'
  | Decimal.D4 d' => 52 :: uint_digits d'
  | Decimal.D5 d' => 53 :: uint_digits d'
  | Decimal.D6 d' => 54 :: uint_digits d'
  | Decimal.D7 d' => 55 :: uint_digits d'
  | Decimal.D8 d' => 56 :: uint_digits d'
  | Decimal.D9 d' => 57 :: uint_digits d'
  end.

(** [int.__repr__]. *)
Definition int_repr (n : Z) : str :=
  match Z.to_int n with
  | Decimal.Pos d => uint_digits d
  | Decimal.Neg d => 45 :: uint_digits d
  end.

(** [floatstr] of [json.encoder], with [allow_nan=True]. *)
Definition floatstr (frepr : spec_float -> str) (x : spec_float) : str :=
  match x with
  | S754_nan => py "NaN"
  | S754_infinity false => py "Infinity"
  | S754_infinity true => py "-Infinity"
  | _ => frepr x
  end.

(** The text of an object that is not a container. *)
Definition scalar_text (frepr : spec_float -> str) (o : value) : option str :=
  match o with
  | VStr s => Some (encode_basestring s)
  | VNone => Some (py "null")
  | VBool true => Some (py "true")
  | VBool false => Some (py "false")
  | VInt n => Some (int_repr n)
  | VFloat x => Some (floatstr frepr x)
  | VList _ | VDict _ => None
  end.

(** ['\n' + _indent * level], with [_indent] four spaces. *)
Definition newline_indent (level : nat) : str := 10 :: repeat 32 (4 * level)%nat.

Definition item_separator : str := [44].
Definition key_separator : str := [58; 32].

(** The loop of [_iterencode_list]: [buf] is what goes before the next
    item, glued to it when the item is not a container. *)
Fixpoint list_chunks (frepr : spec_float -> str) (enc : value -> list str)
  (separator buf : str) (l : list value) : list str :=
  match l with
  | [] => []
  | v :: l' =>
      match scalar_text frepr v with
      | Some t => [buf ++ t]
      | None => buf :: enc v
      end ++ list_chunks frepr enc separator separator l'
  end.

(** The loop of [_iterencode_dict]. *)
Fixpoint dict_chunks (frepr : spec_float -> str) (enc : value -> list str)
  (separator : str) (first : bool) (d : list (str * value)) : list str :=
  match d with
  | [] => []
  | (k, v) :: d' =>
      (if first then [] else [separator])
      ++ [encode_basestring k; key_separator]
      ++ match scalar_text frepr v with
         | Some t => [t]
         | None => enc v
         end
      ++ dict_chunks frepr enc separator false d'
  end.

(** [JSONEncoder(indent=4, ensure_ascii=False).iterencode(o)]: the chunks
    that [json.dump] writes one by one. *)
Fixpoint iterencode (frepr : spec_float -> str) (level : nat) (o : value) : list str :=
  match o with
  | VList [] => [py "[]"]
  | VList items =>
      list_chunks frepr (iterencode frepr (S level))
        (item_separator ++ newline_indent (S level))
        ([91] ++ newline_indent (S level)) items
      ++ [newline_indent level; [93]]
  | VDict [] => [py "{}"]
  | VDict items =>
      [[123]; newline_indent (S level)]
      ++ dict_chunks frepr (iterencode frepr (S level))
           (item_separator ++ newline_indent (S level)) true items
      ++ [newline_indent level; [125]]
  | _ => match scalar_text frepr o with
         | Some t => [t]
         | None => []
         end
  end.

Definition dumps (frepr : spec_float -> str) (o : value) : str :=
  concat (iterencode frepr 0 o).

(** ** UTF-8, as the text layer of a file opened with [encoding="utf-8"]
    writes it: surrogates are refused. *)
Definition utf8_char (c : char) : option (list Z) :=
  if c <? 0 then None
  else if c <? 0x80 then Some [c]
  else if c <? 0x800 then Some [0xC0 + c / 64; 0x80 + c mod 64]
  else if (0xD800 <=? c) && (c <=? 0xDFFF) then None
  else if c <? 0x10000 then
    Some [0xE0 + c / 4096; 0x80 + c / 64 mod 64; 0x80 + c mod 64]
  else if c <? 0x110000 then
    Some [0xF0 + c / 262144; 0x80 + c / 4096 mod 64; 0x80 + c / 64 mod 64; 0x80 + c mod 64]
  else None.

Fixpoint utf8_encode (s : str) : outcome bytes :=
  match s with
  | [] => Ret []
  | c :: s' =>
      match utf8_char c with
      | None => Raise (UnicodeEncodeError c)
      | Some bs =>
          match utf8_encode s' with
          | Ret rest => Ret (map byte_of_Z bs ++ rest)
          | Raise e => Raise e
          end
      end
  end.

(** ** Files, directories and the network *)

Definition set_files (fs : gmap str bytes) (w : world) : world := World fs (dirs w) (trace w).
Definition set_dirs (ds : gset str) (w : world) : world := World (files w) ds (trace w).

(** An open binary file: where it is, what it holds, the read position. *)
Record handle := Handle { h_path : str; h_data : bytes; h_pos : nat }.

(** The path itself and every proper prefix of it that ends before a
    separator: the directories [os.makedirs] creates. *)
Fixpoint parents_from (seen rest : str) : list str :=
  match rest with
  | [] => [seen]
  | c :: rest' =>
      (if (c =? sep) && negb (bool_decide (seen = [])) then [seen] else [])
      ++ parents_from (seen ++ [c]) rest'
  end.

Definition with_parents (path : str) : list str := parents_from [] path.

(** Keeps the equation of a [with] scrutinee for the termination proof. *)
Definition inspect {A} (a : A) : {b | a = b} := exist _ a eq_refl.

Section Program.
Context (E : env).

(** [print(line)]: the line is encoded for [sys.stdout] and written there.
    The encoder raises [UnicodeEncodeError] at a character the encoding of
    the stream cannot carry (a lone surrogate for UTF-8, a Cyrillic letter
    for cp1252), before anything of the line is written; the write raises
    an [OSError] on a closed pipe. A line that was not written is not in the
    trace. *)
Definition print (line : fstring) : IO unit :=
  match print_error E line with
  | Some e => raise e
  | None => emit (EvPrint line)
  end.

(** [open(path, "rb")]. *)
Definition open_rb (path : str) : IO handle :=
  (emit (EvOpen path RB) ;;
   match open_error E RB path with
   | Some c => raise (OSError c path)
   | None => fun w =>
       match files w !! path with
       | Some data => (Ret (Handle path data 0), w)
       | None => (Raise (OSError (if bool_decide (path ∈ dirs w) then EISDIR else ENOENT) path), w)
       end
   end).

(** [f.read(n)]: up to [n] bytes from the read position. *)
Definition read (f : handle) (n : nat) : outcome (bytes * handle) :=
  match read_error E (h_path f) (h_pos f) with
  | Some c => Raise (OSError c (h_path f))
  | None =>
      let block := take n (drop (h_pos f) (h_data f)) in
      Ret (block, Handle (h_path f) (h_data f) (h_pos f + length block))
  end.

(** [open(path, "w", encoding="utf-8")]: creates the file or empties it. *)
Definition open_w (path : str) : IO unit :=
  (emit (EvOpen path W_utf8) ;;
   match open_error E W_utf8 path with
   | Some c => raise (OSError c path)
   | None => fun w =>
       if bool_decide (path ∈ dirs w) then (Raise (OSError EISDIR path), w)
       else (Ret tt, set_files (<[path := []]> (files w)) w)
   end).

(** [f.write(chunk)] on the text file at [path]: the whole chunk is encoded
    before any of it is written. *)
Definition write (path : str) (chunk : str) : IO unit :=
  match utf8_encode chunk with
  | Raise e => raise e
  | Ret bs =>
      match write_error E path with
      | Some c => raise (OSError c path)
      | None => fun w =>
          (Ret tt, set_files (<[path := default [] (files w !! path) ++ bs]> (files w)) w)
      end
  end.

Fixpoint write_chunks (path : str) (chunks : list str) : IO unit :=
  match chunks with
  | [] => ret tt
  | c :: cs => (write path c ;; write_chunks path cs)
  end.

(** [json.dump(data, f, indent=4, ensure_ascii=False)], [f] being the file
    just opened at [path]. *)
Definition json_dump (data : value) (path : str) : IO unit :=
  (emit (EvDump path data) ;;
   write_chunks path (iterencode (float_repr E) 0 data)).

(** [os.path.exists]. *)
Definition path_exists (path : str) : IO bool :=
  fun w => (Ret (bool_decide (path ∈ dirs w) || bool_decide (is_Some (files w !! path))), w).

(** [os.makedirs]. *)
Definition makedirs (path : str) : IO unit :=
  (emit (EvMakedirs path) ;;
   match makedirs_error E path with
   | Some c => raise (OSError c path)
   | None => fun w =>
       if bool_decide (path ∈ dirs w) || bool_decide (is_Some (files w !! path))
       then (Raise (OSError EEXIST path), w)
       else (Ret tt, set_dirs (dirs w ∪ list_to_set (with_parents path)) w)
   end).

(** [requests.get(url)]. *)
Definition http_get (url : fstring) : IO response :=
  (emit (EvGet url) ;; lift (requests_get E url)).

(** ** The script *)

(** The loop over [iter(lambda: f.read(4096), b)], [b] the empty bytes
    object, with the body [sha256_hash.update(byte_block)]. *)
Equations? read_blocks (f : handle) (h : sha256_obj) : outcome sha256_obj
  by wf (length (h_data f) - h_pos f)%nat lt :=
  read_blocks f h with inspect (read f 4096) => {
    | exist _ (Raise e) _ := Raise e;
    | exist _ (Ret ([], _)) _ := Ret h;
    | exist _ (Ret (byte_block, f')) Hread := read_blocks f' (sha256_update h byte_block) }.
Proof.
  unfold read in Hread. destruct (read_error _ _ _); [discriminate|].
  injection Hread as Hb Hf. subst f'. simpl.
  assert (length (take 4096 (drop (h_pos f) (h_data f))) <> 0)%nat by (rewrite Hb; simpl; lia).
  rewrite length_take, length_drop in *. lia.
Qed.

Definition get_sha256 (file_path : str) : IO str :=
  (f ← open_rb file_path;
   sha256_hash ← lift (read_blocks f sha256_new);
   ret (sha256_hexdigest sha256_hash)).

Definition fetch_model_version_by_hash (file_hash : str) : IO value :=
  (let url := [Fld (OStr BASE_URL); Lit "/model-versions/by-hash/"; Fld (OStr file_hash)] in
   response ← http_get url;
   if status_code response =? 200 then lift (json response)
   else
     print [Lit "[ERROR] Failed to fetch model version for hash "; Fld (OStr file_hash);
            Lit " - "; Fld (OInt (status_code response))] ;;
     ret VNone).

Definition fetch_model_details (model_id : value) : IO value :=
  (let url := [Fld (OStr BASE_URL); Lit "/models/"; Fld (OValue model_id)] in
   response ← http_get url;
   if status_code response =? 200 then lift (json response)
   else
     print [Lit "[ERROR] Failed to fetch model for ID "; Fld (OValue model_id);
            Lit " - "; Fld (OInt (status_code response))] ;;
     ret VNone).

Definition save_model_info (file_path : str) (data : value) : IO unit :=
  let json_path := fst (splitext file_path) ++ py ".json" in
  try_except_Exception
    (open_w json_path ;;
     json_dump data json_path ;;
     print [Lit "[INFO] Saved model info to "; Fld (OStr json_path)])
    (fun e =>
       print [Lit "[ERROR] Failed to save JSON for "; Fld (OStr file_path);
              Lit " - "; Fld (OExn e)]).

(** [model_version.get("modelId")]: only a [dict] has the method. *)
Definition get (o : value) (key : str) : outcome value :=
  match o with
  | VDict d => Ret (default VNone (assoc key d))
  | _ => Raise (AttributeError o "get")
  end.

Definition newline : string := String (ascii_of_nat 10) EmptyString.

Definition get_metadata_for_lora (file_path output_dir : str) : IO unit :=
  (if endswith file_path EXTENSION then
     print [Lit newline; Lit "[PROCESSING] "; Fld (OStr file_path)] ;;
     file_hash ← get_sha256 file_path;
     print [Lit "[HASH] "; Fld (OStr file_hash)] ;;
     model_version ← fetch_model_version_by_hash file_hash;
     if negb (truthy model_version) then ret tt
     else
       model_id ← lift (get model_version (py "modelId"));
       let model_info := [(py "modelVersion", model_version)] in
       model_info ←
         (if truthy model_id then
            model_details ← fetch_model_details model_id;
            if truthy model_details
            then ret (setitem model_info (py "model") model_details)
            else ret model_info
          else ret model_info);
       let file_name := basename file_path in
       there ← path_exists output_dir;
       (if negb there then makedirs output_dir else ret tt) ;;
       save_model_info (join output_dir file_name) (VDict model_info)
   else ret tt).

(** The [__main__] block; [argv] is [sys.argv]. *)
Definition main (argv : list str) : IO unit :=
  (if negb (length argv =? 3)%nat then
     print [Lit "Usage: python civitai_model_metadata_download.py <path_to_safetensors> <output_directory>"] ;;
     raise (SystemExit 1)
   else get_metadata_for_lora (nth 1 argv []) (nth 2 argv [])).

End Program.

(** The exit status of the interpreter, as a shell sees it: 0 when the
    script runs to its end, the code of [sys.exit], 130 when the process
    ends itself with SIGINT on a [KeyboardInterrupt], and 1 for any other
    exception nobody caught. *)
Definition exit_status {A} (r : outcome A) : Z :=
  match r with
  | Ret _ => 0
  | Raise (SystemExit code) => code
  | Raise KeyboardInterrupt => 130
  | Raise _ => 1
  end.

(** ** Reading the sidecar back: [json.load(open(path, encoding="utf-8"))]

    The decoder of UTF-8 (strict: no overlong forms, no surrogates) and the
    scanner of [json.decoder], with [parse_float] a parameter. *)

Definition is_cont (b : Z) : bool := (0x80 <=? b) && (b <? 0xC0).

(** [fuel] bounds the number of characters; the length of the input is
    always enough. *)
Fixpoint utf8_decode_from (fuel : nat) (bs : list Z) : option str :=
  match fuel with
  | O => match bs with [] => Some [] | _ => None end
  | S fuel' =>
      match bs with
      | [] => Some []
      | b0 :: bs1 =>
          if b0 <? 0x80 then cons b0 <$> utf8_decode_from fuel' bs1
          else if (0xC2 <=? b0) && (b0 <? 0xE0) then
            match bs1 with
            | b1 :: bs2 =>
                if is_cont b1
                then cons ((b0 - 0xC0) * 64 + (b1 - 0x80)) <$> utf8_decode_from fuel' bs2
                else None
            | _ => None
            end
          else if (0xE0 <=? b0) && (b0 <? 0xF0) then
            match bs1 with
            | b1 :: b2 :: bs3 =>
                let c := ((b0 - 0xE0) * 64 + (b1 - 0x80)) * 64 + (b2 - 0x80) in
                if is_cont b1 && is_cont b2 && (0x800 <=? c)
                   && negb ((0xD800 <=? c) && (c <=? 0xDFFF))
                then cons c <$> utf8_decode_from fuel' bs3
                else None
            | _ => None
            end
          else if (0xF0 <=? b0) && (b0 <? 0xF5) then
            match bs1 with
            | b1 :: b2 :: b3 :: bs4 =>
                let c := (((b0 - 0xF0) * 64 + (b1 - 0x80)) * 64 + (b2 - 0x80)) * 64 + (b3 - 0x80) in
                if is_cont b1 && is_cont b2 && is_cont b3 && (0x10000 <=? c) && (c <? 0x110000)
                then cons c <$> utf8_decode_from fuel' bs4
                else None
            | _ => None
            end
          else None
      end
  end.

Definition utf8_decode (bs : bytes) : option str :=
  utf8_decode_from (length bs) (map byte_to_Z bs).

Definition is_ws (c : char) : bool := (c =? 32) || (c =? 9) || (c =? 10) || (c =? 13).

Fixpoint skip_ws (s : str) : str :=
  match s with
  | c :: s' => if is_ws c then skip_ws s' else s
  | [] => []
  end.

Definition is_digit (c : char) : bool := (48 <=? c) && (c <=? 57).

Definition hexval (c : char) : option Z :=
  if (48 <=? c) && (c <=? 57) then Some (c - 48)
  else if (97 <=? c) && (c <=? 102) then Some (c - 87)
  else if (65 <=? c) && (c <=? 70) then Some (c - 55)
  else None.

Definition hex4val (a b c d : char) : option Z :=
  x ← hexval a; y ← hexval b; z ← hexval c; t ← hexval d;
  Some (((x * 16 + y) * 16 + z) * 16 + t).

(** The character a one-letter escape stands for. *)
Definition unescape (e : char) : option char :=
  if e =? 34 then Some 34
  else if e =? 92 then Some 92
  else if e =? 47 then Some 47
  else if e =? 98 then Some 8
  else if e =? 102 then Some 12
  else if e =? 110 then Some 10
  else if e =? 114 then Some 13
  else if e =? 116 then Some 9
  else None.

(** [scanstring] (strict), from the character after the opening quote:
    the string and the text after the closing quote. [fuel] bounds the
    number of characters of the result. *)
Fixpoint scanstring (fuel : nat) (s : str) : option (str * str) :=
  match fuel with
  | O => None
  | S fuel' =>
      match s with
      | [] => None
      | c :: rest =>
          if c =? 34 then Some ([], rest)
          else if c =? 92 then
            match rest with
            | [] => None
            | e :: rest1 =>
                if e =? 117 then
                  match rest1 with
                  | a :: b :: c' :: d :: rest2 =>
                      uni ← hex4val a b c' d;
                      let single := '(t, r) ← scanstring fuel' rest2; Some (uni :: t, r) in
                      if (0xD800 <=? uni) && (uni <=? 0xDBFF) then
                        match rest2 with
                        | x :: y :: a2 :: b2 :: c2 :: d2 :: rest3 =>
                            if (x =? 92) && (y =? 117) then
                              uni2 ← hex4val a2 b2 c2 d2;
                              if (0xDC00 <=? uni2) && (uni2 <=? 0xDFFF) then
                                '(t, r) ← scanstring fuel' rest3;
                                Some (0x10000 + ((uni - 0xD800) * 1024 + (uni2 - 0xDC00)) :: t, r)
                              else single
                            else single
                        | _ => single
                        end
                      else single
                  | _ => None
                  end
                else
                  u ← unescape e;
                  '(t, r) ← scanstring fuel' rest1;
                  Some (u :: t, r)
            end
          else if (0 <=? c) && (c <? 32) then None
          else
            '(t, r) ← scanstring fuel' rest;
            Some (c :: t, r)
      end
  end.

Fixpoint span_digits (s : str) : str * str :=
  match s with
  | c :: s' =>
      if is_digit c then let '(ds, r) := span_digits s' in (c :: ds, r) else ([], s)
  | [] => ([], [])
  end.

(** [NUMBER_RE] has three groups: an integer part (an optional minus sign,
    then a zero or a run of digits that starts with another digit), an
    optional fraction (a dot and digits) and an optional exponent (e or E,
    an optional sign, digits). Each scanner returns what its group matched
    and what follows. *)
Definition scan_int (s : str) : option (str * str) :=
  let '(sign, s1) := match s with
                     | c :: t => if c =? 45 then ([45], t) else ([], s)
                     | [] => ([], s)
                     end in
  match s1 with
  | [] => None
  | c :: t =>
      if c =? 48 then Some (sign ++ [48], t)
      else if is_digit c then let '(ds, r) := span_digits t in Some (sign ++ c :: ds, r)
      else None
  end.

Definition scan_frac (s : str) : str * str :=
  match s with
  | p :: t =>
      if p =? 46 then
        match span_digits t with
        | ([], _) => ([], s)
        | (ds, r) => (46 :: ds, r)
        end
      else ([], s)
  | [] => ([], s)
  end.

Definition scan_exp (s : str) : str * str :=
  match s with
  | e :: t =>
      if (e =? 101) || (e =? 69) then
        let '(sg, t') := match t with
                         | g :: t' => if (g =? 43) || (g =? 45) then ([g], t') else ([], t)
                         | [] => ([], t)
                         end in
        match span_digits t' with
        | ([], _) => ([], s)
        | (ds, r) => (e :: sg ++ ds, r)
        end
      else ([], s)
  | [] => ([], s)
  end.

(** [NUMBER_RE.match]: the integer part, the fraction, the exponent (each
    empty when absent) and what follows the number. *)
Definition match_number (s : str) : option (str * str * str * str) :=
  '(integer, s2) ← scan_int s;
  let '(frac, s3) := scan_frac s2 in
  let '(exp, s4) := scan_exp s3 in
  Some (integer, frac, exp, s4).

Fixpoint digits_uint (s : str) : Decimal.uint :=
  match s with
  | [] => Decimal.Nil
  | c :: s' =>
      let d := digits_uint s' in
      if c =? 48 then Decimal.D0 d else if c =? 49 then Decimal.D1 d
      else if c =? 50 then Decimal.D2 d else if c =? 51 then Decimal.D3 d
      else if c =? 52 then Decimal.D4 d else if c =? 53 then Decimal.D5 d
      else if c =? 54 then Decimal.D6 d else if c =? 55 then Decimal.D7 d
      else if c =? 56 then Decimal.D8 d else Decimal.D9 d
  end.

(** [int(text)] for what [NUMBER_RE] lets through. *)
Definition parse_int (text : str) : Z :=
  match text with
  | c :: ds => if c =? 45 then Z.of_int (Decimal.Neg (digits_uint ds))
               else Z.of_int (Decimal.Pos (digits_uint text))
  | [] => 0
  end.

(** [dict(pairs)]: a later pair replaces an earlier one with the same key. *)
Definition dict_of_pairs (pairs : list (str * value)) : list (str * value) :=
  fold_left (fun d kv => setitem d (fst kv) (snd kv)) pairs [].

Section Scanner.
Context (parse_float : str -> spec_float).

(** [scan_once] with [JSONArray] and [JSONObject]. Every call costs one unit
    of [fuel]; the length of the text is always enough. *)
Fixpoint scan_once (fuel : nat) (s : str) : option (value * str) :=
  match fuel with
  | O => None
  | S fuel' =>
      match s with
      | [] => None
      | c :: rest =>
          if c =? 34 then '(t, r) ← scanstring (length rest) rest; Some (VStr t, r)
          else if c =? 123 then
            let s1 := skip_ws rest in
            match s1 with
            | c1 :: r1 =>
                if c1 =? 125 then Some (VDict [], r1)
                else '(pairs, r) ← scan_members fuel' s1; Some (VDict (dict_of_pairs pairs), r)
            | [] => None
            end
          else if c =? 91 then
            let s1 := skip_ws rest in
            match s1 with
            | c1 :: r1 =>
                if c1 =? 93 then Some (VList [], r1)
                else '(items, r) ← scan_items fuel' s1; Some (VList items, r)
            | [] => None
            end
          else if startswith s (py "null") then Some (VNone, drop 4 s)
          else if startswith s (py "true") then Some (VBool true, drop 4 s)
          else if startswith s (py "false") then Some (VBool false, drop 5 s)
          else
            match match_number s with
            | Some (integer, frac, exp, r) =>
                if bool_decide (frac = []) && bool_decide (exp = [])
                then Some (VInt (parse_int integer), r)
                else Some (VFloat (parse_float (integer ++ frac ++ exp)), r)
            | None =>
                if startswith s (py "NaN") then Some (VFloat S754_nan, drop 3 s)
                else if startswith s (py "Infinity") then Some (VFloat (S754_infinity false), drop 8 s)
                else if startswith s (py "-Infinity") then Some (VFloat (S754_infinity true), drop 9 s)
                else None
            end
      end
  end

(** The items of an array, from the first character of an item to the
    character after the closing bracket. *)
with scan_items (fuel : nat) (s : str) : option (list value * str) :=
  match fuel with
  | O => None
  | S fuel' =>
      '(v, r) ← scan_once fuel' s;
      match skip_ws r with
      | c :: r1 =>
          if c =? 93 then Some ([v], r1)
          else if c =? 44 then
            '(vs, r2) ← scan_items fuel' (skip_ws r1); Some (v :: vs, r2)
          else None
      | [] => None
      end
  end

(** The members of an object, from the opening quote of a key to the
    character after the closing brace. *)
with scan_members (fuel : nat) (s : str) : option (list (str * value) * str) :=
  match fuel with
  | O => None
  | S fuel' =>
      match s with
      | q :: s0 =>
          if q =? 34 then
            '(k, r0) ← scanstring (length s0) s0;
            match skip_ws r0 with
            | c0 :: r1 =>
                if c0 =? 58 then
                  '(v, r) ← scan_once fuel' (skip_ws r1);
                  match skip_ws r with
                  | c :: r2 =>
                      if c =? 125 then Some ([(k, v)], r2)
                      else if c =? 44 then
                        '(kvs, r3) ← scan_members fuel' (skip_ws r2); Some ((k, v) :: kvs, r3)
                      else None
                  | [] => None
                  end
                else None
            | [] => None
            end
          else None
      | [] => None
      end
  end.

(** [json.loads]: one value, white space around it, nothing else. *)
Definition loads (s : str) : option value :=
  '(v, r) ← scan_once (S (length s)) (skip_ws s);
  if bool_decide (skip_ws r = []) then Some v else None.

(** The sidecar at [path] read back; [None] stands for any exception. *)
Definition json_load (w : world) (path : str) : option value :=
  bs ← files w !! path;
  s ← utf8_decode bs;
  loads s.

End Scanner.

(* ================================================================== *)
(** * Part II. The vocabulary of the properties                        *)
(* ================================================================== *)

(** The world after more calls were logged. *)
Definition log (evs : list event) (w : world) : world :=
  World (files w) (dirs w) (trace w ++ evs).

(** The two URLs and the lines the script prints. *)
Definition version_url (file_hash : str) : fstring :=
  [Fld (OStr BASE_URL); Lit "/model-versions/by-hash/"; Fld (OStr file_hash)].

Definition model_url (model_id : value) : fstring :=
  [Fld (OStr BASE_URL); Lit "/models/"; Fld (OValue model_id)].

Definition processing_line (file_path : str) : fstring :=
  [Lit newline; Lit "[PROCESSING] "; Fld (OStr file_path)].

Definition hash_line (file_hash : str) : fstring :=
  [Lit "[HASH] "; Fld (OStr file_hash)].

Definition version_error_line (file_hash : str) (status : Z) : fstring :=
  [Lit "[ERROR] Failed to fetch model version for hash "; Fld (OStr file_hash);
   Lit " - "; Fld (OInt status)].

Definition model_error_line (model_id : value) (status : Z) : fstring :=
  [Lit "[ERROR] Failed to fetch model for ID "; Fld (OValue model_id);
   Lit " - "; Fld (OInt status)].

Definition saved_line (json_path : str) : fstring :=
  [Lit "[INFO] Saved model info to "; Fld (OStr json_path)].

Definition save_error_line (file_path : str) (e : exn) : fstring :=
  [Lit "[ERROR] Failed to save JSON for "; Fld (OStr file_path); Lit " - "; Fld (OExn e)].

(** The standard output takes these lines. *)
Definition prints (E : env) (lines : list fstring) : Prop :=
  Forall (fun line => print_error E line = None) lines.

(** A file that opens and reads without a fault. *)
Definition readable (E : env) (w : world) (path : str) (data : bytes) : Prop :=
  files w !! path = Some data
  /\ open_error E RB path = None
  /\ forall off, read_error E path off = None.

(** The successive blocks of at most [S k] bytes of a byte string. *)
Equations? chunks (k : nat) (data : bytes) : list bytes by wf (length data) lt :=
  chunks k [] := [];
  chunks k (b :: data) := take (S k) (b :: data) :: chunks k (drop k data).
Proof. rewrite length_drop. lia. Qed.

(** The offsets at which [get_sha256] reads a file of [n] bytes: every
    multiple of 4096 up to [n], and [n] itself. *)
Definition read_offset (n off : nat) : Prop :=
  (off <= n)%nat /\ (off = n \/ exists k, off = (4096 * k)%nat).

Definition is_lower_hex (c : char) : bool :=
  ((48 <=? c) && (c <=? 57)) || ((97 <=? c) && (c <=? 102)).

(** The digest the script prints and sends for a file with these bytes. *)
Definition digest_of (data : bytes) : str := hex (SHA256 data).

(** The world once the file has been hashed and the digest printed. *)
Definition hashed (file_path : str) (data : bytes) (w : world) : world :=
  log [EvPrint (processing_line file_path); EvOpen file_path RB;
       EvPrint (hash_line (digest_of data))] w.

(** The body of [get_metadata_for_lora] in two blocks. Lines 77 to 94 hash
    the file, query the registry and build [model_info]; [None] is the
    early [return]. *)
Definition build_model_info (E : env) (file_path : str) : IO (option (list (str * value))) :=
  print E (processing_line file_path);;
  file_hash ← get_sha256 E file_path;
  print E (hash_line file_hash);;
  model_version ← fetch_model_version_by_hash E file_hash;
  if negb (truthy model_version) then ret None
  else
    model_id ← lift (get model_version (py "modelId"));
    let model_info := [(py "modelVersion", model_version)] in
    if truthy model_id then
      model_details ← fetch_model_details E model_id;
      if truthy model_details
      then ret (Some (setitem model_info (py "model") model_details))
      else ret (Some model_info)
    else ret (Some model_info).

(** Lines 96 to 99 make sure of the output directory and save. *)
Definition persist (E : env) (file_path output_dir : str) (model_info : list (str * value)) : IO unit :=
  let file_name := basename file_path in
  there ← path_exists output_dir;
  (if negb there then makedirs E output_dir else ret tt);;
  save_model_info E (join output_dir file_name) (VDict model_info).

(** Where the sidecar goes. *)
Definition sidecar_path (file_path output_dir : str) : str :=
  fst (splitext (join output_dir (basename file_path))) ++ py ".json".

(** The [with] block of [save_model_info], lines 43 and 44: the file is
    opened and the dump written to it. *)
Definition write_file (E : env) (json_path : str) (data : value) : IO unit :=
  open_w E json_path;;
  json_dump E data json_path.

(** The body of the [try] of [save_model_info]. *)
Definition write_sidecar (E : env) (json_path : str) (data : value) : IO unit :=
  open_w E json_path;;
  json_dump E data json_path;;
  print E (saved_line json_path).

(** The output directory is there, or can be made. *)
Definition output_dir_ready (E : env) (w : world) (output_dir : str) : Prop :=
  output_dir ∈ dirs w \/ is_Some (files w !! output_dir) \/ makedirs_error E output_dir = None.

Definition is_get (ev : event) : bool :=
  match ev with
  | EvGet _ => true
  | _ => false
  end.

(** The requests and the dumps recorded in a trace. *)
Definition requests_of (t : list event) : list fstring :=
  omap (fun ev => match ev with EvGet url => Some url | _ => None end) t.

Definition dumps_of (t : list event) : list (str * value) :=
  omap (fun ev => match ev with EvDump path data => Some (path, data) | _ => None end) t.

(** The world when [save_model_info] is entered: as it was when the output
    directory existed, and with the directory and its parents otherwise. *)
Definition after_dir_step (output_dir : str) (w : world) : world :=
  if bool_decide (output_dir ∈ dirs w) || bool_decide (is_Some (files w !! output_dir))
  then w
  else set_dirs (dirs w ∪ list_to_set (with_parents output_dir)) (log [EvMakedirs output_dir] w).

(** ** A small world for the examples

    One model file, [a.safetensors], holding the bytes of "abc"; a registry
    whose two answers are parameters; an operating system whose faults are
    parameters; a standard output that takes every line. *)
Definition ex_bytes (s : string) : bytes := map byte_of_Z (py s).

Definition ex_world : world :=
  World (<[py "a.safetensors" := ex_bytes "abc"]> ∅) ∅ [].

Definition ex_registry (version model : outcome response) (url : fstring) : outcome response :=
  match url with
  | [_; Lit "/model-versions/by-hash/"; _] => version
  | _ => model
  end.

Definition no_fault {A} (_ : A) : option errno := None.

Definition ex_float_repr (x : spec_float) : str :=
  match x with
  | S754_finite false 3 (-1) => py "1.5"
  | S754_finite true 1 (-2) => py "-0.25"
  | _ => py "0.0"
  end.

Definition ex_parse_float (s : str) : spec_float :=
  if bool_decide (s = py "1.5") then S754_finite false 3 (-1)
  else if bool_decide (s = py "-0.25") then S754_finite true 1 (-2)
  else S754_zero false.

Definition ex_env (version model : outcome response)
  (open_fault : mode -> str -> option errno) (mkdir_fault : str -> option errno) : env :=
  Env (ex_registry version model) open_fault (fun _ _ => None) no_fault mkdir_fault
    (fun _ => None) ex_float_repr.

Definition ex_version : value := VDict [(py "modelId", VInt 42); (py "name", VStr (py "v1"))].
Definition ex_model : value := VDict [(py "name", VStr (py "Foo"))].

Definition ok_200 (body : value) : outcome response := Ret (Response 200 (Ret body)).
Definition not_found : outcome response := Ret (Response 404 (Raise JSONDecodeError)).

(** The registry knows the file and its model, and nothing fails. *)
Definition ex_env_ok : env :=
  ex_env (ok_200 ex_version) (ok_200 ex_model) (fun _ _ => None) no_fault.

Definition ex_digest : str :=
  py "ba7816bf8f01cfea414140de5dae2223b00361a396177a9cb410ff61f20015ad".

(** The registry answers the request by id with status 200 and an empty
    object. *)
Definition ex_env_empty_model : env :=
  ex_env (ok_200 ex_version) (ok_200 (VDict [])) (fun _ _ => None) no_fault.

(** The request by id is answered with 404. *)
Definition ex_env_no_model : env :=
  ex_env (ok_200 ex_version) not_found (fun _ _ => None) no_fault.

(** The output directory cannot be created. *)
Definition ex_env_no_mkdir : env :=
  ex_env (ok_200 ex_version) (ok_200 ex_model) (fun _ _ => None) (fun _ => Some EACCES).

(** The sidecar cannot be opened for writing. *)
Definition ex_env_no_write : env :=
  ex_env (ok_200 ex_version) (ok_200 ex_model)
    (fun m _ => match m with W_utf8 => Some EACCES | RB => None end) no_fault.

Definition ex_argv : list str := [py "civitai_model_metadata_download.py"; py "a.safetensors"; py "out"].

(** The world of the examples once the file is hashed and the request by
    hash is made. *)
Definition ex_looked_up : world :=
  log [EvGet (version_url (digest_of (ex_bytes "abc")))]
    (hashed (py "a.safetensors") (ex_bytes "abc") ex_world).

(** The characters UTF-8 can carry: the code points but the surrogates. *)
Definition encodable (c : char) : bool :=
  (0 <=? c) && (c <? 0x110000) && negb ((0xD800 <=? c) && (c <=? 0xDFFF)).

(** The exceptions a write can raise. *)
Definition write_exn (path : str) (e : exn) : Prop :=
  (exists c, e = OSError c path) \/ (exists c, e = UnicodeEncodeError c).

Section Persistable.
Context (frepr : spec_float -> str) (fparse : str -> spec_float).

(** A float whose [repr] is a JSON number with a fraction or an exponent
    that [float()] reads back as the same float; [nan] and the infinities
    are written and read as constants. *)
Definition float_ok (x : spec_float) : bool :=
  match x with
  | S754_nan | S754_infinity _ => true
  | _ =>
      match match_number (frepr x) with
      | Some (i, f, e, []) =>
          negb (bool_decide (f = []) && bool_decide (e = []))
          && bool_decide (fparse (i ++ f ++ e) = x)
      | _ => false
      end
  end.

(** An object as Python has it: the keys of a dict differ from each other,
    and the floats are such as [float_ok] says. *)
Fixpoint well_formed (o : value) : bool :=
  match o with
  | VFloat x => float_ok x
  | VList l => forallb well_formed l
  | VDict d =>
      bool_decide (NoDup (map fst d)) && forallb (fun kv => well_formed (snd kv)) d
  | _ => true
  end.

(** An object all of whose text UTF-8 can carry: no lone surrogate in a
    string or a key. *)
Fixpoint utf8_text (o : value) : bool :=
  match o with
  | VStr s => forallb encodable s
  | VFloat x => forallb encodable (floatstr frepr x)
  | VList l => forallb utf8_text l
  | VDict d => forallb (fun kv => forallb encodable (fst kv) && utf8_text (snd kv)) d
  | _ => true
  end.

End Persistable.

(** What may follow a value in a dump: nothing, a comma or a line break. *)
Definition follows (rest : str) : Prop :=
  match rest with
  | [] => True
  | c :: _ => c = 44 \/ c = 10
  end.

(** The text of an object at a nesting level; [dumps] is the text at
    level 0. *)
Definition text (frepr : spec_float -> str) (level : nat) (o : value) : str :=
  concat (iterencode frepr level o).

(** What cannot continue a number. *)
Definition stops (rest : str) : Prop :=
  match rest with
  | [] => True
  | c :: _ => is_digit c = false /\ c <> 46 /\ c <> 101 /\ c <> 69 /\ c <> 43 /\ c <> 45
  end.

(** The scanner, given at least as much fuel as the text of [o] is long,
    reads [o] off the front of the text. *)
Definition scans (frepr : spec_float -> str) (fparse : str -> spec_float) (o : value) : Prop :=
  forall level rest fuel,
    follows rest ->
    (length (text frepr level o) <= fuel)%nat ->
    scan_once fparse fuel (text frepr level o ++ rest) = Some (o, rest).

(** The line breaks of a text, each with four more spaces after it. *)
Definition reindent (text : str) : str :=
  flat_map (fun c => if c =? 10 then 10 :: repeat 32 4 else [c]) text.

(** An object whose floats are written on one line. *)
Fixpoint one_line_floats (frepr : spec_float -> str) (o : value) : bool :=
  match o with
  | VFloat x => forallb (fun c => negb (c =? 10)) (floatstr frepr x)
  | VList l => forallb (one_line_floats frepr) l
  | VDict d => forallb (fun kv => one_line_floats frepr (snd kv)) d
  | _ => true
  end.

(** A text of the examples, written with single quotes for the double ones. *)
Definition dq (s : string) : str := map (fun c => if c =? 39 then 34 else c) (py s).

(** The bundle of the scenario of the specification, with a float and a
    name that is not ASCII added. *)
Definition ex_bundle : value :=
  VDict [(py "modelVersion",
          VDict [(py "modelId", VInt 42);
                 (py "weights", VList [VFloat (S754_finite false 3 (-1)); VFloat S754_nan]);
                 (py "files", VList [])]);
         (py "model", VDict [(py "name", VStr [70; 246; 246; 9731])])].

(** A record with a lone surrogate in a name, and the JSON text
    [{"name": "a\ud800b"}] that [response.json()] turns into it. *)
Definition ex_surrogate_version : value := VDict [(py "name", VStr [97; 0xD800; 98])].

Definition ex_surrogate_body : str :=
  dq "{'name': 'a" ++ [92] ++ py "ud800b" ++ dq "'}".

Definition ex_env_surrogate : env :=
  ex_env (ok_200 ex_surrogate_version) not_found (fun _ _ => None) no_fault.

(** ** JSON with 4-space indentation, as the words have it

    The text the specification describes, written without regard to the
    chunks of the encoder: a scalar on one line; an empty container as its
    two brackets; the items of any other container one to a line, each line
    four spaces to the right of the line the container opens on, a comma
    after every item but the last, and the closing bracket on a line of its
    own under the opening one. *)
Definition four_spaces : str := py "    ".

Definition line_break (level : nat) : str := 10 :: concat (repeat four_spaces level).

Fixpoint indented (frepr : spec_float -> str) (level : nat) (o : value) : str :=
  match o with
  | VNone => py "null"
  | VBool true => py "true"
  | VBool false => py "false"
  | VInt n => int_repr n
  | VFloat x => floatstr frepr x
  | VStr s => encode_basestring s
  | VList [] => py "[]"
  | VList (v :: l) =>
      [91] ++ line_break (S level) ++ indented frepr (S level) v
      ++ flat_map (fun v' => [44] ++ line_break (S level) ++ indented frepr (S level) v') l
      ++ line_break level ++ [93]
  | VDict [] => py "{}"
  | VDict ((k, v) :: d) =>
      [123] ++ line_break (S level)
      ++ encode_basestring k ++ [58; 32] ++ indented frepr (S level) v
      ++ flat_map (fun kv => [44] ++ line_break (S level)
                             ++ encode_basestring (fst kv) ++ [58; 32]
                             ++ indented frepr (S level) (snd kv)) d
      ++ line_break level ++ [125]
  end.

(** The bundle of the two records of the registry, the world of the
    examples once both were fetched, and the world once [save_model_info]
    alone has written [ex_bundle]. *)
Definition ex_info : list (str * value) :=
  [(py "modelVersion", ex_version); (py "model", ex_model)].

Definition ex_fetched : world := log [EvGet (model_url (VInt 42))] ex_looked_up.

Definition ex_bundle_saved : world :=
  snd (write_sidecar ex_env_ok (py "out/a.json") ex_bundle ex_world).

(** The run of the examples with an output directory two levels down. *)
Definition ex_argv_nested : list str :=
  [py "civitai_model_metadata_download.py"; py "a.safetensors"; py "out/2024/loras"].

Definition ex_saved_nested : world :=
  snd (write_sidecar ex_env_ok (py "out/2024/loras/a.json") (VDict ex_info)
         (after_dir_step (py "out/2024/loras") ex_fetched)).

(** A model file in [models] whose name is nothing but the extension. *)
Definition ex_world_hidden : world :=
  World (<[py "models/.safetensors" := ex_bytes "abc"]> ∅) {[py "models"]} [].

Definition ex_argv_hidden : list str :=
  [py "civitai_model_metadata_download.py"; py "models/.safetensors"; py "out"].

(** A standard output with the encoding UTF-8 and the error handler
    [strict], as far as the strings that fill the fields of a line go: it
    refuses a line with a lone surrogate in one of them. *)
Definition strict_utf8_stdout (line : fstring) : option exn :=
  match utf8_encode (flat_map (fun p => match p with Fld (OStr s) => s | _ => [] end) line) with
  | Raise e => Some e
  | Ret _ => None
  end.

Definition ex_env_strict_stdout : env :=
  Env (ex_registry (ok_200 ex_version) (ok_200 ex_model)) (fun _ _ => None) (fun _ _ => None)
    no_fault no_fault strict_utf8_stdout ex_float_repr.

(** An output directory given on the command line as the bytes of [out]
    and the byte 0xff, which [sys.argv] holds as the lone surrogate
    U+DCFF. *)
Definition ex_unprintable_dir : str := py "out" ++ [0xDCFF].

Definition ex_argv_unprintable : list str :=
  [py "civitai_model_metadata_download.py"; py "a.safetensors"; ex_unprintable_dir].

(** The record of the registry has a [modelId] that is 0. *)
Definition ex_version_no_id : value := VDict [(py "modelId", VInt 0); (py "name", VStr (py "v1"))].

Definition ex_env_falsy_id : env :=
  ex_env (ok_200 ex_version_no_id) (ok_200 ex_model) (fun _ _ => None) no_fault.

(** The world of the examples when the sidecar cannot be opened: the
    output directory was made, and the [with] block ended at [open]. *)
Definition ex_not_opened : world :=
  log [EvMakedirs (py "out"); EvOpen (py "out/a.json") W_utf8]
    (set_dirs {[py "out"]} ex_fetched).

(** ** The ways a run can go *)







(* ================================================================== *)
(** * Part III. Properties                                             *)
(* ================================================================== *)

(** ** Tactics for the comparisons of integers *)

(** Decides every comparison in sight. *)
Ltac zbool :=
  repeat match goal with
         | |- context [?a <? ?b] => destruct (Z.ltb_spec a b)
         | |- context [?a <=? ?b] => destruct (Z.leb_spec a b)
         | |- context [?a =? ?b] => destruct (Z.eqb_spec a b)
         | H : context [?a <? ?b] |- _ => destruct (Z.ltb_spec a b)
         | H : context [?a <=? ?b] |- _ => destruct (Z.leb_spec a b)
         | H : context [?a =? ?b] |- _ => destruct (Z.eqb_spec a b)
         end;
  cbn [andb orb negb] in *.

Ltac dlia := Z.div_mod_to_equations; lia.

(** Decides the comparisons of the goal one at a time, dropping the cases
    the hypotheses rule out. *)
Ltac zcases :=
  repeat (match goal with
          | |- context [?a <? ?b] => destruct (Z.ltb_spec a b)
          | |- context [?a <=? ?b] => destruct (Z.leb_spec a b)
          | |- context [?a =? ?b] => destruct (Z.eqb_spec a b)
          end; try lia; cbn [andb orb negb]).

(** ** Running computations *)

Lemma world_eta w : World (files w) (dirs w) (trace w) = w.
Proof. now destruct w. Qed.


Lemma log_log evs1 evs2 w : log evs2 (log evs1 w) = log (evs1 ++ evs2) w.
Proof. unfold log; simpl. now rewrite app_assoc. Qed.

Lemma emit_eq ev w : emit ev w = (Ret tt, log [ev] w).
Proof. reflexivity. Qed.

Lemma bind_eq {A B} (m : IO A) (k : A -> IO B) w :
  (m ≫= k) w = match m w with
               | (Ret a, w') => k a w'
               | (Raise e, w') => (Raise e, w')
               end.
Proof. reflexivity. Qed.

Lemma bind_ret_eq {A B} (m : IO A) (k : A -> IO B) w a w' :
  m w = (Ret a, w') -> (m ≫= k) w = k a w'.
Proof. intros H. now rewrite bind_eq, H. Qed.

Lemma bind_raise_eq {A B} (m : IO A) (k : A -> IO B) w e w' :
  m w = (Raise e, w') -> (m ≫= k) w = (Raise e, w').
Proof. intros H. now rewrite bind_eq, H. Qed.

Lemma print_run E line w :
  print E line w = match print_error E line with
                   | Some e => (Raise e, w)
                   | None => (Ret tt, log [EvPrint line] w)
                   end.
Proof. unfold print. now destruct (print_error E line). Qed.

Lemma print_eq E line w :
  print_error E line = None -> print E line w = (Ret tt, log [EvPrint line] w).
Proof. intros H. now rewrite print_run, H. Qed.

Lemma prints_cons E line lines :
  prints E (line :: lines) <-> print_error E line = None /\ prints E lines.
Proof. unfold prints. now rewrite Forall_cons. Qed.

(** ** The hash object *)

Lemma iter_blocks_short f H data :
  (length data < 64)%nat -> iter_blocks f H data = (H, data).
Proof. intros Hlen. simp iter_blocks. destruct (decide _); [lia | reflexivity]. Qed.

Lemma iter_blocks_long f H data :
  (64 <= length data)%nat ->
  iter_blocks f H data = iter_blocks f (f H (take 64 data)) (drop 64 data).
Proof. intros Hlen. rewrite iter_blocks_equation_1. destruct (decide _); [reflexivity | lia]. Qed.

Lemma iter_blocks_rest f H data :
  (length (snd (iter_blocks f H data)) < 64)%nat.
Proof.
  remember (length data) as n eqn:Hn. revert H data Hn.
  induction n as [n IH] using lt_wf_ind. intros H data ->.
  destruct (decide (64 <= length data)%nat) as [Hlen|Hlen].
  - rewrite iter_blocks_long by assumption.
    eapply IH; [|reflexivity]. rewrite length_drop. lia.
  - rewrite iter_blocks_short by lia. simpl. lia.
Qed.

(** Absorbing [a ++ b] is absorbing [a] and then [b] after what [a] left. *)
Lemma iter_blocks_app f H a b :
  iter_blocks f H (a ++ b) =
  iter_blocks f (fst (iter_blocks f H a)) (snd (iter_blocks f H a) ++ b).
Proof.
  remember (length a) as n eqn:Hn. revert H a Hn.
  induction n as [n IH] using lt_wf_ind. intros H a ->.
  destruct (decide (64 <= length a)%nat) as [Hlen|Hlen].
  - rewrite (iter_blocks_long f H a) by assumption.
    rewrite (iter_blocks_long f H (a ++ b)) by (rewrite length_app; lia).
    rewrite take_app_le, drop_app_le by lia.
    eapply IH; [|reflexivity]. rewrite length_drop. lia.
  - rewrite (iter_blocks_short f H a) by lia. reflexivity.
Qed.

Definition sha256_ok (o : sha256_obj) : Prop := (length (sh_pending o) < 64)%nat.

Lemma sha256_update_ok o data : sha256_ok (sha256_update o data).
Proof.
  unfold sha256_update, sha256_ok, hash_blocks.
  pose proof (iter_blocks_rest compress (sh_H o) (sh_pending o ++ data)) as Hr.
  destruct (iter_blocks _ _ _); simpl in *. exact Hr.
Qed.

Lemma sha256_update_nil o : sha256_ok o -> sha256_update o [] = o.
Proof.
  unfold sha256_ok, sha256_update, hash_blocks. intros Hok.
  rewrite app_nil_r, iter_blocks_short by assumption.
  destruct o; simpl. f_equal. apply Nat.add_0_r.
Qed.

Lemma sha256_update_app o a b :
  sha256_update (sha256_update o a) b = sha256_update o (a ++ b).
Proof.
  unfold sha256_update, hash_blocks.
  rewrite (app_assoc (sh_pending o) a b).
  rewrite (iter_blocks_app compress (sh_H o) (sh_pending o ++ a) b).
  destruct (iter_blocks compress (sh_H o) (sh_pending o ++ a)) as [H1 r1]; simpl.
  destruct (iter_blocks compress H1 (r1 ++ b)) as [H2 r2].
  f_equal. rewrite length_app. lia.
Qed.

(** Feeding the blocks one by one is feeding their concatenation. *)
Lemma sha256_update_blocks blocks o :
  sha256_ok o ->
  fold_left sha256_update blocks o = sha256_update o (concat blocks).
Proof.
  revert o. induction blocks as [|b blocks IH]; intros o Hok; simpl.
  - now rewrite sha256_update_nil.
  - rewrite IH by apply sha256_update_ok. apply sha256_update_app.
Qed.

(** The hash object that absorbed a message gives the digest of FIPS 180-4. *)
Lemma sha256_digest_update msg :
  sha256_digest (sha256_update sha256_new msg) = SHA256 msg.
Proof.
  unfold sha256_digest, SHA256, sha256_update, hash_blocks; simpl.
  rewrite (iter_blocks_app compress H256_init msg).
  destruct (iter_blocks compress H256_init msg) as [H r]; reflexivity.
Qed.

Lemma concat_chunks k data : concat (chunks k data) = data.
Proof.
  funelim (chunks k data); [reflexivity|].
  simpl. rewrite H. now rewrite take_drop.
Qed.

Lemma chunks_nonempty k data : Forall (fun b => b <> []) (chunks k data).
Proof.
  funelim (chunks k data); constructor; [discriminate | assumption].
Qed.

Lemma chunks_length k data : Forall (fun b => length b <= S k)%nat (chunks k data).
Proof.
  funelim (chunks k data); constructor; [|assumption].
  rewrite length_take. lia.
Qed.

Lemma byte_to_Z_bound b : 0 <= byte_to_Z b < 256.
Proof.
  unfold byte_to_Z. pose proof (Byte.to_N_bounded b). lia.
Qed.

Lemma byte_to_of_Z z : 0 <= z < 256 -> byte_to_Z (byte_of_Z z) = z.
Proof.
  intros Hz. unfold byte_to_Z, byte_of_Z. rewrite Z.mod_small by lia.
  destruct (Byte.of_N (Z.to_N z)) as [b|] eqn:Hb.
  - apply Byte.to_of_N in Hb. lia.
  - apply Byte.of_N_None_iff in Hb. lia.
Qed.

Lemma hexdigit_lower d : 0 <= d < 16 -> is_lower_hex (hexdigit d) = true.
Proof.
  intros Hd. unfold hexdigit, is_lower_hex. destruct (Z.ltb_spec d 10).
  - apply orb_true_iff. left. apply andb_true_iff. split; lia.
  - apply orb_true_iff. right. apply andb_true_iff. split; lia.
Qed.

Lemma hex_length bs : length (hex bs) = (2 * length bs)%nat.
Proof. induction bs as [|b bs IH]; simpl; [reflexivity | rewrite IH; lia]. Qed.

Lemma hex_lower bs : forallb is_lower_hex (hex bs) = true.
Proof.
  induction bs as [|b bs IH]; simpl; [reflexivity|].
  pose proof (byte_to_Z_bound b).
  rewrite !hexdigit_lower, IH; [reflexivity | |].
  - apply Z.mod_pos_bound. lia.
  - split; [apply Z.div_pos; lia | apply Z.div_lt_upper_bound; lia].
Qed.

Lemma SHA256_length msg : length (SHA256 msg) = 32%nat.
Proof. reflexivity. Qed.

Lemma digest_of_length data : length (digest_of data) = 64%nat.
Proof. unfold digest_of. now rewrite hex_length, SHA256_length. Qed.

(** ** The hasher *)

Lemma read_ok E f n :
  read_error E (h_path f) (h_pos f) = None ->
  read E f n = Ret (take n (drop (h_pos f) (h_data f)),
                    Handle (h_path f) (h_data f) (h_pos f + length (take n (drop (h_pos f) (h_data f))))).
Proof. intros H. unfold read. now rewrite H. Qed.

Lemma read_fail E f n c :
  read_error E (h_path f) (h_pos f) = Some c ->
  read E f n = Raise (OSError c (h_path f)).
Proof. intros H. unfold read. now rewrite H. Qed.

Lemma read_blocks_step E f h :
  read_blocks E f h =
  match read E f 4096 with
  | Raise e => Raise e
  | Ret ([], _) => Ret h
  | Ret (byte_block, f') => read_blocks E f' (sha256_update h byte_block)
  end.
Proof.
  funelim (read_blocks E f h);
    match goal with Hr : read _ _ _ = _ |- _ => rewrite Hr end; reflexivity.
Qed.

(** Without a read fault the loop feeds the hash object the successive
    4096-byte blocks of what is left of the file. *)
Lemma read_blocks_ok E path data :
  (forall off, read_error E path off = None) ->
  forall n pos h, n = (length data - pos)%nat ->
  read_blocks E (Handle path data pos) h =
  Ret (fold_left sha256_update (chunks 4095 (drop pos data)) h).
Proof.
  intros Hno n. induction n as [n IH] using lt_wf_ind. intros pos h ->.
  rewrite read_blocks_step, read_ok by apply Hno. simpl.
  destruct (drop pos data) as [|b rest] eqn:Hdrop.
  - simp chunks. reflexivity.
  - assert (Hlen : (length (drop pos data) = S (length rest))%nat) by now rewrite Hdrop.
    rewrite length_drop in Hlen.
    change (take 4096 (b :: rest)) with (b :: take 4095 rest).
    cbn [length]. rewrite length_take.
    rewrite (IH (length data - (pos + S (4095 `min` length rest)))%nat); [|lia|reflexivity].
    simp chunks. cbn [fold_left]. do 3 f_equal.
    rewrite <- drop_drop, Hdrop.
    change (drop (4095 `min` length rest) rest = drop 4095 rest).
    destruct (Nat.le_ge_cases (length rest) 4095).
    + rewrite Nat.min_r by lia. now rewrite !drop_ge by lia.
    + now rewrite Nat.min_l by lia.
Qed.

(** A fault at an offset the loop reaches ends it with an [OSError]. *)
Lemma read_blocks_fault E path data :
  forall n pos h, n = (length data - pos)%nat -> (pos <= length data)%nat ->
  (exists off c, read_error E path off = Some c
     /\ (off = length data \/ exists k, off = (pos + 4096 * k)%nat /\ (off <= length data)%nat)) ->
  exists c, read_blocks E (Handle path data pos) h = Raise (OSError c path).
Proof.
  intros n. induction n as [n IH] using lt_wf_ind. intros pos h -> Hpos (off & c & Herr & Hoff).
  rewrite read_blocks_step.
  destruct (read_error E path pos) as [c'|] eqn:Hhere.
  - exists c'. now rewrite (read_fail E _ _ c').
  - rewrite read_ok by exact Hhere. simpl.
    destruct (drop pos data) as [|b rest] eqn:Hdrop.
    + exfalso.
      assert (Hlen : (length (drop pos data) = 0)%nat) by now rewrite Hdrop.
      rewrite length_drop in Hlen.
      assert (off = pos) as -> by (destruct Hoff as [->|(k & -> & Hk)]; lia).
      congruence.
    + assert (Hlen : (length (drop pos data) = S (length rest))%nat) by now rewrite Hdrop.
      rewrite length_drop in Hlen.
      change (take 4096 (b :: rest)) with (b :: take 4095 rest).
      cbn [length]. rewrite length_take.
      eapply (IH (length data - (pos + S (4095 `min` length rest)))%nat); [lia|reflexivity|lia|].
      exists off, c. split; [exact Herr|].
      destruct Hoff as [->|(k & -> & Hk)]; [now left|].
      destruct k as [|k]; [rewrite Nat.mul_0_r, Nat.add_0_r in Herr; congruence|].
      right. exists k. split; [|exact Hk].
      rewrite Nat.min_l by lia. lia.
Qed.

Lemma open_rb_ok E w path data :
  files w !! path = Some data -> open_error E RB path = None ->
  open_rb E path w = (Ret (Handle path data 0), log [EvOpen path RB] w).
Proof.
  intros Hf Ho. unfold open_rb. rewrite bind_eq, emit_eq, Ho. simpl. now rewrite Hf.
Qed.

(** What the hasher returns for a readable file. *)
Lemma get_sha256_ok E w path data :
  readable E w path data ->
  get_sha256 E path w = (Ret (digest_of data), log [EvOpen path RB] w).
Proof.
  intros (Hf & Ho & Hr). unfold get_sha256.
  rewrite (bind_ret_eq _ _ _ _ _ (open_rb_ok E w path data Hf Ho)).
  rewrite bind_eq. unfold lift.
  rewrite (read_blocks_ok E path data Hr _ 0%nat sha256_new eq_refl).
  rewrite drop_0, sha256_update_blocks by (unfold sha256_ok; simpl; lia).
  rewrite concat_chunks. unfold sha256_hexdigest. now rewrite sha256_digest_update.
Qed.

(** The hasher never changes the files, and logs the [open] only. *)
Lemma get_sha256_frame E w path :
  exists r, get_sha256 E path w = (r, log [EvOpen path RB] w).
Proof.
  unfold get_sha256, open_rb. rewrite !bind_eq, emit_eq.
  destruct (open_error E RB path); [eexists; reflexivity|].
  simpl. destruct (files w !! path); [|eexists; reflexivity].
  rewrite bind_eq. unfold lift. destruct (read_blocks _ _ _); eexists; reflexivity.
Qed.

(** ** The registry client *)

Lemma http_get_eq E url w :
  http_get E url w = (requests_get E url, log [EvGet url] w).
Proof. reflexivity. Qed.

Lemma fetch_version_eq E file_hash w :
  fetch_model_version_by_hash E file_hash w =
  match requests_get E (version_url file_hash) with
  | Raise e => (Raise e, log [EvGet (version_url file_hash)] w)
  | Ret response =>
      if status_code response =? 200
      then (json response, log [EvGet (version_url file_hash)] w)
      else
        match print_error E (version_error_line file_hash (status_code response)) with
        | Some e => (Raise e, log [EvGet (version_url file_hash)] w)
        | None =>
            (Ret VNone,
             log [EvGet (version_url file_hash);
                  EvPrint (version_error_line file_hash (status_code response))] w)
        end
  end.
Proof.
  unfold fetch_model_version_by_hash. fold (version_url file_hash).
  rewrite bind_eq, http_get_eq.
  destruct (requests_get E (version_url file_hash)) as [response|e]; [|reflexivity].
  destruct (status_code response =? 200); [reflexivity|].
  fold (version_error_line file_hash (status_code response)).
  rewrite bind_eq, print_run.
  destruct (print_error E _); [reflexivity|]. now rewrite log_log.
Qed.

Lemma fetch_details_eq E model_id w :
  fetch_model_details E model_id w =
  match requests_get E (model_url model_id) with
  | Raise e => (Raise e, log [EvGet (model_url model_id)] w)
  | Ret response =>
      if status_code response =? 200
      then (json response, log [EvGet (model_url model_id)] w)
      else
        match print_error E (model_error_line model_id (status_code response)) with
        | Some e => (Raise e, log [EvGet (model_url model_id)] w)
        | None =>
            (Ret VNone,
             log [EvGet (model_url model_id);
                  EvPrint (model_error_line model_id (status_code response))] w)
        end
  end.
Proof.
  unfold fetch_model_details. fold (model_url model_id).
  rewrite bind_eq, http_get_eq.
  destruct (requests_get E (model_url model_id)) as [response|e]; [|reflexivity].
  destruct (status_code response =? 200); [reflexivity|].
  fold (model_error_line model_id (status_code response)).
  rewrite bind_eq, print_run.
  destruct (print_error E _); [reflexivity|]. now rewrite log_log.
Qed.

(** Whatever the hash lookup returns, it touches no file and logs its one
    request, and after it at most the line that reports the status. *)
Lemma fetch_version_frame E file_hash w r w' :
  fetch_model_version_by_hash E file_hash w = (r, w') ->
  files w' = files w /\ dirs w' = dirs w
  /\ (trace w' = trace w ++ [EvGet (version_url file_hash)]
      \/ exists status,
           trace w' = trace w ++ [EvGet (version_url file_hash);
                                  EvPrint (version_error_line file_hash status)]).
Proof.
  rewrite fetch_version_eq.
  destruct (requests_get E (version_url file_hash)) as [response|e].
  - destruct (status_code response =? 200); [intros [= <- <-]; simpl; eauto|].
    destruct (print_error E _); intros [= <- <-]; simpl; eauto.
  - intros [= <- <-]; simpl; eauto.
Qed.

(** ** The two blocks of the orchestrator *)

Lemma get_metadata_for_lora_blocks E file_path output_dir w :
  endswith file_path EXTENSION = true ->
  get_metadata_for_lora E file_path output_dir w =
  match build_model_info E file_path w with
  | (Ret (Some model_info), w1) => persist E file_path output_dir model_info w1
  | (Ret None, w1) => (Ret tt, w1)
  | (Raise e, w1) => (Raise e, w1)
  end.
Proof.
  intros Hext. unfold get_metadata_for_lora, build_model_info. rewrite Hext.
  fold (processing_line file_path).
  rewrite !(bind_eq (print _ _)), !print_run.
  destruct (print_error E (processing_line file_path)); [reflexivity|].
  rewrite !(bind_eq (get_sha256 _ _)).
  destruct (get_sha256 E file_path _) as [[file_hash|e] w1]; [|reflexivity].
  fold (hash_line file_hash).
  rewrite !(bind_eq (print _ _)), !print_run.
  destruct (print_error E (hash_line file_hash)); [reflexivity|].
  rewrite !(bind_eq (fetch_model_version_by_hash _ _)).
  destruct (fetch_model_version_by_hash E file_hash _) as [[model_version|e] w2]; [|reflexivity].
  destruct (truthy model_version); [|reflexivity]. cbn [negb].
  rewrite !(bind_eq (lift _)). unfold lift.
  destruct (get model_version (py "modelId")) as [model_id|e]; [|reflexivity].
  rewrite bind_eq.
  destruct (truthy model_id); [|reflexivity].
  rewrite !(bind_eq (fetch_model_details _ _)).
  destruct (fetch_model_details E model_id w2) as [[model_details|e] w3]; [|reflexivity].
  destruct (truthy model_details); reflexivity.
Qed.

Lemma main_three E prog file_path output_dir :
  main E [prog; file_path; output_dir] = get_metadata_for_lora E file_path output_dir.
Proof. reflexivity. Qed.

(** Up to the hash lookup, for a readable file and a standard output that
    takes the two lines printed on the way. *)
Lemma build_model_info_lookup E file_path w data :
  readable E w file_path data ->
  prints E [processing_line file_path; hash_line (digest_of data)] ->
  build_model_info E file_path w =
  match fetch_model_version_by_hash E (digest_of data) (hashed file_path data w) with
  | (Raise e, w2) => (Raise e, w2)
  | (Ret model_version, w2) =>
      if negb (truthy model_version) then (Ret None, w2)
      else
        match get model_version (py "modelId") with
        | Raise e => (Raise e, w2)
        | Ret model_id =>
            let model_info := [(py "modelVersion", model_version)] in
            if truthy model_id then
              match fetch_model_details E model_id w2 with
              | (Raise e, w3) => (Raise e, w3)
              | (Ret model_details, w3) =>
                  if truthy model_details
                  then (Ret (Some (setitem model_info (py "model") model_details)), w3)
                  else (Ret (Some model_info), w3)
              end
            else (Ret (Some model_info), w2)
        end
  end.
Proof.
  intros Hread (Hp1 & (Hp2 & _)%prints_cons)%prints_cons. unfold build_model_info.
  rewrite bind_eq, (print_eq _ _ _ Hp1).
  assert (Hread' : readable E (log [EvPrint (processing_line file_path)] w) file_path data)
    by exact Hread.
  rewrite (bind_ret_eq _ _ _ _ _ (get_sha256_ok E _ file_path data Hread')).
  rewrite bind_eq, (print_eq _ _ _ Hp2), !log_log. cbn [app]. fold (hashed file_path data w).
  rewrite bind_eq.
  destruct (fetch_model_version_by_hash E _ _) as [[model_version|e] w2]; [|reflexivity].
  destruct (truthy model_version); [|reflexivity]. cbn [negb].
  rewrite bind_eq. unfold lift.
  destruct (get model_version (py "modelId")) as [model_id|e]; [|reflexivity].
  cbv zeta. destruct (truthy model_id); [|reflexivity].
  rewrite bind_eq.
  destruct (fetch_model_details E model_id w2) as [[model_details|e] w3]; [|reflexivity].
  destruct (truthy model_details); reflexivity.
Qed.

(** ** The persister *)

Lemma utf8_encode_app a b :
  utf8_encode (a ++ b) =
  match utf8_encode a with
  | Raise e => Raise e
  | Ret x => match utf8_encode b with
             | Ret y => Ret (x ++ y)
             | Raise e => Raise e
             end
  end.
Proof.
  induction a as [|c a IH]; simpl.
  - now destruct (utf8_encode b).
  - destruct (utf8_char c); [|reflexivity]. rewrite IH.
    destruct (utf8_encode a); [|reflexivity].
    destruct (utf8_encode b); [|reflexivity]. now rewrite app_assoc.
Qed.

Lemma write_exn_Exception path e : write_exn path e -> is_Exception e = true.
Proof. intros [[c ->]|[c ->]]; reflexivity. Qed.

Lemma write_frame E path chunk w r w' :
  write E path chunk w = (r, w') ->
  dirs w' = dirs w /\ trace w' = trace w
  /\ match r with Ret _ => True | Raise e => write_exn path e end.
Proof.
  unfold write. destruct (utf8_encode chunk) as [bs|e] eqn:Henc.
  - destruct (write_error E path) as [c|].
    + intros [= <- <-]. repeat split. left. now exists c.
    + intros [= <- <-]. now repeat split.
  - intros [= <- <-]. repeat split. right.
    clear -Henc. revert e Henc. induction chunk as [|c chunk IH]; simpl; [discriminate|].
    intros e. destruct (utf8_char c); [|intros [= <-]; now exists c].
    destruct (utf8_encode chunk); [discriminate|]. intros [= <-]. now apply IH.
Qed.

Lemma write_chunks_frame E path chunks w r w' :
  write_chunks E path chunks w = (r, w') ->
  dirs w' = dirs w /\ trace w' = trace w
  /\ match r with Ret _ => True | Raise e => write_exn path e end.
Proof.
  revert w. induction chunks as [|c chunks IH]; intros w; simpl.
  - intros [= <- <-]. now repeat split.
  - rewrite bind_eq. destruct (write E path c w) as [[[]|e] w1] eqn:Hw.
    + apply write_frame in Hw as (Hd & Ht & _). intros Hrest.
      apply IH in Hrest as (Hd' & Ht' & Hr). repeat split; congruence.
    + apply write_frame in Hw as (Hd & Ht & He). intros [= <- <-]. now repeat split.
Qed.

(** Without a write fault, chunks that encode end up appended to the file. *)
Lemma write_chunks_ok E path chunks w old bs :
  write_error E path = None ->
  files w !! path = Some old ->
  utf8_encode (concat chunks) = Ret bs ->
  write_chunks E path chunks w = (Ret tt, set_files (<[path := old ++ bs]> (files w)) w).
Proof.
  intros Hwe. revert w old bs. induction chunks as [|c chunks IH]; intros w old bs Hold; simpl.
  - intros [= <-]. rewrite app_nil_r, insert_id by assumption.
    unfold ret, set_files. now rewrite world_eta.
  - rewrite utf8_encode_app. destruct (utf8_encode c) as [x|] eqn:Hc; [|discriminate].
    destruct (utf8_encode (concat chunks)) as [y|] eqn:Hcs; [|discriminate].
    intros [= <-]. rewrite bind_eq. unfold write. rewrite Hc, Hwe, Hold. cbn [default].
    rewrite (IH _ (old ++ x) y); [|apply lookup_insert_eq|reflexivity].
    unfold set_files; simpl. now rewrite insert_insert_eq, app_assoc.
Qed.

Lemma open_w_eq E path w :
  open_w E path w =
  match open_error E W_utf8 path with
  | Some c => (Raise (OSError c path), log [EvOpen path W_utf8] w)
  | None =>
      if bool_decide (path ∈ dirs w)
      then (Raise (OSError EISDIR path), log [EvOpen path W_utf8] w)
      else (Ret tt, set_files (<[path := []]> (files w)) (log [EvOpen path W_utf8] w))
  end.
Proof.
  unfold open_w. rewrite bind_eq, emit_eq.
  destruct (open_error E W_utf8 path); [reflexivity|]. cbn [dirs log].
  destruct (bool_decide _); reflexivity.
Qed.

(** Where the [with] block can end. *)
Lemma write_file_frame E json_path data w r w' :
  write_file E json_path data w = (r, w') ->
  dirs w' = dirs w
  /\ match r with
     | Ret _ => trace w' = trace w ++ [EvOpen json_path W_utf8; EvDump json_path data]
     | Raise e =>
         write_exn json_path e
         /\ (trace w' = trace w ++ [EvOpen json_path W_utf8]
             \/ trace w' = trace w ++ [EvOpen json_path W_utf8; EvDump json_path data])
     end.
Proof.
  unfold write_file. rewrite bind_eq, open_w_eq.
  destruct (open_error E W_utf8 json_path) as [c|].
  { intros [= <- <-]. split; [reflexivity|]. split; [left; now exists c | now left]. }
  destruct (bool_decide _).
  { intros [= <- <-]. split; [reflexivity|]. split; [left; now exists EISDIR | now left]. }
  unfold json_dump. rewrite bind_eq, emit_eq.
  destruct (write_chunks E json_path _ _) as [[[]|e] w1] eqn:Hw;
    apply write_chunks_frame in Hw as (Hd & Ht & He); simpl in Hd, Ht.
  - intros [= <- <-]. split; [exact Hd|].
    rewrite Ht, <- !app_assoc. reflexivity.
  - intros [= <- <-]. split; [exact Hd|]. split; [exact He|]. right.
    rewrite Ht, <- !app_assoc. reflexivity.
Qed.

(** The body of the [try] is the [with] block and then the line that
    reports the file. *)
Lemma write_sidecar_eq E json_path data w :
  write_sidecar E json_path data w =
  match write_file E json_path data w with
  | (Ret _, w1) => print E (saved_line json_path) w1
  | (Raise e, w1) => (Raise e, w1)
  end.
Proof.
  unfold write_sidecar, write_file. rewrite !bind_eq.
  destruct (open_w E json_path w) as [[[]|e] w0]; [|reflexivity].
  rewrite !bind_eq. now destruct (json_dump E data json_path w0) as [[[]|e] w1].
Qed.

(** Where the body of the [try] can end: with the [with] block, or at the
    line that reports the file. *)
Lemma write_sidecar_frame E json_path data w r w' :
  write_sidecar E json_path data w = (r, w') ->
  dirs w' = dirs w
  /\ match r with
     | Ret _ => trace w' = trace w ++ [EvOpen json_path W_utf8; EvDump json_path data;
                                        EvPrint (saved_line json_path)]
     | Raise e =>
         (write_file E json_path data w = (Raise e, w')
          /\ write_exn json_path e
          /\ (trace w' = trace w ++ [EvOpen json_path W_utf8]
              \/ trace w' = trace w ++ [EvOpen json_path W_utf8; EvDump json_path data]))
         \/ (write_file E json_path data w = (Ret tt, w')
             /\ print_error E (saved_line json_path) = Some e
             /\ trace w' = trace w ++ [EvOpen json_path W_utf8; EvDump json_path data])
     end.
Proof.
  rewrite write_sidecar_eq.
  destruct (write_file E json_path data w) as [[[]|e] w1] eqn:Hw;
    pose proof (write_file_frame _ _ _ _ _ _ Hw) as (Hd & Ht).
  - rewrite print_run. destruct (print_error E (saved_line json_path)) as [e|];
      intros [= <- <-]; (split; [exact Hd|]).
    + right. now repeat split.
    + cbn [trace log]. rewrite Ht, <- !app_assoc. reflexivity.
  - intros [= <- <-]. split; [exact Hd|]. left. destruct Ht as [He Ht]. now repeat split.
Qed.

(** The run of [save_model_info] in terms of the body of its [try]: the
    handler prints its line for an exception that derives from [Exception],
    and what that [print] raises is raised by [save_model_info]. *)
Lemma save_model_info_eq E file_path data w :
  save_model_info E file_path data w =
  match write_sidecar E (fst (splitext file_path) ++ py ".json") data w with
  | (Ret a, w') => (Ret a, w')
  | (Raise e, w') =>
      if is_Exception e then print E (save_error_line file_path e) w' else (Raise e, w')
  end.
Proof.
  unfold save_model_info, try_except_Exception.
  fold (saved_line (fst (splitext file_path) ++ py ".json")).
  fold (write_sidecar E (fst (splitext file_path) ++ py ".json") data).
  now destruct (write_sidecar E _ data w) as [[a|e] w'].
Qed.

(** A sidecar that opens, encodes and writes without a fault holds the
    UTF-8 of the dump. *)
Lemma write_file_ok E json_path data w bs :
  open_error E W_utf8 json_path = None ->
  json_path ∉ dirs w ->
  write_error E json_path = None ->
  utf8_encode (dumps (float_repr E) data) = Ret bs ->
  write_file E json_path data w =
  (Ret tt, World (<[json_path := bs]> (files w)) (dirs w)
                 (trace w ++ [EvOpen json_path W_utf8; EvDump json_path data])).
Proof.
  intros Ho Hd Hw Henc. unfold write_file.
  rewrite bind_eq, open_w_eq, Ho, bool_decide_eq_false_2 by exact Hd.
  unfold json_dump. rewrite bind_eq, emit_eq.
  rewrite (write_chunks_ok E json_path _ _ [] bs Hw); [| apply lookup_insert_eq | exact Henc].
  unfold log, set_files; simpl.
  now rewrite insert_insert_eq, <- !app_assoc.
Qed.

Lemma write_sidecar_ok E json_path data w bs :
  open_error E W_utf8 json_path = None ->
  json_path ∉ dirs w ->
  write_error E json_path = None ->
  utf8_encode (dumps (float_repr E) data) = Ret bs ->
  print_error E (saved_line json_path) = None ->
  write_sidecar E json_path data w =
  (Ret tt, World (<[json_path := bs]> (files w)) (dirs w)
                 (trace w ++ [EvOpen json_path W_utf8; EvDump json_path data;
                              EvPrint (saved_line json_path)])).
Proof.
  intros Ho Hd Hw Henc Hp.
  rewrite write_sidecar_eq, (write_file_ok _ _ _ _ _ Ho Hd Hw Henc), (print_eq _ _ _ Hp).
  unfold log; simpl. now rewrite <- !app_assoc.
Qed.

(** The directory step of [persist]. *)
Lemma persist_eq E file_path output_dir model_info w :
  persist E file_path output_dir model_info w =
  if bool_decide (output_dir ∈ dirs w) || bool_decide (is_Some (files w !! output_dir))
  then save_model_info E (join output_dir (basename file_path)) (VDict model_info) w
  else
    match makedirs_error E output_dir with
    | Some c => (Raise (OSError c output_dir), log [EvMakedirs output_dir] w)
    | None =>
        save_model_info E (join output_dir (basename file_path)) (VDict model_info)
          (set_dirs (dirs w ∪ list_to_set (with_parents output_dir))
             (log [EvMakedirs output_dir] w))
    end.
Proof.
  unfold persist. rewrite bind_eq. unfold path_exists.
  destruct (bool_decide (output_dir ∈ dirs w) || bool_decide (is_Some (files w !! output_dir))) eqn:Hex;
    cbn [negb]; rewrite bind_eq.
  - reflexivity.
  - unfold makedirs. rewrite bind_eq, emit_eq.
    destruct (makedirs_error E output_dir); [reflexivity|].
    cbn [dirs files log]. rewrite Hex. reflexivity.
Qed.

(** ** The orchestrator: early exits *)

(** C4: a path that does not end in [.safetensors] leaves the world as it
    was: nothing is opened or hashed, no request is made, no file or
    directory is created, nothing is printed, and no exception is raised. *)
Theorem wrong_extension_does_nothing E file_path output_dir w :
  endswith file_path EXTENSION = false ->
  get_metadata_for_lora E file_path output_dir w = (Ret tt, w)
  /\ forall prog, main E [prog; file_path; output_dir] w = (Ret tt, w).
Proof.
  intros Hext. unfold main. cbn [length Nat.eqb negb nth].
  unfold get_metadata_for_lora. rewrite Hext. split; [reflexivity | intros _; reflexivity].
Qed.

Lemma wrong_extension_witness :
  endswith (py "notes.safetensors.txt") EXTENSION = false
  /\ get_metadata_for_lora ex_env_ok (py "notes.safetensors.txt") (py "out") ex_world
     = (Ret tt, ex_world).
Proof.
  split; [reflexivity|].
  apply (wrong_extension_does_nothing ex_env_ok (py "notes.safetensors.txt") (py "out") ex_world).
  reflexivity.
Defined.

(** C3: take a run that gets to the hash lookup: the file is read and the
    two lines before the lookup are printed. When the hash lookup returns
    [None], the run ends there without an
    exception: no file and no directory has changed, and after the hash line
    the trace holds the one request by hash and at most the line reporting
    its status; no request by id, no [makedirs], no [open] for writing. *)
Theorem absent_version_stops_the_run E file_path output_dir w data w2 :
  endswith file_path EXTENSION = true ->
  readable E w file_path data ->
  prints E [processing_line file_path; hash_line (digest_of data)] ->
  fetch_model_version_by_hash E (digest_of data) (hashed file_path data w) = (Ret VNone, w2) ->
  get_metadata_for_lora E file_path output_dir w = (Ret tt, w2)
  /\ files w2 = files w /\ dirs w2 = dirs w
  /\ (trace w2 = trace (hashed file_path data w) ++ [EvGet (version_url (digest_of data))]
      \/ exists status,
           trace w2 = trace (hashed file_path data w)
                      ++ [EvGet (version_url (digest_of data));
                          EvPrint (version_error_line (digest_of data) status)]).
Proof.
  intros Hext Hread Hout Hfetch.
  rewrite (get_metadata_for_lora_blocks _ _ _ _ Hext).
  rewrite (build_model_info_lookup _ _ _ _ Hread Hout), Hfetch. cbn [truthy negb].
  split; [reflexivity|].
  apply fetch_version_frame in Hfetch as (Hf & Hd & Ht). auto.
Qed.

Lemma ex_world_readable version model ofault mfault :
  ofault RB (py "a.safetensors") = None ->
  readable (ex_env version model ofault mfault) ex_world (py "a.safetensors") (ex_bytes "abc").
Proof. intros Ho. split; [reflexivity|]. split; [exact Ho | reflexivity]. Qed.

Lemma ex_env_prints version model ofault mfault lines :
  prints (ex_env version model ofault mfault) lines.
Proof. now apply Forall_forall. Qed.

Lemma absent_version_witness :
  get_metadata_for_lora (ex_env not_found not_found (fun _ _ => None) no_fault)
    (py "a.safetensors") (py "out") ex_world
  = (Ret tt,
     log [EvGet (version_url ex_digest); EvPrint (version_error_line ex_digest 404)]
       (hashed (py "a.safetensors") (ex_bytes "abc") ex_world)).
Proof.
  refine (proj1 (absent_version_stops_the_run _ (py "a.safetensors") (py "out") ex_world
                   (ex_bytes "abc") _ eq_refl (ex_world_readable _ _ _ _ eq_refl)
                   (ex_env_prints _ _ _ _ _) _)).
  vm_compute. reflexivity.
Defined.

(** C9: in a run that gets to the hash lookup, a lookup answered with
    status 200 and a body that is falsy
    ([{}], [null], [[]], [0], the empty string, [false]) ends the run like a miss: no
    request by id, no sidecar, no exception. *)
Theorem falsy_version_body_is_a_miss E file_path output_dir w data response body :
  endswith file_path EXTENSION = true ->
  readable E w file_path data ->
  prints E [processing_line file_path; hash_line (digest_of data)] ->
  requests_get E (version_url (digest_of data)) = Ret response ->
  status_code response = 200 ->
  json response = Ret body ->
  truthy body = false ->
  get_metadata_for_lora E file_path output_dir w =
  (Ret tt, log [EvGet (version_url (digest_of data))] (hashed file_path data w)).
Proof.
  intros Hext Hread Hout Hget Hst Hjs Hfalsy.
  rewrite (get_metadata_for_lora_blocks _ _ _ _ Hext).
  rewrite (build_model_info_lookup _ _ _ _ Hread Hout).
  rewrite fetch_version_eq, Hget, Hst, Hjs. cbn [Z.eqb Pos.eqb]. now rewrite Hfalsy.
Qed.

Lemma falsy_version_body_witness :
  get_metadata_for_lora (ex_env (ok_200 (VDict [])) (ok_200 ex_model) (fun _ _ => None) no_fault)
    (py "a.safetensors") (py "out") ex_world
  = (Ret tt, log [EvGet (version_url (digest_of (ex_bytes "abc")))]
               (hashed (py "a.safetensors") (ex_bytes "abc") ex_world)).
Proof.
  apply (falsy_version_body_is_a_miss _ (py "a.safetensors") (py "out") ex_world (ex_bytes "abc")
           (Response 200 (Ret (VDict []))) (VDict []));
    [reflexivity | now apply ex_world_readable | apply ex_env_prints | reflexivity..].
Defined.

(** ** What the persist step adds to the trace *)

Lemma requests_of_app t1 t2 : requests_of (t1 ++ t2) = requests_of t1 ++ requests_of t2.
Proof. apply omap_app. Qed.

Lemma dumps_of_app t1 t2 : dumps_of (t1 ++ t2) = dumps_of t1 ++ dumps_of t2.
Proof. apply omap_app. Qed.

Lemma save_model_info_trace E file_path data w r w' :
  save_model_info E file_path data w = (r, w') ->
  requests_of (trace w') = requests_of (trace w)
  /\ (dumps_of (trace w') = dumps_of (trace w)
      \/ dumps_of (trace w') = dumps_of (trace w) ++ [(fst (splitext file_path) ++ py ".json", data)]).
Proof.
  rewrite save_model_info_eq.
  destruct (write_sidecar E _ data w) as [[[]|e] w1] eqn:Hw;
    apply write_sidecar_frame in Hw as (_ & Hw).
  - intros [= <- <-]. rewrite Hw, requests_of_app, dumps_of_app. cbn. rewrite app_nil_r. auto.
  - assert (Ht : (requests_of (trace w1) = requests_of (trace w))
                 /\ (dumps_of (trace w1) = dumps_of (trace w)
                     \/ dumps_of (trace w1)
                        = dumps_of (trace w) ++ [(fst (splitext file_path) ++ py ".json", data)])).
    { destruct Hw as [(_ & _ & [Ht|Ht])|(_ & _ & Ht)];
        rewrite Ht, !requests_of_app, !dumps_of_app; cbn; rewrite ?app_nil_r; auto. }
    clear Hw. rewrite print_run.
    destruct (is_Exception e); [destruct (print_error E (save_error_line file_path e))|];
      intros [= <- <-];
      cbn [trace log]; rewrite ?requests_of_app, ?dumps_of_app; cbn; rewrite ?app_nil_r;
      exact Ht.
Qed.

Lemma persist_trace E file_path output_dir model_info w r w' :
  persist E file_path output_dir model_info w = (r, w') ->
  requests_of (trace w') = requests_of (trace w)
  /\ (dumps_of (trace w') = dumps_of (trace w)
      \/ dumps_of (trace w') = dumps_of (trace w)
                               ++ [(sidecar_path file_path output_dir, VDict model_info)]).
Proof.
  rewrite persist_eq. unfold sidecar_path.
  destruct (_ || _).
  - intros H. now apply save_model_info_trace in H.
  - destruct (makedirs_error E output_dir) as [c|].
    + intros [= <- <-]. cbn [trace log]. rewrite requests_of_app, dumps_of_app. cbn.
      rewrite !app_nil_r. auto.
    + intros H. apply save_model_info_trace in H as (H1 & H2).
      cbn [trace log set_dirs] in H1, H2.
      rewrite requests_of_app in H1. rewrite dumps_of_app in H2. cbn in H1, H2.
      rewrite app_nil_r in H1, H2. auto.
Qed.

Lemma hashed_requests file_path data w u :
  requests_of (trace (log [EvGet u] (hashed file_path data w))) = requests_of (trace w) ++ [u].
Proof. cbn [trace log hashed]. now rewrite !requests_of_app, app_nil_r. Qed.

Lemma hashed_dumps file_path data w evs :
  dumps_of (trace (log evs (hashed file_path data w))) = dumps_of (trace w) ++ dumps_of evs.
Proof. cbn [trace log hashed]. now rewrite !dumps_of_app, app_nil_r. Qed.

(** ** The registry client, as the claims word it *)

(** C6: each lookup returns what [response.json()] gives when the status is
    200; for any other status it returns [None] without raising, after
    printing a line that carries the status code, the standard output
    taking that line. *)
Theorem lookups_return_body_or_None E w response :
  (forall file_hash,
     requests_get E (version_url file_hash) = Ret response ->
     (status_code response = 200 ->
      fetch_model_version_by_hash E file_hash w
      = (json response, log [EvGet (version_url file_hash)] w))
     /\ (status_code response <> 200 ->
         prints E [version_error_line file_hash (status_code response)] ->
         fetch_model_version_by_hash E file_hash w
         = (Ret VNone,
            log [EvGet (version_url file_hash);
                 EvPrint (version_error_line file_hash (status_code response))] w)))
  /\ (forall model_id,
        requests_get E (model_url model_id) = Ret response ->
        (status_code response = 200 ->
         fetch_model_details E model_id w
         = (json response, log [EvGet (model_url model_id)] w))
        /\ (status_code response <> 200 ->
            prints E [model_error_line model_id (status_code response)] ->
            fetch_model_details E model_id w
            = (Ret VNone,
               log [EvGet (model_url model_id);
                    EvPrint (model_error_line model_id (status_code response))] w))).
Proof.
  split.
  - intros file_hash Hget. rewrite fetch_version_eq, Hget. split.
    + intros Hst. now rewrite Hst.
    + intros Hst%Z.eqb_neq [Hout _]%prints_cons. now rewrite Hst, Hout.
  - intros model_id Hget. rewrite fetch_details_eq, Hget. split.
    + intros Hst. now rewrite Hst.
    + intros Hst%Z.eqb_neq [Hout _]%prints_cons. now rewrite Hst, Hout.
Qed.

Lemma lookups_witness :
  fetch_model_version_by_hash ex_env_ok ex_digest ex_world
  = (Ret ex_version, log [EvGet (version_url ex_digest)] ex_world)
  /\ fetch_model_details (ex_env (ok_200 ex_version) not_found (fun _ _ => None) no_fault)
       (VInt 42) ex_world
     = (Ret VNone,
        log [EvGet (model_url (VInt 42)); EvPrint (model_error_line (VInt 42) 404)] ex_world).
Proof.
  split.
  - apply (proj1 (lookups_return_body_or_None ex_env_ok ex_world (Response 200 (Ret ex_version))));
      reflexivity.
  - refine (proj2 (proj2 (lookups_return_body_or_None
                            (ex_env (ok_200 ex_version) not_found (fun _ _ => None) no_fault)
                            ex_world (Response 404 (Raise JSONDecodeError))) (VInt 42) eq_refl)
              _ (ex_env_prints _ _ _ _ _)).
    discriminate.
Defined.

(** ** The orchestrator: the bundle *)

(** C2, as the code has it: in a run that gets to the hash lookup, with a
    record from that lookup, the bundle
    that goes to the persist step has the keys [modelVersion] and [model]
    when the id lookup is answered with status 200 and a truthy body, and
    the key [modelVersion] alone when the id lookup is answered with
    another status (and the line that reports it is printed), when it is
    answered with status 200 and a falsy body, or when the record has no
    [modelId]. *)
Theorem bundle_keys_follow_the_lookups E file_path output_dir w data response d :
  endswith file_path EXTENSION = true ->
  readable E w file_path data ->
  prints E [processing_line file_path; hash_line (digest_of data)] ->
  requests_get E (version_url (digest_of data)) = Ret response ->
  status_code response = 200 ->
  json response = Ret (VDict d) ->
  d <> [] ->
  let w1 := log [EvGet (version_url (digest_of data))] (hashed file_path data w) in
  (forall model_id response2 model,
     assoc (py "modelId") d = Some model_id -> truthy model_id = true ->
     requests_get E (model_url model_id) = Ret response2 ->
     status_code response2 = 200 -> json response2 = Ret model -> truthy model = true ->
     let bundle := [(py "modelVersion", VDict d); (py "model", model)] in
     keys bundle = [py "modelVersion"; py "model"]
     /\ get_metadata_for_lora E file_path output_dir w
        = persist E file_path output_dir bundle (log [EvGet (model_url model_id)] w1))
  /\ (forall model_id response2,
        assoc (py "modelId") d = Some model_id -> truthy model_id = true ->
        requests_get E (model_url model_id) = Ret response2 ->
        status_code response2 <> 200 ->
        prints E [model_error_line model_id (status_code response2)] ->
        let bundle := [(py "modelVersion", VDict d)] in
        keys bundle = [py "modelVersion"]
        /\ get_metadata_for_lora E file_path output_dir w
           = persist E file_path output_dir bundle
               (log [EvGet (model_url model_id);
                     EvPrint (model_error_line model_id (status_code response2))] w1))
  /\ (forall model_id response2 model,
        assoc (py "modelId") d = Some model_id -> truthy model_id = true ->
        requests_get E (model_url model_id) = Ret response2 ->
        status_code response2 = 200 -> json response2 = Ret model -> truthy model = false ->
        let bundle := [(py "modelVersion", VDict d)] in
        keys bundle = [py "modelVersion"]
        /\ get_metadata_for_lora E file_path output_dir w
           = persist E file_path output_dir bundle (log [EvGet (model_url model_id)] w1))
  /\ (assoc (py "modelId") d = None ->
      let bundle := [(py "modelVersion", VDict d)] in
      keys bundle = [py "modelVersion"]
      /\ get_metadata_for_lora E file_path output_dir w
         = persist E file_path output_dir bundle w1).
Proof.
  intros Hext Hread Hout Hget Hst Hjs Hd w1.
  assert (Htruthy : truthy (VDict d) = true) by (destruct d; [congruence | reflexivity]).
  assert (Hrun : get_metadata_for_lora E file_path output_dir w =
                 match
                   match get (VDict d) (py "modelId") with
                   | Raise e => (Raise e, w1)
                   | Ret model_id =>
                       if truthy model_id then
                         match fetch_model_details E model_id w1 with
                         | (Raise e, w3) => (Raise e, w3)
                         | (Ret model_details, w3) =>
                             if truthy model_details
                             then (Ret (Some (setitem [(py "modelVersion", VDict d)]
                                                (py "model") model_details)), w3)
                             else (Ret (Some [(py "modelVersion", VDict d)]), w3)
                         end
                       else (Ret (Some [(py "modelVersion", VDict d)]), w1)
                   end
                 with
                 | (Ret (Some model_info), w2) => persist E file_path output_dir model_info w2
                 | (Ret None, w2) => (Ret tt, w2)
                 | (Raise e, w2) => (Raise e, w2)
                 end).
  { rewrite (get_metadata_for_lora_blocks _ _ _ _ Hext).
    rewrite (build_model_info_lookup _ _ _ _ Hread Hout).
    rewrite fetch_version_eq, Hget, Hst, Hjs. cbn [Z.eqb Pos.eqb].
    rewrite Htruthy. reflexivity. }
  split; [|split; [|split]].
  - intros model_id response2 model Hid Hidt Hget2 Hst2 Hjs2 Hmt bundle.
    split; [reflexivity|]. rewrite Hrun. cbn [get]. rewrite Hid.
    change (default VNone (Some model_id)) with model_id. rewrite Hidt.
    rewrite fetch_details_eq, Hget2, Hst2, Hjs2. cbn [Z.eqb Pos.eqb]. now rewrite Hmt.
  - intros model_id response2 Hid Hidt Hget2 Hst2 [Hout2 _]%prints_cons bundle.
    split; [reflexivity|]. rewrite Hrun. cbn [get]. rewrite Hid.
    change (default VNone (Some model_id)) with model_id. rewrite Hidt.
    rewrite fetch_details_eq, Hget2. apply Z.eqb_neq in Hst2. rewrite Hst2, Hout2.
    unfold w1. now rewrite log_log.
  - intros model_id response2 model Hid Hidt Hget2 Hst2 Hjs2 Hmf bundle.
    split; [reflexivity|]. rewrite Hrun. cbn [get]. rewrite Hid.
    change (default VNone (Some model_id)) with model_id. rewrite Hidt.
    rewrite fetch_details_eq, Hget2, Hst2, Hjs2. cbn [Z.eqb Pos.eqb]. now rewrite Hmf.
  - intros Hid bundle. split; [reflexivity|]. rewrite Hrun. cbn [get]. now rewrite Hid.
Qed.

Lemma bundle_keys_witness :
  get_metadata_for_lora ex_env_ok (py "a.safetensors") (py "out") ex_world
  = persist ex_env_ok (py "a.safetensors") (py "out")
      [(py "modelVersion", ex_version); (py "model", ex_model)]
      (log [EvGet (model_url (VInt 42))] ex_looked_up)
  /\ get_metadata_for_lora ex_env_no_model (py "a.safetensors") (py "out") ex_world
     = persist ex_env_no_model (py "a.safetensors") (py "out")
         [(py "modelVersion", ex_version)]
         (log [EvGet (model_url (VInt 42)); EvPrint (model_error_line (VInt 42) 404)]
            ex_looked_up).
Proof.
  split.
  - refine (proj2 (proj1 (bundle_keys_follow_the_lookups ex_env_ok (py "a.safetensors") (py "out")
                     ex_world (ex_bytes "abc") (Response 200 (Ret ex_version)) _
                     eq_refl (ex_world_readable _ _ _ _ eq_refl) (ex_env_prints _ _ _ _ _)
                     eq_refl eq_refl eq_refl _)
                   (VInt 42) (Response 200 (Ret ex_model)) ex_model
                   eq_refl eq_refl eq_refl eq_refl eq_refl eq_refl)).
    discriminate.
  - refine (proj2 (proj1 (proj2 (bundle_keys_follow_the_lookups ex_env_no_model (py "a.safetensors")
                     (py "out") ex_world (ex_bytes "abc") (Response 200 (Ret ex_version)) _
                     eq_refl (ex_world_readable _ _ _ _ eq_refl) (ex_env_prints _ _ _ _ _)
                     eq_refl eq_refl eq_refl _))
                   (VInt 42) (Response 404 (Raise JSONDecodeError)) eq_refl eq_refl eq_refl _
                   (ex_env_prints _ _ _ _ _))).
    + discriminate.
    + discriminate.
Defined.

(** C2 as it is worded fails: both lookups are answered with status 200,
    the second with an empty object, and the bundle that is dumped has the
    key [modelVersion] only. *)
Lemma empty_model_body_is_left_out :
  fetch_model_version_by_hash ex_env_empty_model (digest_of (ex_bytes "abc"))
    (hashed (py "a.safetensors") (ex_bytes "abc") ex_world)
  = (Ret ex_version, ex_looked_up)
  /\ requests_get ex_env_empty_model (model_url (VInt 42)) = Ret (Response 200 (Ret (VDict [])))
  /\ fst (get_metadata_for_lora ex_env_empty_model (py "a.safetensors") (py "out") ex_world)
     = Ret tt
  /\ dumps_of (trace (snd (get_metadata_for_lora ex_env_empty_model
                             (py "a.safetensors") (py "out") ex_world)))
     = [(py "out/a.json", VDict [(py "modelVersion", ex_version)])].
Proof. vm_compute. repeat split; reflexivity. Qed.

(** ** The directory step *)

Lemma persist_ready E file_path output_dir model_info w :
  output_dir_ready E w output_dir ->
  persist E file_path output_dir model_info w
  = save_model_info E (join output_dir (basename file_path)) (VDict model_info)
      (after_dir_step output_dir w).
Proof.
  intros Hready. rewrite persist_eq. unfold after_dir_step.
  destruct (bool_decide (output_dir ∈ dirs w) || bool_decide (is_Some (files w !! output_dir))) eqn:Hex;
    [reflexivity|].
  apply orb_false_iff in Hex as [Hd Hf].
  apply bool_decide_eq_false in Hd. apply bool_decide_eq_false in Hf.
  destruct Hready as [?|[?|Hmk]]; [contradiction..|]. now rewrite Hmk.
Qed.

(** ** The hasher, as the claim words it *)

Lemma open_rb_fail E w path :
  (exists c, open_error E RB path = Some c) \/ files w !! path = None ->
  exists c, open_rb E path w = (Raise (OSError c path), log [EvOpen path RB] w).
Proof.
  unfold open_rb. rewrite bind_eq, emit_eq. intros [[c Hc]|Hnone].
  - rewrite Hc. now exists c.
  - destruct (open_error E RB path) as [c|]; [now exists c|].
    cbn [files log]. rewrite Hnone. eauto.
Qed.

(** Test vectors of FIPS 180-4. *)
Example SHA256_abc : hex (SHA256 (ex_bytes "abc")) = ex_digest.
Proof. vm_compute. reflexivity. Qed.

Example SHA256_empty :
  hex (SHA256 []) = py "e3b0c44298fc1c149afbf4c8996fb92427ae41e4649b934ca495991b7852b855".
Proof. vm_compute. reflexivity. Qed.

Example SHA256_two_blocks :
  hex (SHA256 (ex_bytes "abcdbcdecdefdefgefghfghighijhijkijkljklmklmnlmnomnopnopq"))
  = py "248d6a61d20638b8e5c026930c3e6039a33ce45964ff2167f6ecedd419db06c1".
Proof. vm_compute. reflexivity. Qed.

(** C5: for a readable file the hasher returns the SHA-256 of all the bytes
    of the file, in 64 lowercase hexadecimal digits; that digest is what the
    hash object holds after the blocks of at most 4096 bytes were fed to it
    one by one. When the file cannot be opened, or a read fails at an offset
    the loop reaches, an [OSError] comes out, and no digest. *)
Theorem hasher_digest_or_OSError E w path :
  (forall data,
     readable E w path data ->
     get_sha256 E path w = (Ret (digest_of data), log [EvOpen path RB] w)
     /\ digest_of data
        = sha256_hexdigest (fold_left sha256_update (chunks 4095 data) sha256_new)
     /\ concat (chunks 4095 data) = data
     /\ Forall (fun block => 0 < length block <= 4096)%nat (chunks 4095 data)
     /\ length (digest_of data) = 64%nat
     /\ forallb is_lower_hex (digest_of data) = true)
  /\ ((exists c, open_error E RB path = Some c) \/ files w !! path = None ->
      exists c, get_sha256 E path w = (Raise (OSError c path), log [EvOpen path RB] w))
  /\ (forall data off c,
        files w !! path = Some data ->
        open_error E RB path = None ->
        read_offset (length data) off ->
        read_error E path off = Some c ->
        exists c', get_sha256 E path w = (Raise (OSError c' path), log [EvOpen path RB] w)).
Proof.
  split; [|split].
  - intros data Hread. split; [now apply get_sha256_ok|].
    split; [|split; [apply concat_chunks|split; [|split; [apply digest_of_length | apply hex_lower]]]].
    + unfold digest_of, sha256_hexdigest.
      rewrite sha256_update_blocks by (unfold sha256_ok; simpl; lia).
      now rewrite concat_chunks, sha256_digest_update.
    + pose proof (chunks_nonempty 4095 data) as Hne.
      pose proof (chunks_length 4095 data) as Hle.
      rewrite Forall_forall in *. intros block Hin.
      specialize (Hne block Hin). specialize (Hle block Hin).
      destruct block; [congruence | simpl in *; lia].
  - intros Hfail. destruct (open_rb_fail E w path Hfail) as [c Hc].
    exists c. unfold get_sha256. now rewrite (bind_raise_eq _ _ _ _ _ Hc).
  - intros data off c Hf Ho [Hle Hoff] Herr. unfold get_sha256.
    rewrite (bind_ret_eq _ _ _ _ _ (open_rb_ok E w path data Hf Ho)).
    destruct (read_blocks_fault E path data _ 0%nat sha256_new eq_refl (Nat.le_0_l _)) as [c' Hc'].
    { exists off, c. split; [exact Herr|]. destruct Hoff as [->|[k ->]]; [now left|].
      right. exists k. split; [reflexivity | exact Hle]. }
    exists c'. rewrite bind_eq. unfold lift. now rewrite Hc'.
Qed.

Lemma hasher_witness :
  get_sha256 ex_env_ok (py "a.safetensors") ex_world
  = (Ret ex_digest, log [EvOpen (py "a.safetensors") RB] ex_world)
  /\ exists c, get_sha256 ex_env_ok (py "b.safetensors") ex_world
               = (Raise (OSError c (py "b.safetensors")),
                  log [EvOpen (py "b.safetensors") RB] ex_world).
Proof.
  split.
  - refine (eq_trans (proj1 (proj1 (hasher_digest_or_OSError ex_env_ok ex_world (py "a.safetensors"))
                               (ex_bytes "abc") (ex_world_readable _ _ _ _ eq_refl))) _).
    vm_compute. reflexivity.
  - apply (proj1 (proj2 (hasher_digest_or_OSError ex_env_ok ex_world (py "b.safetensors")))).
    right. reflexivity.
Defined.

(** ** Paths *)

Lemma rfind_from_app c a b i last :
  rfind_from c (a ++ b) i last = rfind_from c b (i + Z.of_nat (length a)) (rfind_from c a i last).
Proof.
  revert i last. induction a as [|x a IH]; intros i last; simpl.
  - now rewrite Z.add_0_r.
  - rewrite IH. f_equal. lia.
Qed.

Lemma rfind_from_rfind c s i last :
  -1 <= rfind s c < Z.of_nat (length s)
  /\ rfind_from c s i last = if rfind s c <? 0 then last else i + rfind s c.
Proof.
  unfold rfind. revert i last. induction s as [|x s IH]; intros i last.
  - simpl. split; [lia | reflexivity].
  - cbn [rfind_from length].
    destruct (IH (0 + 1) (if x =? c then 0 else -1)) as [Hb ->].
    destruct (IH (i + 1) (if x =? c then i else last)) as [_ ->].
    destruct (rfind_from c s 0 (-1) <? 0) eqn:Hr.
    + destruct (x =? c); simpl; (split; [lia|]); [now rewrite Z.add_0_r | reflexivity].
    + apply Z.ltb_ge in Hr.
      destruct (0 + 1 + rfind_from c s 0 (-1) <? 0) eqn:Hr'; [apply Z.ltb_lt in Hr'; lia|].
      split; lia.
Qed.

Lemma rfind_bounds s c : -1 <= rfind s c < Z.of_nat (length s).
Proof. apply (rfind_from_rfind c s 0 0). Qed.

Lemma rfind_app a b c :
  rfind (a ++ b) c = if rfind b c <? 0 then rfind a c else Z.of_nat (length a) + rfind b c.
Proof.
  unfold rfind at 1. rewrite rfind_from_app.
  destruct (rfind_from_rfind c b (0 + Z.of_nat (length a)) (rfind_from c a 0 (-1))) as [_ ->].
  reflexivity.
Qed.

Lemma rfind_absent s c : c ∉ s -> rfind s c = -1.
Proof.
  unfold rfind. generalize 0 (-1). induction s as [|x s IH]; intros i last Hc; simpl.
  - reflexivity.
  - apply not_elem_of_cons in Hc as [Hx Hs].
    destruct (Z.eqb_spec x c); [congruence|]. now apply IH.
Qed.

Lemma rfind_snoc s c : rfind (s ++ [c]) c = Z.of_nat (length s).
Proof.
  rewrite rfind_app. unfold rfind at 1 3. simpl. rewrite Z.eqb_refl. simpl. lia.
Qed.

Lemma rfind_neg_absent s c : rfind s c < 0 -> c ∉ s.
Proof.
  intros Hr Hin. apply list_elem_of_split in Hin as (a & b & ->).
  rewrite rfind_app in Hr. change (c :: b) with ([c] ++ b) in Hr. rewrite rfind_app in Hr.
  pose proof (rfind_bounds b c). pose proof (rfind_bounds a c).
  assert (rfind [c] c = 0) by (unfold rfind; simpl; now rewrite Z.eqb_refl).
  destruct (rfind b c <? 0) eqn:Hb; [apply Z.ltb_lt in Hb | apply Z.ltb_ge in Hb].
  - rewrite H1 in Hr. simpl in Hr. lia.
  - destruct (_ <? 0) eqn:Hb' in Hr; [apply Z.ltb_lt in Hb' | apply Z.ltb_ge in Hb']; simpl in *; lia.
Qed.

(** No separator is left in a base name. *)
Lemma basename_no_sep p : sep ∉ basename p.
Proof.
  apply rfind_neg_absent. unfold basename, from.
  pose proof (rfind_bounds p sep) as Hb.
  set (k := Z.to_nat (rfind p sep + 1)).
  assert (Hk : (k <= length p)%nat) by lia.
  pose proof (rfind_app (take k p) (drop k p) sep) as Happ.
  rewrite take_drop in Happ.
  pose proof (rfind_bounds (drop k p) sep) as Hd.
  destruct (rfind (drop k p) sep <? 0) eqn:Hr; [now apply Z.ltb_lt in Hr|].
  apply Z.ltb_ge in Hr. rewrite length_take in Happ. lia.
Qed.

(** [join] puts in front of a name without separator either nothing or
    something that ends with a separator. *)
Lemma join_prefix a b :
  startswith b [sep] = false ->
  exists pre, join a b = pre ++ b /\ (pre = [] \/ exists pre', pre = pre' ++ [sep]).
Proof.
  intros Hb. unfold join. rewrite Hb.
  destruct (bool_decide (a = [])) eqn:Ha.
  - apply bool_decide_eq_true in Ha as ->. exists []. auto.
  - simpl. destruct (endswith a [sep]) eqn:He.
    + apply bool_decide_eq_true in He as [pre' ->]. exists (pre' ++ [sep]). eauto.
    + exists (a ++ [sep]). rewrite <- app_assoc. eauto.
Qed.

Lemma startswith_sep_absent b : sep ∉ b -> startswith b [sep] = false.
Proof.
  intros Hb. apply bool_decide_eq_false. intros [rest ->]. apply Hb. simpl. left.
Qed.

Lemma splitext_no_ext p :
  p = [] \/ (exists p', p = p' ++ [sep]) -> rfind p extsep <= rfind p sep.
Proof.
  intros [->|[p' ->]]; [reflexivity|].
  rewrite rfind_snoc, rfind_app.
  assert (rfind [sep] extsep = -1) as -> by reflexivity. simpl.
  pose proof (rfind_bounds p' extsep). lia.
Qed.

(** [splitext] works on the last component: a directory in front of a name
    without separator stays in front of the root. *)
Lemma splitext_prefixed pre b :
  sep ∉ b -> (pre = [] \/ exists pre', pre = pre' ++ [sep]) ->
  splitext (pre ++ b) = (pre ++ fst (splitext b), snd (splitext b)).
Proof.
  intros Hb Hpre. unfold splitext.
  rewrite (rfind_absent b sep Hb). rewrite !rfind_app, (rfind_absent b sep Hb). cbn [Z.ltb Z.compare].
  assert (Hsep : rfind pre sep = Z.of_nat (length pre) - 1).
  { destruct Hpre as [->|[pre' ->]]; [reflexivity|]. rewrite rfind_snoc, length_app. cbn [length]. lia. }
  pose proof (splitext_no_ext pre Hpre) as Hdot.
  pose proof (rfind_bounds b extsep) as Hbd.
  destruct (rfind b extsep <? 0) eqn:Hr; [apply Z.ltb_lt in Hr | apply Z.ltb_ge in Hr].
  - assert ((-1 <? rfind b extsep) = false) as -> by (apply Z.ltb_ge; lia).
    assert ((rfind pre sep <? rfind pre extsep) = false) as -> by (apply Z.ltb_ge; lia).
    reflexivity.
  - assert ((-1 <? rfind b extsep) = true) as -> by (apply Z.ltb_lt; lia).
    assert ((rfind pre sep <? Z.of_nat (length pre) + rfind b extsep) = true) as ->
      by (apply Z.ltb_lt; lia).
    rewrite Hsep. unfold slice, upto, from.
    replace (Z.to_nat (Z.of_nat (length pre) - 1 + 1)) with (length pre) by lia.
    replace (Z.to_nat (Z.of_nat (length pre) + rfind b extsep - (Z.of_nat (length pre) - 1 + 1)))
      with (Z.to_nat (rfind b extsep)) by lia.
    replace (Z.to_nat (Z.of_nat (length pre) + rfind b extsep))
      with (length pre + Z.to_nat (rfind b extsep))%nat by lia.
    rewrite drop_app_length, take_app_add, drop_app_add.
    change (Z.to_nat (-1 + 1)) with 0%nat. rewrite drop_0, Z.sub_0_r.
    destruct (existsb _ _); reflexivity.
Qed.

(** The sidecar is the base name of the input, its extension replaced by
    [.json], joined to the output directory. *)
Lemma sidecar_path_eq file_path output_dir :
  sidecar_path file_path output_dir
  = join output_dir (fst (splitext (basename file_path)) ++ py ".json").
Proof.
  unfold sidecar_path.
  pose proof (basename_no_sep file_path) as Hb.
  set (b := basename file_path) in *.
  assert (Hroot : sep ∉ fst (splitext b) ++ py ".json").
  { rewrite not_elem_of_app. split.
    - unfold splitext. destruct (_ && _); simpl; [|exact Hb].
      unfold upto. intros Hin. apply Hb. now apply (subseteq_take _ _ _ Hin).
    - vm_compute. intros Hin. repeat (apply elem_of_cons in Hin as [Hin|Hin]; [discriminate|]).
      now apply elem_of_nil in Hin. }
  destruct (join_prefix output_dir b (startswith_sep_absent b Hb)) as (pre & Hj & Hpre).
  rewrite Hj, (splitext_prefixed pre b Hb Hpre). cbn [fst].
  unfold join in *. rewrite (startswith_sep_absent b Hb) in Hj.
  rewrite (startswith_sep_absent _ Hroot).
  destruct (bool_decide (output_dir = []) || endswith output_dir [sep]).
  - apply app_inv_tail in Hj as <-. now rewrite app_assoc.
  - change (output_dir ++ [sep] ++ b) with (output_dir ++ ([sep] ++ b)) in Hj.
    rewrite app_assoc in Hj. apply app_inv_tail in Hj as <-.
    now rewrite <- !app_assoc.
Qed.

Example sidecar_path_scenario : sidecar_path (py "models/a.safetensors") (py "out") = py "out/a.json".
Proof. reflexivity. Qed.

Example sidecar_path_dots :
  sidecar_path (py "v1.5/lora.v2.safetensors") (py "out.d/") = py "out.d/lora.v2.json".
Proof. reflexivity. Qed.

(** ** UTF-8 *)

Lemma utf8_char_bytes c zs :
  utf8_char c = Some zs -> Forall (fun z => 0 <= z < 256) zs.
Proof.
  unfold utf8_char. zbool; intros [= <-];
    repeat (apply Forall_cons_2; [cbv beta; dlia|]); apply Forall_nil_2.
Qed.

Lemma map_byte_to_of_Z zs :
  Forall (fun z => 0 <= z < 256) zs -> map byte_to_Z (map byte_of_Z zs) = zs.
Proof.
  induction 1 as [|z zs Hz _ IH]; simpl; [reflexivity|]. now rewrite byte_to_of_Z, IH.
Qed.

(** One character decodes from its own encoding. *)
Lemma utf8_decode_char fuel c zs rest :
  utf8_char c = Some zs ->
  utf8_decode_from (S fuel) (zs ++ rest) = cons c <$> utf8_decode_from fuel rest.
Proof.
  unfold utf8_char.
  destruct (Z.ltb_spec c 0); [discriminate|].
  destruct (Z.ltb_spec c 128).
  { intros [= <-]. cbn [app utf8_decode_from]. zcases. reflexivity. }
  destruct (Z.ltb_spec c 2048).
  { intros [= <-].
    assert (Hb : 194 <= 192 + c / 64 < 224 /\ 128 <= 128 + c mod 64 < 192
                 /\ (192 + c / 64 - 192) * 64 + (128 + c mod 64 - 128) = c) by dlia.
    revert Hb. generalize (192 + c / 64) (128 + c mod 64). intros b0 b1 (H0' & H1' & Hc).
    cbn [app utf8_decode_from]. unfold is_cont. zcases. now rewrite Hc. }
  destruct (Z.leb_spec 55296 c); destruct (Z.leb_spec c 57343); cbn [andb]; try discriminate.
  all: destruct (Z.ltb_spec c 65536);
    [| destruct (Z.ltb_spec c 1114112); [|discriminate]]; intros [= <-].
  all: try (assert (Hb : 224 <= 224 + c / 4096 < 240 /\ 128 <= 128 + c / 64 mod 64 < 192
                   /\ 128 <= 128 + c mod 64 < 192
                   /\ ((224 + c / 4096 - 224) * 64 + (128 + c / 64 mod 64 - 128)) * 64
                      + (128 + c mod 64 - 128) = c) by dlia;
            revert Hb; generalize (224 + c / 4096) (128 + c / 64 mod 64) (128 + c mod 64);
            intros b0 b1 b2 (H0' & H1' & H2' & Hc);
            cbn [app utf8_decode_from]; unfold is_cont; rewrite Hc; zcases; reflexivity).
  all: assert (Hb : 240 <= 240 + c / 262144 < 245 /\ 128 <= 128 + c / 4096 mod 64 < 192
                   /\ 128 <= 128 + c / 64 mod 64 < 192 /\ 128 <= 128 + c mod 64 < 192
                   /\ (((240 + c / 262144 - 240) * 64 + (128 + c / 4096 mod 64 - 128)) * 64
                       + (128 + c / 64 mod 64 - 128)) * 64 + (128 + c mod 64 - 128) = c) by dlia;
    revert Hb;
    generalize (240 + c / 262144) (128 + c / 4096 mod 64) (128 + c / 64 mod 64) (128 + c mod 64);
    intros b0 b1 b2 b3 (H0' & H1' & H2' & H3' & Hc);
    cbn [app utf8_decode_from]; unfold is_cont; rewrite Hc; zcases; reflexivity.
Qed.

Lemma utf8_encode_length s bs : utf8_encode s = Ret bs -> (length s <= length bs)%nat.
Proof.
  revert bs. induction s as [|c s IH]; intros bs; simpl; [lia|].
  destruct (utf8_char c) as [zs|] eqn:Hc; [|discriminate].
  destruct (utf8_encode s) as [rest|]; [|discriminate]. intros [= <-].
  specialize (IH rest eq_refl). rewrite length_app, length_map.
  assert (0 < length zs)%nat; [|lia].
  revert Hc. unfold utf8_char. zbool; intros [= <-]; simpl; lia.
Qed.

Lemma utf8_decode_encode_from s bs fuel :
  utf8_encode s = Ret bs -> (length s <= fuel)%nat ->
  utf8_decode_from fuel (map byte_to_Z bs) = Some s.
Proof.
  revert bs fuel. induction s as [|c s IH]; intros bs fuel; simpl.
  - intros [= <-] _. now destruct fuel.
  - destruct (utf8_char c) as [zs|] eqn:Hc; [|discriminate].
    destruct (utf8_encode s) as [rest|] eqn:Hs; [|discriminate]. intros [= <-] Hfuel.
    destruct fuel as [|fuel]; [lia|].
    rewrite map_app, (map_byte_to_of_Z zs (utf8_char_bytes c zs Hc)).
    rewrite (utf8_decode_char fuel c zs _ Hc), (IH rest fuel eq_refl) by lia. reflexivity.
Qed.

(** What was encoded decodes to itself. *)
Lemma utf8_decode_encode s bs : utf8_encode s = Ret bs -> utf8_decode bs = Some s.
Proof.
  intros H. apply utf8_decode_encode_from; [exact H | now apply utf8_encode_length].
Qed.

Lemma utf8_char_encodable c : encodable c = true -> exists zs, utf8_char c = Some zs.
Proof.
  unfold encodable, utf8_char. zbool; intros; try discriminate; try lia; eauto.
Qed.

Lemma utf8_encode_encodable s : forallb encodable s = true -> exists bs, utf8_encode s = Ret bs.
Proof.
  induction s as [|c s IH]; simpl; [eauto|].
  intros [Hc Hs]%andb_true_iff. destruct (utf8_char_encodable c Hc) as [zs ->].
  destruct (IH Hs) as [bs ->]. eauto.
Qed.

(** ** Numbers *)

Lemma follows_stops rest : follows rest -> stops rest.
Proof. destruct rest as [|c rest]; [trivial|]. intros [->| ->]; repeat split; discriminate. Qed.

Lemma span_digits_app a rest ds r :
  stops rest -> span_digits a = (ds, r) -> span_digits (a ++ rest) = (ds, r ++ rest).
Proof.
  intros Hrest. revert ds r. induction a as [|c a IH]; intros ds r; simpl.
  - intros [= <- <-]. destruct rest as [|c rest]; [reflexivity|].
    simpl. destruct Hrest as [-> _]. reflexivity.
  - destruct (is_digit c); [|now intros [= <- <-]].
    destruct (span_digits a) as [ds' r']. intros [= <- <-]. now rewrite (IH ds' r' eq_refl).
Qed.

Lemma scan_frac_app a rest f r :
  stops rest -> scan_frac a = (f, r) -> scan_frac (a ++ rest) = (f, r ++ rest).
Proof.
  intros Hrest. destruct a as [|p t]; simpl.
  - intros [= <- <-]. destruct rest as [|c rest]; [reflexivity|]. simpl.
    destruct Hrest as (_ & Hc & _). destruct (Z.eqb_spec c 46); [contradiction | reflexivity].
  - destruct (p =? 46); [|now intros [= <- <-]].
    destruct (span_digits t) as [ds r'] eqn:Hs.
    rewrite (span_digits_app t rest ds r' Hrest Hs).
    destruct ds; now intros [= <- <-].
Qed.

Lemma scan_exp_app a rest x r :
  stops rest -> scan_exp a = (x, r) -> scan_exp (a ++ rest) = (x, r ++ rest).
Proof.
  intros Hrest. destruct a as [|e t]; simpl.
  - intros [= <- <-]. destruct rest as [|c rest]; [reflexivity|]. simpl.
    destruct Hrest as (_ & _ & H1 & H2 & _).
    destruct (Z.eqb_spec c 101); [contradiction|]. destruct (Z.eqb_spec c 69); [contradiction|].
    reflexivity.
  - destruct ((e =? 101) || (e =? 69)); [|now intros [= <- <-]].
    destruct t as [|g t']; simpl.
    + intros [= <- <-]. destruct rest as [|c rest]; [reflexivity|].
      destruct Hrest as (Hd & _ & _ & _ & H1 & H2).
      destruct (Z.eqb_spec c 43); [contradiction|]. destruct (Z.eqb_spec c 45); [contradiction|].
      simpl. rewrite Hd. reflexivity.
    + destruct ((g =? 43) || (g =? 45)).
      * destruct (span_digits t') as [ds r'] eqn:Hs.
        rewrite (span_digits_app t' rest ds r' Hrest Hs). destruct ds; now intros [= <- <-].
      * destruct (span_digits (g :: t')) as [ds r'] eqn:Hs.
        change (g :: t' ++ rest) with ((g :: t') ++ rest).
        rewrite (span_digits_app (g :: t') rest ds r' Hrest Hs). destruct ds; now intros [= <- <-].
Qed.

Lemma scan_int_app a rest i r :
  stops rest -> scan_int a = Some (i, r) -> scan_int (a ++ rest) = Some (i, r ++ rest).
Proof.
  intros Hrest. unfold scan_int.
  assert (Hun : forall sign s1,
             match s1 with
             | [] => None
             | c :: t =>
                 if c =? 48 then Some (sign ++ [48], t)
                 else if is_digit c
                      then let '(ds, r) := span_digits t in Some (sign ++ c :: ds, r)
                      else None
             end = Some (i, r) ->
             match s1 ++ rest with
             | [] => None
             | c :: t =>
                 if c =? 48 then Some (sign ++ [48], t)
                 else if is_digit c
                      then let '(ds, r) := span_digits t in Some (sign ++ c :: ds, r)
                      else None
             end = Some (i, r ++ rest)).
  { intros sign [|c t]; [discriminate|]. simpl.
    destruct (c =? 48); [now intros [= <- <-]|].
    destruct (is_digit c); [|discriminate].
    destruct (span_digits t) as [ds r'] eqn:Hs.
    rewrite (span_digits_app t rest ds r' Hrest Hs). now intros [= <- <-]. }
  destruct a as [|c t]; [discriminate|]. simpl.
  destruct (c =? 45); [apply (Hun [45] t) | apply (Hun [] (c :: t))].
Qed.

Lemma match_number_app a rest i f e r :
  stops rest -> match_number a = Some (i, f, e, r) ->
  match_number (a ++ rest) = Some (i, f, e, r ++ rest).
Proof.
  intros Hrest. unfold match_number.
  destruct (scan_int a) as [[i' s2]|] eqn:Hi; [|discriminate]. simpl.
  rewrite (scan_int_app a rest i' s2 Hrest Hi). simpl.
  destruct (scan_frac s2) as [f' s3] eqn:Hf. rewrite (scan_frac_app s2 rest f' s3 Hrest Hf).
  destruct (scan_exp s3) as [e' s4] eqn:He. rewrite (scan_exp_app s3 rest e' s4 Hrest He).
  now intros [= <- <- <- <-].
Qed.

(** A number starts with a minus sign or a digit. *)
Lemma match_number_head a i f e r :
  match_number a = Some (i, f, e, r) ->
  exists c t, a = c :: t /\ (c = 45 \/ is_digit c = true).
Proof.
  unfold match_number, scan_int. destruct a as [|c t]; [discriminate|].
  intros H. exists c, t. split; [reflexivity|].
  destruct (Z.eqb_spec c 45); [now left|]. right.
  simpl in H. destruct (Z.eqb_spec c 48) as [->|]; [reflexivity|].
  destruct (is_digit c); [reflexivity | discriminate].
Qed.

Lemma uint_digits_all d : forallb is_digit (uint_digits d) = true.
Proof. induction d; simpl; auto. Qed.

Lemma digits_uint_digits d : digits_uint (uint_digits d) = d.
Proof. induction d; simpl; now rewrite ?IHd. Qed.

Lemma span_digits_all ds : forallb is_digit ds = true -> span_digits ds = (ds, []).
Proof.
  induction ds as [|c ds IH]; simpl; [reflexivity|].
  intros [Hc Hds]%andb_true_iff. now rewrite Hc, IH.
Qed.

Lemma nzhead_not_D0 d u : Decimal.nzhead d <> Decimal.D0 u.
Proof. induction d; simpl; try discriminate. exact IHd. Qed.

(** The decimal digits of a positive number do not start with a zero. *)
Lemma to_uint_head p :
  exists c t, uint_digits (Pos.to_uint p) = c :: t /\ is_digit c = true /\ c <> 48.
Proof.
  assert (Hnorm : Decimal.unorm (Pos.to_uint p) = Pos.to_uint p).
  { pose proof (DecimalZ.to_of (Decimal.Pos (Pos.to_uint p))) as H.
    simpl in H. unfold Z.of_uint in H. rewrite DecimalPos.Unsigned.of_to in H.
    simpl in H. now injection H as <-. }
  pose proof (Unsigned.to_uint_nonnil p) as Hnil.
  pose proof (Unsigned.to_uint_nonzero p) as Hzero.
  destruct (Pos.to_uint p) as [|u|u|u|u|u|u|u|u|u|u]; try congruence;
    try (eexists _, _; split; [reflexivity|]; split; [reflexivity | discriminate]).
  exfalso. unfold Decimal.unorm in Hnorm. simpl in Hnorm.
  destruct (Decimal.nzhead u) eqn:Hu; try discriminate.
  - injection Hnorm as <-. congruence.
  - now apply nzhead_not_D0 in Hu.
Qed.

(** [int.__repr__] writes a number that [NUMBER_RE] matches whole, without
    fraction or exponent, and that [int()] reads back. *)
Lemma match_number_int_repr n : match_number (int_repr n) = Some (int_repr n, [], [], []).
Proof.
  unfold int_repr, Z.to_int. destruct n as [|p|p].
  - reflexivity.
  - destruct (to_uint_head p) as (c & t & Heq & Hd & Hc).
    pose proof (uint_digits_all (Pos.to_uint p)) as Hall. rewrite Heq in *.
    simpl in Hall. apply andb_true_iff in Hall as [_ Hall].
    unfold match_number, scan_int.
    assert (c <> 45) by (intros ->; discriminate).
    destruct (Z.eqb_spec c 45); [contradiction|]. destruct (Z.eqb_spec c 48); [contradiction|].
    rewrite Hd, (span_digits_all t Hall). reflexivity.
  - destruct (to_uint_head p) as (c & t & Heq & Hd & Hc).
    pose proof (uint_digits_all (Pos.to_uint p)) as Hall. rewrite Heq in *.
    simpl in Hall. apply andb_true_iff in Hall as [_ Hall].
    unfold match_number, scan_int. cbn [Z.eqb Pos.eqb].
    destruct (Z.eqb_spec c 48); [contradiction|].
    rewrite Hd, (span_digits_all t Hall). reflexivity.
Qed.

Lemma parse_int_repr n : parse_int (int_repr n) = n.
Proof.
  rewrite <- (DecimalZ.of_to n) at 2. unfold int_repr, parse_int.
  destruct (Z.to_int n) as [d|d] eqn:Hn.
  - destruct (uint_digits d) as [|c t] eqn:Hd.
    + destruct d; try discriminate. destruct n; simpl in Hn; try discriminate.
      injection Hn as Hn. now apply Unsigned.to_uint_nonnil in Hn.
    + assert (c <> 45).
      { intros ->. pose proof (uint_digits_all d) as Hall. rewrite Hd in Hall. discriminate. }
      destruct (Z.eqb_spec c 45); [contradiction|]. now rewrite <- Hd, digits_uint_digits.
  - cbn [Z.eqb Pos.eqb]. now rewrite digits_uint_digits.
Qed.

(** ** Strings *)

Lemma hexval_hexdigit d : 0 <= d < 16 -> hexval (hexdigit d) = Some d.
Proof.
  intros Hd. unfold hexdigit, hexval.
  destruct (Z.ltb_spec d 10); zcases; f_equal; lia.
Qed.

Lemma hex4val_hex4 c :
  0 <= c < 65536 ->
  hex4val (hexdigit (c / 4096 mod 16)) (hexdigit (c / 256 mod 16))
          (hexdigit (c / 16 mod 16)) (hexdigit (c mod 16)) = Some c.
Proof.
  intros Hc. unfold hex4val.
  rewrite !hexval_hexdigit by dlia. simpl. f_equal. dlia.
Qed.

(** What [encode_basestring] writes between the quotes, [scanstring] reads
    back, whatever the characters. *)
Lemma scanstring_escape s rest fuel :
  (length s < fuel)%nat ->
  scanstring fuel (flat_map escape_char s ++ 34 :: rest) = Some (s, rest).
Proof.
  revert fuel. induction s as [|c s IH]; intros [|fuel] Hfuel; simpl in Hfuel; try lia.
  - reflexivity.
  - cbn [flat_map]. rewrite <- app_assoc.
    assert (Hs := IH fuel ltac:(lia)).
    remember (flat_map escape_char s ++ 34 :: rest) as X eqn:HX. clear HX IH.
    unfold escape_char.
    destruct (Z.eqb_spec c 34) as [->|]; [cbn [app scanstring Z.eqb Pos.eqb unescape]; now rewrite Hs|].
    destruct (Z.eqb_spec c 92) as [->|]; [cbn [app scanstring Z.eqb Pos.eqb unescape]; now rewrite Hs|].
    destruct (Z.eqb_spec c 10) as [->|]; [cbn [app scanstring Z.eqb Pos.eqb unescape]; now rewrite Hs|].
    destruct (Z.eqb_spec c 13) as [->|]; [cbn [app scanstring Z.eqb Pos.eqb unescape]; now rewrite Hs|].
    destruct (Z.eqb_spec c 9) as [->|]; [cbn [app scanstring Z.eqb Pos.eqb unescape]; now rewrite Hs|].
    destruct (Z.eqb_spec c 8) as [->|]; [cbn [app scanstring Z.eqb Pos.eqb unescape]; now rewrite Hs|].
    destruct (Z.eqb_spec c 12) as [->|]; [cbn [app scanstring Z.eqb Pos.eqb unescape]; now rewrite Hs|].
    destruct ((0 <=? c) && (c <? 32)) eqn:Hctl.
    + apply andb_true_iff in Hctl as [H0%Z.leb_le H1%Z.ltb_lt].
      unfold hex4. cbn [app scanstring Z.eqb Pos.eqb].
      rewrite hex4val_hex4 by lia. cbn [mbind option_bind].
      assert ((55296 <=? c) = false) as -> by (apply Z.leb_gt; lia).
      cbn [andb]. now rewrite Hs.
    + cbn [app scanstring].
      destruct (Z.eqb_spec c 34); [contradiction|]. destruct (Z.eqb_spec c 92); [contradiction|].
      rewrite Hctl. now rewrite Hs.
Qed.

Lemma flat_map_escape_length s : (length s <= length (flat_map escape_char s))%nat.
Proof.
  induction s as [|c s IH]; simpl; [lia|]. rewrite length_app.
  assert (0 < length (escape_char c))%nat; [|lia].
  unfold escape_char. repeat (destruct (_ =? _); [simpl; lia|]). destruct (_ && _); simpl; lia.
Qed.

(** With [ensure_ascii=False] a string without quote, backslash or control
    character is written as it is, between quotes. *)
Lemma encode_basestring_literal s :
  Forall (fun c => 32 <= c /\ c <> 34 /\ c <> 92) s ->
  encode_basestring s = [34] ++ s ++ [34].
Proof.
  intros Hs. unfold encode_basestring. do 2 f_equal.
  induction Hs as [|c s (H32 & H34 & H92) _ IH]; [reflexivity|].
  cbn [flat_map]. rewrite IH. unfold escape_char. zcases. reflexivity.
Qed.

(** ** White space *)

Lemma skip_ws_spaces n s : skip_ws (repeat 32 n ++ s) = skip_ws s.
Proof. induction n as [|n IH]; [reflexivity | exact IH]. Qed.

Lemma skip_ws_newline_indent level s : skip_ws (newline_indent level ++ s) = skip_ws s.
Proof. unfold newline_indent. cbn [app skip_ws is_ws Z.eqb orb]. apply skip_ws_spaces. Qed.

Lemma skip_ws_stay c s : is_ws c = false -> skip_ws (c :: s) = c :: s.
Proof. intros H. simpl. now rewrite H. Qed.

(** ** Dicts *)

Lemma setitem_fresh d k v : k ∉ map fst d -> setitem d k v = d ++ [(k, v)].
Proof.
  induction d as [|[k' v'] d IH]; simpl; [reflexivity|].
  intros Hk. apply not_elem_of_cons in Hk as [Hne Hk].
  rewrite bool_decide_eq_false_2 by congruence. now rewrite IH.
Qed.

Lemma dict_of_pairs_NoDup d : NoDup (map fst d) -> dict_of_pairs d = d.
Proof.
  unfold dict_of_pairs. change d with ([] ++ d) at 1 3. generalize (@nil (str * value)) as acc.
  induction d as [|[k v] d IH]; intros acc Hnd; simpl.
  - now rewrite app_nil_r.
  - rewrite setitem_fresh.
    + rewrite IH; rewrite <- app_assoc; [reflexivity | exact Hnd].
    + rewrite map_app in Hnd. apply NoDup_app in Hnd as (_ & Hdisj & _).
      intros Hin. apply (Hdisj k Hin). simpl. left.
Qed.

(** ** The text of a dump *)

Section Roundtrip.
Context (frepr : spec_float -> str) (fparse : str -> spec_float).

Lemma text_scalar level o t : scalar_text frepr o = Some t -> text frepr level o = t.
Proof.
  unfold text. destruct o as [| | | | |l|d]; try discriminate;
    cbn [iterencode]; intros ->; cbn [concat]; apply app_nil_r.
Qed.

Lemma concat_list_chunks level separator buf v l :
  concat (list_chunks frepr (iterencode frepr level) separator buf (v :: l))
  = buf ++ text frepr level v
    ++ concat (list_chunks frepr (iterencode frepr level) separator separator l).
Proof.
  cbn [list_chunks]. rewrite concat_app.
  destruct (scalar_text frepr v) as [t|] eqn:Ht.
  - rewrite (text_scalar level v t Ht). cbn [concat]. now rewrite app_nil_r, app_assoc.
  - cbn [concat]. unfold text. now rewrite app_assoc.
Qed.

Lemma concat_dict_chunks level separator first k v d :
  concat (dict_chunks frepr (iterencode frepr level) separator first ((k, v) :: d))
  = (if first then [] else separator) ++ encode_basestring k ++ key_separator
    ++ text frepr level v
    ++ concat (dict_chunks frepr (iterencode frepr level) separator false d).
Proof.
  cbn [dict_chunks]. rewrite !concat_app. f_equal; [now destruct first; cbn; rewrite ?app_nil_r|].
  cbn [concat]. rewrite app_nil_r, <- !app_assoc. do 2 f_equal.
  destruct (scalar_text frepr v) as [t|] eqn:Ht.
  - rewrite (text_scalar level v t Ht). cbn [concat]. now rewrite app_nil_r.
  - reflexivity.
Qed.

Lemma text_list level v l :
  text frepr level (VList (v :: l))
  = [91] ++ newline_indent (S level) ++ text frepr (S level) v
    ++ concat (list_chunks frepr (iterencode frepr (S level))
                 (item_separator ++ newline_indent (S level))
                 (item_separator ++ newline_indent (S level)) l)
    ++ newline_indent level ++ [93].
Proof.
  unfold text at 1. cbn [iterencode]. rewrite concat_app, concat_list_chunks.
  cbn [concat]. now rewrite app_nil_r, <- !app_assoc.
Qed.

Lemma text_dict level k v d :
  text frepr level (VDict ((k, v) :: d))
  = [123] ++ newline_indent (S level) ++ encode_basestring k ++ key_separator
    ++ text frepr (S level) v
    ++ concat (dict_chunks frepr (iterencode frepr (S level))
                 (item_separator ++ newline_indent (S level)) false d)
    ++ newline_indent level ++ [125].
Proof.
  unfold text at 1. cbn [iterencode]. rewrite !concat_app, concat_dict_chunks.
  cbn [concat]. now rewrite !app_nil_r, <- !app_assoc.
Qed.

Lemma is_digit_not_ws c : is_digit c = true -> is_ws c = false /\ c <> 93.
Proof.
  unfold is_digit, is_ws. intros [H1%Z.leb_le H2%Z.leb_le]%andb_true_iff.
  split; [|lia]. zcases; reflexivity.
Qed.

(** A value starts with a character that is neither white space nor a
    closing bracket. *)
Lemma text_head level o :
  well_formed frepr fparse o = true ->
  exists c t, text frepr level o = c :: t /\ is_ws c = false /\ c <> 93.
Proof.
  destruct o as [|[]|n|x|s|[|v l]|[|[k v] d]]; intros Hwf.
  1-3: (eexists _, _; split; [reflexivity|]; split; [reflexivity | discriminate]).
  - rewrite (text_scalar level (VInt n) (int_repr n) eq_refl).
    destruct (match_number_head _ _ _ _ _ (match_number_int_repr n)) as (c & t & -> & [->|Hc]).
    + eexists _, _; split; [reflexivity|]; split; [reflexivity | discriminate].
    + eexists _, _; split; [reflexivity|]. now apply is_digit_not_ws.
  - rewrite (text_scalar level (VFloat x) (floatstr frepr x) eq_refl).
    destruct x as [sg|[]| |sg m e];
      try (eexists _, _; split; [reflexivity|]; split; [reflexivity | discriminate]).
    all: cbn [well_formed float_ok floatstr] in *.
    all: destruct (match_number _) as [[[[i f] e'] r]|] eqn:Hm; [|discriminate].
    all: destruct (match_number_head _ _ _ _ _ Hm) as (c & t & -> & [->|Hc]);
      [ eexists _, _; split; [reflexivity|]; split; [reflexivity | discriminate]
      | eexists _, _; split; [reflexivity|]; now apply is_digit_not_ws ].
  - eexists _, _; split; [reflexivity|]; split; [reflexivity | discriminate].
  - eexists _, _; split; [reflexivity|]; split; [reflexivity | discriminate].
  - rewrite text_list. eexists _, _; split; [reflexivity|]; split; [reflexivity | discriminate].
  - eexists _, _; split; [reflexivity|]; split; [reflexivity | discriminate].
  - rewrite text_dict. eexists _, _; split; [reflexivity|]; split; [reflexivity | discriminate].
Qed.

Lemma skip_ws_text level o rest :
  well_formed frepr fparse o = true ->
  skip_ws (text frepr level o ++ rest) = text frepr level o ++ rest.
Proof.
  intros Hwf. destruct (text_head level o Hwf) as (c & t & -> & Hc & _).
  now apply skip_ws_stay.
Qed.

End Roundtrip.
(** ** Reading a dump back *)

Lemma startswith_app p rest : startswith (p ++ rest) p = true.
Proof. apply bool_decide_eq_true. now exists rest. Qed.

Lemma startswith_head c s d p : c <> d -> startswith (c :: s) (d :: p) = false.
Proof. intros Hne. apply bool_decide_eq_false. intros [k [= Hc _]]. contradiction. Qed.

Lemma skip_ws_quoted k s : skip_ws (encode_basestring k ++ s) = encode_basestring k ++ s.
Proof. reflexivity. Qed.

Section Scans.
Context (frepr : spec_float -> str) (fparse : str -> spec_float).

(** A number, at the place of a value. *)
Lemma scan_once_number fuel a rest i f e :
  stops rest ->
  match_number a = Some (i, f, e, []) ->
  scan_once fparse (S fuel) (a ++ rest)
  = Some (if bool_decide (f = []) && bool_decide (e = [])
          then VInt (parse_int i) else VFloat (fparse (i ++ f ++ e)), rest).
Proof.
  intros Hrest Hm.
  pose proof (match_number_app a rest i f e [] Hrest Hm) as Hm'.
  destruct (match_number_head _ _ _ _ _ Hm) as (c & t & -> & Hc).
  assert (Hne : c <> 34 /\ c <> 123 /\ c <> 91 /\ c <> 110 /\ c <> 116 /\ c <> 102).
  { destruct Hc as [->|Hc]; [repeat split; discriminate|].
    unfold is_digit in Hc. apply andb_true_iff in Hc as [H1%Z.leb_le H2%Z.leb_le]. lia. }
  destruct Hne as (H1 & H2 & H3 & H4 & H5 & H6).
  cbn [app scan_once].
  destruct (Z.eqb_spec c 34); [contradiction|]. destruct (Z.eqb_spec c 123); [contradiction|].
  destruct (Z.eqb_spec c 91); [contradiction|].
  change (py "null") with (110 :: py "ull"). change (py "true") with (116 :: py "rue").
  change (py "false") with (102 :: py "alse").
  rewrite !startswith_head by assumption.
  change (c :: t ++ rest) with ((c :: t) ++ rest). rewrite Hm'. cbn [app].
  now destruct (bool_decide (f = []) && bool_decide (e = [])).
Qed.

Lemma scans_scalar o : (forall l, o <> VList l) -> (forall d, o <> VDict d) ->
  well_formed frepr fparse o = true -> scans frepr fparse o.
Proof.
  intros HnL HnD Hwf level rest fuel Hrest Hfuel.
  destruct o as [|b|n|x|s|l|d]; [| | | | |now destruct (HnL l)|now destruct (HnD d)].
  - destruct fuel; [simpl in Hfuel; lia|]. vm_compute. reflexivity.
  - destruct fuel; [destruct b; simpl in Hfuel; lia|]. destruct b; vm_compute; reflexivity.
  - rewrite (text_scalar frepr level (VInt n) (int_repr n) eq_refl) in *.
    destruct fuel as [|fuel].
    { destruct (match_number_head _ _ _ _ _ (match_number_int_repr n)) as (c & t & Heq & _).
      rewrite Heq in Hfuel. simpl in Hfuel. lia. }
    rewrite (scan_once_number fuel _ rest _ _ _ (follows_stops rest Hrest)
               (match_number_int_repr n)).
    cbn. now rewrite parse_int_repr.
  - rewrite (text_scalar frepr level (VFloat x) (floatstr frepr x) eq_refl) in *.
    destruct x as [sg|[]| |sg m e].
    2-4: (destruct fuel; [simpl in Hfuel; lia|]; vm_compute; reflexivity).
    all: cbn [well_formed float_ok floatstr] in *.
    all: destruct (match_number _) as [[[[i f] e'] [|]]|] eqn:Hm; try discriminate.
    all: apply andb_true_iff in Hwf as [Hfe Hx]; apply bool_decide_eq_true in Hx.
    all: destruct fuel as [|fuel];
      [destruct (match_number_head _ _ _ _ _ Hm) as (c & t & Heq & _);
       rewrite Heq in Hfuel; simpl in Hfuel; lia|].
    all: rewrite (scan_once_number fuel _ rest _ _ _ (follows_stops rest Hrest) Hm).
    all: apply negb_true_iff in Hfe; rewrite Hfe, Hx; reflexivity.
  - rewrite (text_scalar frepr level (VStr s) (encode_basestring s) eq_refl) in *.
    unfold encode_basestring in *. destruct fuel; [simpl in Hfuel; lia|].
    cbn [app scan_once Z.eqb Pos.eqb]. rewrite <- app_assoc. cbn [app].
    rewrite scanstring_escape; [reflexivity|].
    rewrite length_app. pose proof (flat_map_escape_length s). simpl. lia.
Qed.

(** The items of a list, the first one apart, with the closing bracket. *)
Lemma scan_items_text l :
  Forall (fun o => well_formed frepr fparse o = true -> scans frepr fparse o) l ->
  forallb (well_formed frepr fparse) l = true ->
  forall v level rest fuel,
    well_formed frepr fparse v = true -> scans frepr fparse v ->
    let separator := item_separator ++ newline_indent (S level) in
    let tail := concat (list_chunks frepr (iterencode frepr (S level)) separator separator l) in
    (length (text frepr (S level) v) + length tail < fuel)%nat ->
    scan_items fparse fuel
      (text frepr (S level) v ++ tail ++ newline_indent level ++ 93 :: rest)
    = Some (v :: l, rest).
Proof.
  induction 1 as [|v' l Hv' _ IH]; intros Hwf v level rest fuel Hv Hscan separator tail Hfuel.
  - destruct fuel as [|fuel]; [lia|]. cbn [scan_items]. subst tail. cbn [list_chunks concat app].
    rewrite (Hscan (S level) _ fuel); [|simpl; auto|simpl in Hfuel; lia].
    cbn [mbind option_bind]. rewrite skip_ws_newline_indent. reflexivity.
  - cbn [forallb] in Hwf. apply andb_true_iff in Hwf as [Hwf' Hwf].
    destruct fuel as [|fuel]; [lia|]. cbn [scan_items]. subst tail.
    rewrite concat_list_chunks in *. rewrite length_app, length_app in Hfuel.
    unfold separator at 1, item_separator at 1. rewrite <- !app_assoc. cbn [app].
    rewrite (Hscan (S level) _ fuel); [|simpl; auto|lia].
    cbn [mbind option_bind skip_ws is_ws Z.eqb Pos.eqb orb].
    rewrite skip_ws_newline_indent, (skip_ws_text frepr fparse _ _ _ Hwf').
    specialize (IH Hwf v' level rest fuel Hwf' (Hv' Hwf')).
    cbv zeta in IH. fold separator in IH. rewrite <- ?app_assoc in IH. rewrite IH; [reflexivity|].
    unfold separator at 1 in Hfuel. rewrite length_app in Hfuel. simpl in Hfuel. lia.
Qed.

(** The members of a dict, from the first key, with the closing brace. *)
Lemma scan_members_text d :
  Forall (fun kv => well_formed frepr fparse (snd kv) = true -> scans frepr fparse (snd kv)) d ->
  forallb (fun kv => well_formed frepr fparse (snd kv)) d = true ->
  forall k v level rest fuel,
    well_formed frepr fparse v = true -> scans frepr fparse v ->
    let separator := item_separator ++ newline_indent (S level) in
    let tail := concat (dict_chunks frepr (iterencode frepr (S level)) separator false d) in
    (length (encode_basestring k) + length (text frepr (S level) v) + length tail + 2 < fuel)%nat ->
    scan_members fparse fuel
      (encode_basestring k ++ key_separator ++ text frepr (S level) v ++ tail
       ++ newline_indent level ++ 125 :: rest)
    = Some ((k, v) :: d, rest).
Proof.
  induction 1 as [|[k' v'] d Hv' _ IH]; intros Hwf k v level rest fuel Hv Hscan separator tail Hfuel.
  - destruct fuel as [|fuel]; [lia|]. subst tail. cbn [dict_chunks concat app].
    unfold encode_basestring at 1. rewrite <- !app_assoc. cbn [app scan_members Z.eqb Pos.eqb].
    rewrite scanstring_escape.
    2:{ rewrite length_app. pose proof (flat_map_escape_length k). simpl. lia. }
    cbn [mbind option_bind key_separator app skip_ws is_ws Z.eqb Pos.eqb orb].
    rewrite (skip_ws_text frepr fparse _ _ _ Hv).
    rewrite (Hscan (S level) _ fuel); [|simpl; auto|lia].
    cbn [mbind option_bind]. rewrite skip_ws_newline_indent. reflexivity.
  - cbn [forallb snd] in Hwf. apply andb_true_iff in Hwf as [Hwf' Hwf].
    destruct fuel as [|fuel]; [lia|]. subst tail.
    rewrite concat_dict_chunks in *. rewrite !length_app in Hfuel.
    unfold encode_basestring at 1. rewrite <- !app_assoc. cbn [app scan_members Z.eqb Pos.eqb].
    rewrite scanstring_escape.
    2:{ rewrite !length_app. pose proof (flat_map_escape_length k). simpl. lia. }
    cbn [mbind option_bind key_separator app skip_ws is_ws Z.eqb Pos.eqb orb].
    rewrite (skip_ws_text frepr fparse _ _ _ Hv).
    unfold separator at 1, item_separator at 1. rewrite <- !app_assoc. cbn [app].
    rewrite (Hscan (S level) _ fuel); [|simpl; auto|lia].
    cbn [mbind option_bind skip_ws is_ws Z.eqb Pos.eqb orb].
    rewrite skip_ws_newline_indent, skip_ws_quoted.
    specialize (IH Hwf k' v' level rest fuel Hwf' (Hv' Hwf')).
    cbv zeta in IH. fold separator in IH.
    change (key_separator ++ ?x) with (58 :: 32 :: x) in IH. rewrite IH; [reflexivity|].
    unfold separator at 1 in Hfuel. unfold key_separator in Hfuel. rewrite !length_app in Hfuel.
    simpl in Hfuel. simpl. lia.
Qed.

(** Every well-formed object is read back from its text. *)
Lemma scans_all o : well_formed frepr fparse o = true -> scans frepr fparse o.
Proof.
  induction o as [ | b | n | x | s | l IH | d IH ] using value_ind';
    try (apply scans_scalar; discriminate).
  - intros Hwf level rest fuel Hrest Hfuel. cbn [well_formed] in Hwf.
    destruct l as [|v l].
    { destruct fuel; [simpl in Hfuel; lia|]. vm_compute. reflexivity. }
    apply Forall_cons_1 in IH as [IHv IHl].
    cbn [forallb] in Hwf. apply andb_true_iff in Hwf as [Hv Hl].
    rewrite text_list in *. destruct fuel as [|fuel]; [simpl in Hfuel; lia|].
    rewrite <- !app_assoc. cbn [app scan_once Z.eqb Pos.eqb].
    rewrite skip_ws_newline_indent, (skip_ws_text frepr fparse _ _ _ Hv).
    destruct (text_head frepr fparse (S level) v Hv) as (c & t & Heq & _ & Hc).
    rewrite Heq at 1. cbn [app]. destruct (Z.eqb_spec c 93); [contradiction|].
    rewrite ?length_app in Hfuel. cbn [length] in Hfuel.
    rewrite (scan_items_text l IHl Hl v level rest fuel Hv (IHv Hv)); [reflexivity | cbv zeta; lia].
  - intros Hwf level rest fuel Hrest Hfuel. cbn [well_formed] in Hwf.
    destruct d as [|[k v] d].
    { destruct fuel; [simpl in Hfuel; lia|]. vm_compute. reflexivity. }
    apply andb_true_iff in Hwf as [Hnd Hwf]. apply bool_decide_eq_true in Hnd.
    apply Forall_cons_1 in IH as [IHv IHd]. cbn [snd] in IHv.
    cbn [forallb snd] in Hwf. apply andb_true_iff in Hwf as [Hv Hd].
    rewrite text_dict in *. destruct fuel as [|fuel]; [simpl in Hfuel; lia|].
    rewrite <- !app_assoc. cbn [app scan_once Z.eqb Pos.eqb].
    rewrite skip_ws_newline_indent, skip_ws_quoted.
    assert (Hq : exists t, encode_basestring k = 34 :: t) by (eexists; reflexivity).
    destruct Hq as [t Hq]. rewrite Hq at 1. cbn [app]. cbn [Z.eqb Pos.eqb].
    rewrite ?length_app in Hfuel. unfold key_separator in Hfuel at 1. cbn [length] in Hfuel.
    rewrite (scan_members_text d IHd Hd k v level rest fuel Hv (IHv Hv)); [|cbv zeta; lia].
    cbn [mbind option_bind]. now rewrite (dict_of_pairs_NoDup _ Hnd).
Qed.

(** [json.loads] undoes the dump. *)
Lemma loads_dumps o : well_formed frepr fparse o = true -> loads fparse (dumps frepr o) = Some o.
Proof.
  intros Hwf. unfold loads. change (dumps frepr o) with (text frepr 0 o).
  pose proof (skip_ws_text frepr fparse 0 o [] Hwf) as Hs.
  pose proof (scans_all o Hwf 0%nat [] (S (length (text frepr 0 o))) I ltac:(lia)) as Hscan.
  rewrite app_nil_r in Hs, Hscan. now rewrite Hs, Hscan.
Qed.

End Scans.
(** ** A dump that UTF-8 can carry *)

Lemma encodable_ascii c : 0 <= c < 128 -> encodable c = true.
Proof. intros Hc. unfold encodable. zcases; reflexivity. Qed.

Lemma encodable_digits ds : forallb is_digit ds = true -> forallb encodable ds = true.
Proof.
  induction ds as [|c ds IH]; simpl; [reflexivity|].
  intros [Hc Hds]%andb_true_iff. rewrite IH by assumption.
  unfold is_digit in Hc. apply andb_true_iff in Hc as [H1%Z.leb_le H2%Z.leb_le].
  rewrite encodable_ascii by lia. reflexivity.
Qed.

Lemma encodable_int_repr n : forallb encodable (int_repr n) = true.
Proof.
  unfold int_repr. destruct (Z.to_int n); simpl; apply encodable_digits, uint_digits_all.
Qed.

Lemma hexdigit_ascii d : 0 <= d < 16 -> 0 <= hexdigit d < 128.
Proof. intros Hd. unfold hexdigit. destruct (d <? 10); lia. Qed.

Lemma encodable_escape c : encodable c = true -> forallb encodable (escape_char c) = true.
Proof.
  intros Hc. unfold escape_char.
  repeat (destruct (_ =? _); [reflexivity|]).
  destruct (_ && _). 2:{ simpl. now rewrite Hc. }
  unfold hex4. cbn [app forallb].
  rewrite !(encodable_ascii (hexdigit _)) by (apply hexdigit_ascii; dlia). reflexivity.
Qed.

Lemma encodable_basestring s :
  forallb encodable s = true -> forallb encodable (encode_basestring s) = true.
Proof.
  intros Hs. unfold encode_basestring. rewrite !forallb_app. cbn.
  rewrite andb_true_r. induction s as [|c s IH]; [reflexivity|].
  cbn [forallb flat_map] in *. apply andb_true_iff in Hs as [Hc Hs].
  rewrite forallb_app, encodable_escape, IH by assumption. reflexivity.
Qed.

Lemma encodable_newline_indent level : forallb encodable (newline_indent level) = true.
Proof.
  unfold newline_indent. cbn [forallb]. rewrite encodable_ascii by lia.
  induction (4 * level)%nat as [|n IH]; [reflexivity | exact IH].
Qed.

Section Encodable.
Context (frepr : spec_float -> str).

Lemma encodable_scalar o t :
  utf8_text frepr o = true -> scalar_text frepr o = Some t -> forallb encodable t = true.
Proof.
  destruct o as [|[]|n|x|s|l|d]; cbn [scalar_text utf8_text]; intros Ho [= <-];
    try reflexivity.
  - apply encodable_int_repr.
  - exact Ho.
  - now apply encodable_basestring.
Qed.

Lemma list_chunks_encodable level separator l :
  forallb encodable separator = true ->
  Forall (fun o => utf8_text frepr o = true ->
                   forall level, forallb encodable (text frepr level o) = true) l ->
  forallb (utf8_text frepr) l = true ->
  forall buf, forallb encodable buf = true ->
  forallb encodable (concat (list_chunks frepr (iterencode frepr level) separator buf l)) = true.
Proof.
  intros Hsep. induction 1 as [|v l Hv _ IH]; intros Hl buf Hbuf; [reflexivity|].
  cbn [forallb] in Hl. apply andb_true_iff in Hl as [Hv' Hl].
  rewrite concat_list_chunks, !forallb_app, Hbuf, (Hv Hv'), (IH Hl separator Hsep). reflexivity.
Qed.

Lemma dict_chunks_encodable level separator d :
  forallb encodable separator = true ->
  Forall (fun kv => utf8_text frepr (snd kv) = true ->
                    forall level, forallb encodable (text frepr level (snd kv)) = true) d ->
  forallb (fun kv => forallb encodable (fst kv) && utf8_text frepr (snd kv)) d = true ->
  forall first,
  forallb encodable (concat (dict_chunks frepr (iterencode frepr level) separator first d)) = true.
Proof.
  intros Hsep. induction 1 as [|[k v] d Hv _ IH]; intros Hd first; [reflexivity|].
  cbn [forallb fst snd] in *. apply andb_true_iff in Hd as [[Hk Hv']%andb_true_iff Hd].
  rewrite concat_dict_chunks, !forallb_app, (encodable_basestring k Hk), (Hv Hv'), (IH Hd false).
  rewrite andb_true_r. now destruct first.
Qed.

Lemma text_encodable o :
  utf8_text frepr o = true -> forall level, forallb encodable (text frepr level o) = true.
Proof.
  induction o as [ | b | n | x | s | l IH | d IH ] using value_ind'; intros Ho level;
    try (erewrite text_scalar by reflexivity; eapply encodable_scalar; [exact Ho | reflexivity]).
  - now destruct b.
  - destruct l as [|v l]; [reflexivity|]. unfold text. cbn [iterencode].
    rewrite concat_app, forallb_app. cbn [utf8_text] in Ho.
    rewrite list_chunks_encodable; try assumption.
    + cbn [concat forallb andb]. now rewrite ?app_nil_r, ?forallb_app, ?encodable_newline_indent.
    + rewrite forallb_app, encodable_newline_indent. reflexivity.
    + rewrite forallb_app, encodable_newline_indent. reflexivity.
  - destruct d as [|kv d]; [reflexivity|]. unfold text. cbn [iterencode].
    rewrite !concat_app, !forallb_app. cbn [utf8_text] in Ho.
    rewrite dict_chunks_encodable; try assumption.
    + cbn [concat forallb andb]. now rewrite ?app_nil_r, ?forallb_app, ?encodable_newline_indent.
    + rewrite forallb_app, encodable_newline_indent. reflexivity.
Qed.

(** The dump of an object without lone surrogates encodes. *)
Lemma dumps_encodes o :
  utf8_text frepr o = true -> exists bs, utf8_encode (dumps frepr o) = Ret bs.
Proof. intros Ho. apply utf8_encode_encodable. now apply (text_encodable o Ho 0%nat). Qed.

End Encodable.
(** ** Indentation *)

Lemma reindent_app a b : reindent (a ++ b) = reindent a ++ reindent b.
Proof. apply flat_map_app. Qed.

Lemma reindent_one_line t : forallb (fun c => negb (c =? 10)) t = true -> reindent t = t.
Proof.
  induction t as [|c t IH]; [reflexivity|]. cbn [forallb reindent flat_map].
  intros [Hc Ht]%andb_true_iff. apply negb_true_iff in Hc. rewrite Hc.
  fold (reindent t). now rewrite IH.
Qed.

Lemma reindent_newline_indent level : reindent (newline_indent level) = newline_indent (S level).
Proof.
  unfold newline_indent. cbn [reindent flat_map Z.eqb Pos.eqb]. fold (reindent (repeat 32 (4 * level))).
  rewrite reindent_one_line.
  - replace (4 * S level)%nat with (4 + 4 * level)%nat by lia. now rewrite repeat_app.
  - induction (4 * level)%nat as [|n IH]; [reflexivity | exact IH].
Qed.

Lemma one_line_basestring s : forallb (fun c => negb (c =? 10)) (encode_basestring s) = true.
Proof.
  unfold encode_basestring. rewrite !forallb_app. cbn. rewrite andb_true_r.
  induction s as [|c s IH]; [reflexivity|]. cbn [flat_map]. rewrite forallb_app, IH, andb_true_r.
  unfold escape_char.
  destruct (c =? 34); [reflexivity|]. destruct (c =? 92); [reflexivity|].
  destruct (Z.eqb_spec c 10); [reflexivity|].
  destruct (c =? 13); [reflexivity|]. destruct (c =? 9); [reflexivity|].
  destruct (c =? 8); [reflexivity|]. destruct (c =? 12); [reflexivity|].
  destruct (_ && _).
  - assert (Hh : forall d, 0 <= d -> negb (hexdigit d =? 10) = true).
    { intros d Hd. unfold hexdigit.
      destruct (d <? 10);
        [destruct (Z.eqb_spec (48 + d) 10) | destruct (Z.eqb_spec (87 + d) 10)];
        try reflexivity; lia. }
    unfold hex4. cbn [app forallb]. rewrite !Hh by dlia. reflexivity.
  - cbn. destruct (Z.eqb_spec c 10); [contradiction | reflexivity].
Qed.

Lemma one_line_int_repr n : forallb (fun c => negb (c =? 10)) (int_repr n) = true.
Proof.
  assert (H : forall ds, forallb is_digit ds = true -> forallb (fun c => negb (c =? 10)) ds = true).
  { induction ds as [|c ds IH]; [reflexivity|]. cbn [forallb].
    intros [Hc Hds]%andb_true_iff. rewrite IH, andb_true_r by assumption.
    unfold is_digit in Hc. apply andb_true_iff in Hc as [H1%Z.leb_le H2%Z.leb_le].
    destruct (Z.eqb_spec c 10); [lia | reflexivity]. }
  unfold int_repr. destruct (Z.to_int n); simpl; apply H, uint_digits_all.
Qed.

Section Indentation.
Context (frepr : spec_float -> str).

Lemma one_line_scalar o t :
  one_line_floats frepr o = true -> scalar_text frepr o = Some t ->
  forallb (fun c => negb (c =? 10)) t = true.
Proof.
  destruct o as [|[]|n|x|s|l|d]; cbn [scalar_text one_line_floats]; intros Ho [= <-];
    try reflexivity.
  - apply one_line_int_repr.
  - exact Ho.
  - apply one_line_basestring.
Qed.

Lemma list_chunks_reindent level separator l :
  Forall (fun o => one_line_floats frepr o = true ->
                   forall level, text frepr (S level) o = reindent (text frepr level o)) l ->
  forallb (one_line_floats frepr) l = true ->
  forall buf,
    concat (list_chunks frepr (iterencode frepr (S level)) (reindent separator) (reindent buf) l)
    = reindent (concat (list_chunks frepr (iterencode frepr level) separator buf l)).
Proof.
  induction 1 as [|v l Hv _ IH]; intros Hl buf; [reflexivity|].
  cbn [forallb] in Hl. apply andb_true_iff in Hl as [Hv' Hl].
  rewrite !concat_list_chunks, !reindent_app, (Hv Hv'), (IH Hl). reflexivity.
Qed.

Lemma dict_chunks_reindent level separator d :
  Forall (fun kv => one_line_floats frepr (snd kv) = true ->
                    forall level, text frepr (S level) (snd kv)
                                  = reindent (text frepr level (snd kv))) d ->
  forallb (fun kv => one_line_floats frepr (snd kv)) d = true ->
  forall first,
    concat (dict_chunks frepr (iterencode frepr (S level)) (reindent separator) first d)
    = reindent (concat (dict_chunks frepr (iterencode frepr level) separator first d)).
Proof.
  induction 1 as [|[k v] d Hv _ IH]; intros Hd first; [reflexivity|].
  cbn [forallb snd] in *. apply andb_true_iff in Hd as [Hv' Hd].
  rewrite !concat_dict_chunks, !reindent_app, (Hv Hv'), (IH Hd).
  rewrite (reindent_one_line (encode_basestring k)) by apply one_line_basestring.
  now destruct first.
Qed.

(** One nesting level more puts four more spaces after every line break. *)
Lemma text_reindent o :
  one_line_floats frepr o = true ->
  forall level, text frepr (S level) o = reindent (text frepr level o).
Proof.
  induction o as [ | b | n | x | s | l IH | d IH ] using value_ind'; intros Ho level;
    try (erewrite !text_scalar by reflexivity; symmetry; apply reindent_one_line;
         eapply one_line_scalar; [exact Ho | reflexivity]).
  - now destruct b.
  - destruct l as [|v l]; [reflexivity|]. unfold text. cbn [iterencode one_line_floats] in *.
    rewrite !concat_app, reindent_app.
    rewrite <- (list_chunks_reindent _ _ _ IH Ho).
    cbn [concat]. rewrite !reindent_app, !reindent_newline_indent. reflexivity.
  - destruct d as [|kv d]; [reflexivity|]. unfold text. cbn [iterencode one_line_floats] in *.
    rewrite !concat_app, !reindent_app.
    rewrite <- (dict_chunks_reindent _ _ _ IH Ho).
    cbn [concat]. rewrite !reindent_app, !reindent_newline_indent. reflexivity.
Qed.

End Indentation.

Example dumps_scenario :
  dumps ex_float_repr
    (VDict [(py "modelVersion", VDict [(py "modelId", VInt 42)]);
            (py "model", VDict [(py "name", VStr (py "Foo"))])])
  = dq "{
    'modelVersion': {
        'modelId': 42
    },
    'model': {
        'name': 'Foo'
    }
}".
Proof. vm_compute. reflexivity. Qed.

(** ** The encoder writes JSON with 4-space indentation *)

Lemma line_break_eq level : newline_indent level = line_break level.
Proof.
  unfold newline_indent, line_break. f_equal.
  induction level as [|level IH]; [reflexivity|].
  replace (4 * S level)%nat with (4 + 4 * level)%nat by lia.
  cbn [repeat concat Nat.add]. now rewrite IH.
Qed.

Section Indented.
Context (frepr : spec_float -> str).

Lemma concat_list_chunks_rest level separator l :
  concat (list_chunks frepr (iterencode frepr level) separator separator l)
  = flat_map (fun v => separator ++ text frepr level v) l.
Proof.
  induction l as [|v l IH]; [reflexivity|].
  rewrite concat_list_chunks, IH. cbn [flat_map]. now rewrite app_assoc.
Qed.

Lemma concat_dict_chunks_rest level separator d :
  concat (dict_chunks frepr (iterencode frepr level) separator false d)
  = flat_map (fun kv => separator ++ encode_basestring (fst kv) ++ key_separator
                        ++ text frepr level (snd kv)) d.
Proof.
  induction d as [|[k v] d IH]; [reflexivity|].
  rewrite concat_dict_chunks, IH. cbn [flat_map fst snd]. now rewrite <- !app_assoc.
Qed.

(** The chunks of the encoder, put together, are the indented text. *)
Lemma text_indented o : forall level, text frepr level o = indented frepr level o.
Proof.
  induction o as [ | b | n | x | s | l IH | d IH ] using value_ind'; intros level;
    try (apply text_scalar; reflexivity).
  - destruct b; apply text_scalar; reflexivity.
  - destruct l as [|v l]; [reflexivity|].
    rewrite text_list, concat_list_chunks_rest, !line_break_eq.
    apply Forall_cons_1 in IH as [Hv Hl]. cbn [indented]. rewrite Hv. do 3 f_equal.
    f_equal. induction Hl as [|v' l Hv' _ IHl]; [reflexivity|].
    cbn [flat_map]. rewrite Hv', IHl. reflexivity.
  - destruct d as [|[k v] d]; [reflexivity|].
    rewrite text_dict, concat_dict_chunks_rest, !line_break_eq.
    apply Forall_cons_1 in IH as [Hv Hd]. cbn [indented snd] in *. rewrite Hv. do 5 f_equal.
    f_equal. induction Hd as [|kv d Hkv _ IHd]; [reflexivity|].
    cbn [flat_map]. rewrite Hkv, IHd. reflexivity.
Qed.

Lemma dumps_indented o : dumps frepr o = indented frepr 0 o.
Proof. apply (text_indented o 0). Qed.

End Indented.

(** ** What a completed write leaves in the file *)

Lemma write_chunks_ret E path chunks w old w' :
  files w !! path = Some old ->
  write_chunks E path chunks w = (Ret tt, w') ->
  exists bs, utf8_encode (concat chunks) = Ret bs
             /\ w' = set_files (<[path := old ++ bs]> (files w)) w.
Proof.
  revert w old. induction chunks as [|c chunks IH]; intros w old Hold; simpl.
  - intros [= <-]. exists []. split; [reflexivity|].
    rewrite app_nil_r, insert_id by assumption. unfold set_files. now rewrite world_eta.
  - rewrite bind_eq, utf8_encode_app. unfold write.
    destruct (utf8_encode c) as [x|]; [|discriminate].
    destruct (write_error E path); [discriminate|].
    rewrite Hold. cbn [default]. intros Hrest.
    apply (IH _ (old ++ x)) in Hrest as (y & -> & ->); [|apply lookup_insert_eq].
    exists (x ++ y). split; [reflexivity|].
    unfold set_files; simpl. now rewrite insert_insert_eq, app_assoc.
Qed.

(** When the [with] block comes to its end, the whole dump was encoded and
    is what the file holds. *)
Lemma write_file_ret E json_path data w w' :
  write_file E json_path data w = (Ret tt, w') ->
  exists bs, utf8_encode (dumps (float_repr E) data) = Ret bs
             /\ w' = World (<[json_path := bs]> (files w)) (dirs w)
                       (trace w ++ [EvOpen json_path W_utf8; EvDump json_path data]).
Proof.
  unfold write_file. rewrite bind_eq, open_w_eq.
  destruct (open_error E W_utf8 json_path); [discriminate|].
  destruct (bool_decide _); [discriminate|].
  unfold json_dump. rewrite bind_eq, emit_eq.
  destruct (write_chunks E json_path _ _) as [[[]|e] w1] eqn:Hw; [|discriminate].
  apply (write_chunks_ret _ _ _ _ []) in Hw as (bs & Henc & ->); [|apply lookup_insert_eq].
  intros [= <-]. exists bs. split; [exact Henc|].
  unfold log, set_files; simpl. now rewrite insert_insert_eq, <- !app_assoc.
Qed.

(** When the body of the [try] comes to its end, the file holds the dump
    and the line that reports it was printed. *)
Lemma write_sidecar_ret E json_path data w w' :
  write_sidecar E json_path data w = (Ret tt, w') ->
  exists bs, utf8_encode (dumps (float_repr E) data) = Ret bs
             /\ w' = World (<[json_path := bs]> (files w)) (dirs w)
                       (trace w ++ [EvOpen json_path W_utf8; EvDump json_path data;
                                    EvPrint (saved_line json_path)]).
Proof.
  rewrite write_sidecar_eq.
  destruct (write_file E json_path data w) as [[[]|e] w1] eqn:Hw; [|discriminate].
  apply write_file_ret in Hw as (bs & Henc & ->).
  rewrite print_run. destruct (print_error E _); [discriminate|].
  intros [= <-]. exists bs. split; [exact Henc|].
  unfold log; simpl. now rewrite <- !app_assoc.
Qed.

(** ** The root of a name that ends in the extension *)

Lemma splitext_stem stem :
  sep ∉ stem -> existsb (fun c => negb (c =? extsep)) stem = true ->
  splitext (stem ++ EXTENSION) = (stem, EXTENSION).
Proof.
  intros Hsep Hdot. unfold splitext.
  assert (Hs : rfind (stem ++ EXTENSION) sep = -1).
  { apply rfind_absent. rewrite not_elem_of_app. split; [exact Hsep|].
    vm_compute. intros Hin. repeat (apply elem_of_cons in Hin as [Hin|Hin]; [discriminate|]).
    now apply elem_of_nil in Hin. }
  assert (Hd : rfind (stem ++ EXTENSION) extsep = Z.of_nat (length stem)).
  { rewrite rfind_app. change (rfind EXTENSION extsep) with 0. cbn. lia. }
  rewrite Hs, Hd. unfold slice, upto, from.
  change (Z.to_nat (-1 + 1)) with 0%nat. rewrite drop_0, Z.sub_0_r, Nat2Z.id.
  rewrite take_app_length, drop_app_length, Hdot.
  assert ((-1 <? Z.of_nat (length stem)) = true) as -> by (apply Z.ltb_lt; lia).
  reflexivity.
Qed.

(** [os.makedirs] makes the directory it is asked for, and on the way to it
    every directory that leads there. *)
Lemma parents_from_self seen rest : seen ++ rest ∈ parents_from seen rest.
Proof.
  revert seen. induction rest as [|c rest IH]; intros seen; cbn [parents_from].
  - rewrite app_nil_r. apply list_elem_of_here.
  - apply elem_of_app. right. specialize (IH (seen ++ [c])).
    now rewrite <- app_assoc in IH.
Qed.

Lemma with_parents_self path : path ∈ with_parents path.
Proof. apply (parents_from_self [] path). Qed.

Example with_parents_nested :
  with_parents (py "out/2024/loras") = [py "out"; py "out/2024"; py "out/2024/loras"].
Proof. reflexivity. Qed.

Lemma after_dir_step_files output_dir w : files (after_dir_step output_dir w) = files w.
Proof. unfold after_dir_step. now destruct (_ || _). Qed.

(** ** More on paths *)

Lemma basename_extension file_path :
  endswith file_path EXTENSION = true -> exists stem, basename file_path = stem ++ EXTENSION.
Proof.
  intros [pre ->]%bool_decide_eq_true.
  exists (basename pre). unfold basename, from. rewrite rfind_app.
  assert (rfind EXTENSION sep = -1) as -> by reflexivity. cbn [Z.ltb Z.compare].
  pose proof (rfind_bounds pre sep). rewrite drop_app_le by lia. reflexivity.
Qed.

(** A name that is dots and then the extension has no extension for
    [splitext]. *)
Lemma splitext_dots stem :
  sep ∉ stem -> existsb (fun c => negb (c =? extsep)) stem = false ->
  splitext (stem ++ EXTENSION) = (stem ++ EXTENSION, []).
Proof.
  intros Hsep Hdot. unfold splitext.
  assert (Hs : rfind (stem ++ EXTENSION) sep = -1).
  { apply rfind_absent. rewrite not_elem_of_app. split; [exact Hsep|].
    vm_compute. intros Hin. repeat (apply elem_of_cons in Hin as [Hin|Hin]; [discriminate|]).
    now apply elem_of_nil in Hin. }
  assert (Hd : rfind (stem ++ EXTENSION) extsep = Z.of_nat (length stem)).
  { rewrite rfind_app. change (rfind EXTENSION extsep) with 0. cbn. lia. }
  rewrite Hs, Hd. unfold slice.
  change (Z.to_nat (-1 + 1)) with 0%nat. rewrite drop_0, Z.sub_0_r, Nat2Z.id.
  rewrite take_app_length, Hdot. now rewrite andb_false_r.
Qed.

Lemma sidecar_name_no_sep file_path : sep ∉ fst (splitext (basename file_path)) ++ py ".json".
Proof.
  pose proof (basename_no_sep file_path) as Hb.
  rewrite not_elem_of_app. split.
  - unfold splitext. destruct (_ && _); simpl; [|exact Hb].
    unfold upto. intros Hin. apply Hb. now apply (subseteq_take _ _ _ Hin).
  - vm_compute. intros Hin. repeat (apply elem_of_cons in Hin as [Hin|Hin]; [discriminate|]).
    now apply elem_of_nil in Hin.
Qed.

(** The sidecar is below the output directory: its path is longer. *)
Lemma sidecar_path_longer file_path output_dir :
  (length output_dir < length (sidecar_path file_path output_dir))%nat.
Proof.
  rewrite sidecar_path_eq. unfold join.
  rewrite (startswith_sep_absent _ (sidecar_name_no_sep file_path)).
  destruct (_ || _); rewrite !length_app; change (length (py ".json")) with 5%nat;
    cbn [length]; lia.
Qed.

(** ** The directories [os.makedirs] creates *)

Lemma parents_from_prefix_of p seen rest :
  p ∈ parents_from seen rest -> p `prefix_of` seen ++ rest.
Proof.
  revert seen. induction rest as [|c rest IH]; intros seen; cbn [parents_from].
  - intros ->%list_elem_of_singleton. now rewrite app_nil_r.
  - intros [Hin|Hin]%elem_of_app.
    + destruct (_ && _); [|now apply elem_of_nil in Hin].
      apply list_elem_of_singleton in Hin as ->. now apply prefix_app_r.
    + apply IH in Hin. now rewrite <- app_assoc in Hin.
Qed.

(** Every directory on the way to the path is made: what stands before a
    separator of the path, the root apart. *)
Lemma parents_from_before_sep seen a rest :
  seen ++ a <> [] -> seen ++ a ∈ parents_from seen (a ++ sep :: rest).
Proof.
  revert seen. induction a as [|c a IH]; intros seen Hne; cbn [app parents_from].
  - rewrite app_nil_r in *. apply elem_of_app. left.
    rewrite Z.eqb_refl, bool_decide_eq_false_2 by exact Hne. apply list_elem_of_here.
  - apply elem_of_app. right. specialize (IH (seen ++ [c])).
    rewrite <- app_assoc in IH. now apply IH.
Qed.

Lemma with_parents_before_sep parent rest :
  parent <> [] -> parent ∈ with_parents (parent ++ sep :: rest).
Proof. intros Hne. now apply (parents_from_before_sep [] parent rest). Qed.

Lemma sidecar_not_parent file_path output_dir :
  sidecar_path file_path output_dir ∉ with_parents output_dir.
Proof.
  intros Hin%parents_from_prefix_of%prefix_length.
  pose proof (sidecar_path_longer file_path output_dir). simpl in Hin. lia.
Qed.

Lemma after_dir_step_dirs output_dir w p :
  p ∈ dirs (after_dir_step output_dir w) -> p ∈ dirs w \/ p ∈ with_parents output_dir.
Proof.
  unfold after_dir_step. destruct (_ || _); [now left|].
  cbn [dirs set_dirs]. rewrite elem_of_union, elem_of_list_to_set. tauto.
Qed.

Lemma after_dir_step_sidecar file_path output_dir w :
  sidecar_path file_path output_dir ∉ dirs w ->
  sidecar_path file_path output_dir ∉ dirs (after_dir_step output_dir w).
Proof.
  intros Hw [Hin|Hin]%after_dir_step_dirs; [contradiction|].
  now apply sidecar_not_parent in Hin.
Qed.

(** ** The persister, whatever the standard output does *)

Lemma json_load_files fparse w w' path :
  files w' = files w -> json_load fparse w' path = json_load fparse w path.
Proof. intros H. unfold json_load. now rewrite H. Qed.

(** Once the [with] block is over, [save_model_info] prints at most two
    lines: no file, no directory, no request and no dump comes after it. *)
Lemma save_model_info_after_file E file_path data w :
  let w1 := snd (write_file E (fst (splitext file_path) ++ py ".json") data w) in
  let w' := snd (save_model_info E file_path data w) in
  files w' = files w1 /\ dirs w' = dirs w1
  /\ dumps_of (trace w') = dumps_of (trace w1)
  /\ requests_of (trace w') = requests_of (trace w1).
Proof.
  assert (Hhandler : forall e w1 r w',
            (if is_Exception e then print E (save_error_line file_path e) w1 else (Raise e, w1))
            = (r, w') ->
            files w' = files w1 /\ dirs w' = dirs w1
            /\ dumps_of (trace w') = dumps_of (trace w1)
            /\ requests_of (trace w') = requests_of (trace w1)).
  { intros e w1 r w'. rewrite print_run.
    destruct (is_Exception e); [destruct (print_error E (save_error_line file_path e))|];
      intros [= <- <-]; cbn [files dirs trace log];
      rewrite ?dumps_of_app, ?requests_of_app; cbn; rewrite ?app_nil_r; auto. }
  cbv zeta. rewrite save_model_info_eq, write_sidecar_eq.
  destruct (write_file E _ data w) as [[[]|e] w1]; cbn [snd].
  - rewrite print_run. destruct (print_error E (saved_line _)) as [e|].
    + destruct (if is_Exception e then _ else _) as [r w'] eqn:Hrun.
      exact (Hhandler _ _ _ _ Hrun).
    + cbn [snd files dirs trace log]. rewrite dumps_of_app, requests_of_app. cbn.
      now rewrite !app_nil_r.
  - destruct (if is_Exception e then _ else _) as [r w'] eqn:Hrun.
    exact (Hhandler _ _ _ _ Hrun).
Qed.

(** A sidecar that opens gets its dump, whatever comes after. *)
Lemma write_file_dumped E json_path data w :
  open_error E W_utf8 json_path = None ->
  json_path ∉ dirs w ->
  trace (snd (write_file E json_path data w))
  = trace w ++ [EvOpen json_path W_utf8; EvDump json_path data].
Proof.
  intros Ho Hd. unfold write_file.
  rewrite bind_eq, open_w_eq, Ho, bool_decide_eq_false_2 by exact Hd.
  unfold json_dump. rewrite bind_eq, emit_eq.
  destruct (write_chunks E json_path _ _) as [[[]|e] w1] eqn:Hw;
    apply write_chunks_frame in Hw as (_ & Ht & _); cbn [snd]; rewrite Ht; cbn [trace log set_files];
    now rewrite <- app_assoc.
Qed.

(** ** The sidecar file *)

(** C7, as the code has it: take an invocation that persists: the bundle
    was built, the output directory is there or can be made, and the body
    of the [try] of [save_model_info] comes to its end. Then the script
    returns, and
    - the sidecar is the output directory joined to a name made from the
      base name of the input, which is some [stem] followed by
      [.safetensors]: [stem.json] when the stem has a character other than
      a dot, and the whole base name followed by [.json] when the stem is
      empty or made of dots, since [os.path.splitext] finds no extension in
      such a name;
    - the file is created or overwritten, and holds the UTF-8 encoding of
      the bundle as JSON with 4-space indentation, which decodes to that
      very text;
    - a character that is not ASCII is written in that text as itself, not
      as an escape;
    - when [os.path.exists] found no output directory, one [os.makedirs]
      made it and every directory on the way to it, that is whatever
      stands before a separator in its path, and no other directory. *)
Theorem sidecar_file_format E prog file_path output_dir w model_info w1 w2 :
  endswith file_path EXTENSION = true ->
  build_model_info E file_path w = (Ret (Some model_info), w1) ->
  output_dir_ready E w1 output_dir ->
  write_sidecar E (sidecar_path file_path output_dir) (VDict model_info)
    (after_dir_step output_dir w1) = (Ret tt, w2) ->
  let json_path := sidecar_path file_path output_dir in
  let content := indented (float_repr E) 0 (VDict model_info) in
  main E [prog; file_path; output_dir] w = (Ret tt, w2)
  /\ (exists stem,
        basename file_path = stem ++ EXTENSION
        /\ json_path
           = join output_dir
               (if existsb (fun c => negb (c =? extsep)) stem
                then stem ++ py ".json"
                else stem ++ EXTENSION ++ py ".json"))
  /\ (exists bs,
        files w2 = <[json_path := bs]> (files w1)
        /\ utf8_encode content = Ret bs
        /\ utf8_decode bs = Some content)
  /\ (forall c, 127 < c -> escape_char c = [c])
  /\ (path_exists output_dir w1 = (Ret false, w1) ->
      output_dir ∈ dirs w2
      /\ (forall parent rest,
            output_dir = parent ++ sep :: rest -> parent <> [] -> parent ∈ dirs w2)
      /\ (forall p, p ∈ dirs w2 -> p ∈ dirs w1 \/ p `prefix_of` output_dir)
      /\ trace w2 = trace w1 ++ [EvMakedirs output_dir; EvOpen json_path W_utf8;
                                 EvDump json_path (VDict model_info);
                                 EvPrint (saved_line json_path)]).
Proof.
  intros Hext Hbuild Hready Hbody json_path content.
  assert (Hmain : main E [prog; file_path; output_dir] w = (Ret tt, w2)).
  { rewrite main_three, (get_metadata_for_lora_blocks _ _ _ _ Hext), Hbuild.
    rewrite (persist_ready _ _ _ _ _ Hready), save_model_info_eq.
    fold (sidecar_path file_path output_dir). now rewrite Hbody. }
  fold json_path in Hbody. apply write_sidecar_ret in Hbody as (bs & Henc & ->).
  rewrite dumps_indented in Henc. fold content in Henc.
  split; [exact Hmain|]. split; [|split; [|split]].
  - destruct (basename_extension _ Hext) as [stem Hstem]. exists stem. split; [exact Hstem|].
    unfold json_path. rewrite sidecar_path_eq, Hstem.
    assert (Hsep : sep ∉ stem).
    { pose proof (basename_no_sep file_path) as Hsep. rewrite Hstem in Hsep.
      intros Hin. apply Hsep, elem_of_app. now left. }
    destruct (existsb _ stem) eqn:Hdots.
    + now rewrite splitext_stem.
    + rewrite splitext_dots by assumption. cbn [fst]. now rewrite <- app_assoc.
  - exists bs. cbn [files]. rewrite after_dir_step_files.
    repeat split; [exact Henc|]. now apply utf8_decode_encode.
  - intros c Hc. unfold escape_char. zcases. reflexivity.
  - unfold path_exists, after_dir_step. intros [= Hmissing]. rewrite Hmissing.
    cbn [dirs trace set_dirs log]. split; [|split; [|split]].
    + apply elem_of_union. right. apply elem_of_list_to_set, with_parents_self.
    + intros parent rest -> Hne. apply elem_of_union. right.
      now apply elem_of_list_to_set, with_parents_before_sep.
    + intros p [Hin|Hin%elem_of_list_to_set]%elem_of_union; [now left|].
      right. now apply parents_from_prefix_of in Hin.
    + now rewrite <- app_assoc.
Qed.

Lemma sidecar_file_witness :
  main ex_env_ok ex_argv_nested ex_world = (Ret tt, ex_saved_nested)
  /\ utf8_decode <$> files ex_saved_nested !! py "out/2024/loras/a.json"
     = Some (Some (dq "{
    'modelVersion': {
        'modelId': 42,
        'name': 'v1'
    },
    'model': {
        'name': 'Foo'
    }
}"))
  /\ py "out" ∈ dirs ex_saved_nested
  /\ py "out/2024" ∈ dirs ex_saved_nested
  /\ py "out/2024/loras" ∈ dirs ex_saved_nested.
Proof.
  assert (H := sidecar_file_format ex_env_ok
                 (py "civitai_model_metadata_download.py") (py "a.safetensors")
                 (py "out/2024/loras") ex_world ex_info ex_fetched ex_saved_nested).
  destruct H as (Hmain & _ & _ & _ & Hdirs).
  - vm_compute. reflexivity.
  - vm_compute. reflexivity.
  - right. right. reflexivity.
  - vm_compute. reflexivity.
  - destruct Hdirs as (Hleaf & Hparents & _); [vm_compute; reflexivity|].
    split; [exact Hmain|]. split; [vm_compute; reflexivity|].
    split; [|split; [|exact Hleaf]].
    + apply (Hparents (py "out") (py "2024/loras")); [reflexivity | discriminate].
    + apply (Hparents (py "out/2024") (py "loras")); [reflexivity | discriminate].
Defined.

(** C7 as it is worded fails for a model file whose name is nothing but
    the extension: [.safetensors] passes the test of line 76, but for
    [os.path.splitext] it is a hidden file without extension, and the
    sidecar is [.safetensors.json], the extension kept, not [.json]. *)
Lemma hidden_file_keeps_its_extension :
  endswith (py "models/.safetensors") EXTENSION = true
  /\ fst (main ex_env_ok ex_argv_hidden ex_world_hidden) = Ret tt
  /\ dumps_of (trace (snd (main ex_env_ok ex_argv_hidden ex_world_hidden)))
     = [(py "out/.safetensors.json", VDict ex_info)]
  /\ utf8_decode <$> files (snd (main ex_env_ok ex_argv_hidden ex_world_hidden))
                      !! py "out/.safetensors.json"
     = Some (Some (indented ex_float_repr 0 (VDict ex_info)))
  /\ files (snd (main ex_env_ok ex_argv_hidden ex_world_hidden)) !! py "out/.json" = None.
Proof. vm_compute. repeat split; reflexivity. Qed.

(** ** Reading the sidecar back *)

(** C8, as the code has it: take a bundle as Python has them, its keys
    different from each other and its floats written by [repr] so that
    [float] reads them back.
    - If the body of the [try] of [save_model_info] comes to its end,
      [save_model_info] returns with nothing more done, and [json.load] on
      the file gives the bundle back, keys in the same order.
    - When the bundle has no lone surrogate in a string or a key and
      neither opening nor writing the file fails, [json.load] gives the
      bundle back after [save_model_info], whatever becomes of the lines
      it prints; and the body of the [try] does come to its end when the
      standard output takes the line that reports the file.
    - When the text of the bundle has a character UTF-8 cannot carry, the
      [with] block raises, the exception goes to the handler, and the body
      of the [try] never comes to its end. *)
Theorem sidecar_reads_back E fparse file_path data w :
  well_formed (float_repr E) fparse data = true ->
  let json_path := fst (splitext file_path) ++ py ".json" in
  (forall w',
     write_sidecar E json_path data w = (Ret tt, w') ->
     save_model_info E file_path data w = (Ret tt, w')
     /\ json_load fparse w' json_path = Some data)
  /\ (utf8_text (float_repr E) data = true ->
      open_error E W_utf8 json_path = None ->
      json_path ∉ dirs w ->
      write_error E json_path = None ->
      json_load fparse (snd (save_model_info E file_path data w)) json_path = Some data
      /\ (prints E [saved_line json_path] ->
          exists w', write_sidecar E json_path data w = (Ret tt, w')))
  /\ (forall e,
        utf8_encode (dumps (float_repr E) data) = Raise e ->
        exists e' w',
          write_file E json_path data w = (Raise e', w')
          /\ write_exn json_path e'
          /\ write_sidecar E json_path data w = (Raise e', w')
          /\ save_model_info E file_path data w = print E (save_error_line file_path e') w').
Proof.
  intros Hwf json_path. split; [|split].
  - intros w' Hbody. split.
    + rewrite save_model_info_eq. fold json_path. now rewrite Hbody.
    + apply write_sidecar_ret in Hbody as (bs & Henc & ->).
      unfold json_load. cbn [files]. rewrite lookup_insert_eq. cbn [mbind option_bind].
      rewrite (utf8_decode_encode _ _ Henc). cbn [mbind option_bind].
      now apply loads_dumps.
  - intros Hutf Hopen Hdir Hwrite.
    destruct (dumps_encodes _ _ Hutf) as [bs Hbs].
    pose proof (write_file_ok _ _ _ _ _ Hopen Hdir Hwrite Hbs) as Hfile.
    split.
    + destruct (save_model_info_after_file E file_path data w) as (Hfiles & _).
      fold json_path in Hfiles. rewrite Hfile in Hfiles.
      unfold json_load. rewrite Hfiles. cbn [snd files]. rewrite lookup_insert_eq.
      cbn [mbind option_bind]. rewrite (utf8_decode_encode _ _ Hbs). cbn [mbind option_bind].
      now apply loads_dumps.
    + intros [Hout _]%prints_cons. eexists.
      apply write_sidecar_ok; [exact Hopen | exact Hdir | exact Hwrite | exact Hbs | exact Hout].
  - intros e Henc.
    destruct (write_file E json_path data w) as [[[]|e'] w'] eqn:Hfile.
    + apply write_file_ret in Hfile as (bs & Hbs & _). congruence.
    + pose proof (write_file_frame _ _ _ _ _ _ Hfile) as (_ & He & _).
      exists e', w'. split; [reflexivity|]. split; [exact He|].
      assert (Hbody : write_sidecar E json_path data w = (Raise e', w'))
        by now rewrite write_sidecar_eq, Hfile.
      split; [exact Hbody|].
      rewrite save_model_info_eq. fold json_path.
      now rewrite Hbody, (write_exn_Exception _ _ He).
Qed.

Lemma sidecar_reads_back_witness :
  save_model_info ex_env_ok (py "out/a.safetensors") ex_bundle ex_world = (Ret tt, ex_bundle_saved)
  /\ json_load ex_parse_float ex_bundle_saved (py "out/a.json") = Some ex_bundle.
Proof.
  refine (proj1 (sidecar_reads_back ex_env_ok ex_parse_float (py "out/a.safetensors")
                   ex_bundle ex_world _) ex_bundle_saved _).
  - vm_compute. reflexivity.
  - vm_compute. reflexivity.
Defined.

(** C8 as it is worded fails for a bundle with a lone surrogate, which the
    registry can send as an escape: the encoder of the file raises
    [UnicodeEncodeError] at that string, the exception is caught and logged,
    and what is left in the file is the beginning of the text, which
    [json.load] refuses. *)
Lemma lone_surrogate_does_not_read_back :
  loads ex_parse_float ex_surrogate_body = Some ex_surrogate_version
  /\ fst (main ex_env_surrogate ex_argv ex_world) = Ret tt
  /\ dumps_of (trace (snd (main ex_env_surrogate ex_argv ex_world)))
     = [(py "out/a.json", VDict [(py "modelVersion", ex_surrogate_version)])]
  /\ utf8_decode <$> files (snd (main ex_env_surrogate ex_argv ex_world)) !! py "out/a.json"
     = Some (Some (dq "{
    'modelVersion': {
        'name': "))
  /\ json_load ex_parse_float (snd (main ex_env_surrogate ex_argv ex_world)) (py "out/a.json")
     = None.
Proof. vm_compute. repeat split; reflexivity. Qed.

(** ** The persist step *)

(** C10: when the record has a [modelId] that is falsy ([0], the empty
    string, [null], ...) the run goes from the hash lookup straight to the
    persist step with a bundle whose one key is [modelVersion]: the request
    by hash is the only request of the run, and no other bundle is dumped.
    With the output directory there or creatable and a sidecar that opens,
    that bundle is dumped to the sidecar; and when its text encodes and
    the write does not fail, the sidecar holds the UTF-8 of the dump of
    that bundle and nothing else changed on disk, the run returning
    without exception when the line that reports the file is printed. *)
Theorem falsy_model_id_skips_lookup E file_path output_dir w data response d model_id :
  endswith file_path EXTENSION = true ->
  readable E w file_path data ->
  prints E [processing_line file_path; hash_line (digest_of data)] ->
  requests_get E (version_url (digest_of data)) = Ret response ->
  status_code response = 200 ->
  json response = Ret (VDict d) ->
  assoc (py "modelId") d = Some model_id ->
  truthy model_id = false ->
  let bundle := [(py "modelVersion", VDict d)] in
  let json_path := sidecar_path file_path output_dir in
  let run := get_metadata_for_lora E file_path output_dir w in
  run = persist E file_path output_dir bundle
          (log [EvGet (version_url (digest_of data))] (hashed file_path data w))
  /\ keys bundle = [py "modelVersion"]
  /\ requests_of (trace (snd run)) = requests_of (trace w) ++ [version_url (digest_of data)]
  /\ (dumps_of (trace (snd run)) = dumps_of (trace w)
      \/ dumps_of (trace (snd run)) = dumps_of (trace w) ++ [(json_path, VDict bundle)])
  /\ (output_dir_ready E w output_dir ->
      open_error E W_utf8 json_path = None ->
      json_path ∉ dirs w ->
      dumps_of (trace (snd run)) = dumps_of (trace w) ++ [(json_path, VDict bundle)]
      /\ forall bs,
           write_error E json_path = None ->
           utf8_encode (dumps (float_repr E) (VDict bundle)) = Ret bs ->
           files (snd run) = <[json_path := bs]> (files w)
           /\ (prints E [saved_line json_path] -> fst run = Ret tt)).
Proof.
  intros Hext Hread Hout Hget Hst Hjs Hid Hfalsy bundle json_path run.
  set (w1 := log [EvGet (version_url (digest_of data))] (hashed file_path data w)).
  assert (Hrun : run = persist E file_path output_dir bundle w1).
  { unfold run. rewrite (get_metadata_for_lora_blocks _ _ _ _ Hext).
    rewrite (build_model_info_lookup _ _ _ _ Hread Hout).
    rewrite fetch_version_eq, Hget, Hst, Hjs. cbn [Z.eqb Pos.eqb].
    assert (Htruthy : truthy (VDict d) = true) by (destruct d; [discriminate | reflexivity]).
    rewrite Htruthy. cbn [negb get]. rewrite Hid.
    change (default VNone (Some model_id)) with model_id. now rewrite Hfalsy. }
  split; [exact Hrun|]. split; [reflexivity|].
  assert (Htrace : requests_of (trace (snd run))
                   = requests_of (trace w) ++ [version_url (digest_of data)]
                   /\ (dumps_of (trace (snd run)) = dumps_of (trace w)
                       \/ dumps_of (trace (snd run))
                          = dumps_of (trace w) ++ [(json_path, VDict bundle)])).
  { destruct run as [r w'] eqn:Hrw. symmetry in Hrun.
    apply persist_trace in Hrun as (Hreq & Hdump). unfold w1 in Hreq, Hdump.
    rewrite hashed_requests in Hreq. rewrite hashed_dumps in Hdump. cbn in Hdump.
    rewrite app_nil_r in Hdump. auto. }
  destruct Htrace as [Hreq Hdump]. split; [exact Hreq|]. split; [exact Hdump|].
  intros Hready Hopen Hdir.
  assert (Hsave : run = save_model_info E (join output_dir (basename file_path)) (VDict bundle)
                          (after_dir_step output_dir w1)).
  { rewrite Hrun. now apply persist_ready. }
  assert (Hdir' : json_path ∉ dirs (after_dir_step output_dir w1))
    by now apply after_dir_step_sidecar.
  destruct (save_model_info_after_file E (join output_dir (basename file_path)) (VDict bundle)
              (after_dir_step output_dir w1)) as (Hfiles & _ & Hdumps & _).
  fold (sidecar_path file_path output_dir) in Hfiles, Hdumps. fold json_path in Hfiles, Hdumps.
  rewrite <- Hsave in Hfiles, Hdumps.
  split.
  - rewrite Hdumps, (write_file_dumped _ _ _ _ Hopen Hdir'), dumps_of_app.
    assert (Hbefore : dumps_of (trace (after_dir_step output_dir w1)) = dumps_of (trace w)).
    { unfold after_dir_step. destruct (_ || _); cbn [trace set_dirs log];
        rewrite ?dumps_of_app; unfold w1; rewrite hashed_dumps; cbn; now rewrite ?app_nil_r. }
    now rewrite Hbefore.
  - intros bs Hwrite Hbs.
    pose proof (write_file_ok _ _ _ _ _ Hopen Hdir' Hwrite Hbs) as Hfile.
    split.
    + rewrite Hfiles, Hfile. cbn [snd files]. now rewrite after_dir_step_files.
    + intros [Hp _]%prints_cons. rewrite Hsave, save_model_info_eq.
      fold (sidecar_path file_path output_dir). fold json_path.
      now rewrite write_sidecar_eq, Hfile, (print_eq _ _ _ Hp).
Qed.

Lemma falsy_model_id_witness :
  fst (get_metadata_for_lora ex_env_falsy_id (py "a.safetensors") (py "out") ex_world) = Ret tt
  /\ requests_of (trace (snd (get_metadata_for_lora ex_env_falsy_id
                                (py "a.safetensors") (py "out") ex_world)))
     = [version_url ex_digest]
  /\ utf8_decode <$> files (snd (get_metadata_for_lora ex_env_falsy_id
                                   (py "a.safetensors") (py "out") ex_world)) !! py "out/a.json"
     = Some (Some (dq "{
    'modelVersion': {
        'modelId': 0,
        'name': 'v1'
    }
}")).
Proof.
  assert (H := falsy_model_id_skips_lookup ex_env_falsy_id (py "a.safetensors") (py "out")
                 ex_world (ex_bytes "abc") (Response 200 (Ret ex_version_no_id))
                 [(py "modelId", VInt 0); (py "name", VStr (py "v1"))] (VInt 0)).
  destruct H as (_ & _ & Hreq & _ & Hsaved).
  - reflexivity.
  - now apply ex_world_readable.
  - apply ex_env_prints.
  - reflexivity.
  - reflexivity.
  - reflexivity.
  - reflexivity.
  - reflexivity.
  - destruct Hsaved as (_ & Hsaved); [right; right; reflexivity | reflexivity | apply not_elem_of_empty |].
    destruct (Hsaved (map byte_of_Z (dq "{
    'modelVersion': {
        'modelId': 0,
        'name': 'v1'
    }
}"))) as (Hfiles & Hret); [reflexivity | vm_compute; reflexivity |].
    split; [apply Hret, ex_env_prints|]. split; [exact Hreq|].
    rewrite Hfiles. vm_compute. reflexivity.
Defined.

(** C1, as the code has it: take a run that is at the persist step, with
    an output directory that is there or can be made.
    - An exception raised by the [with] block, while the sidecar is opened
      or written, is an [OSError] or a [UnicodeEncodeError]; it is caught,
      and when the standard output takes the line with the path handed to
      [save_model_info] and the exception, that line is printed and the
      script ends with status 0. When the standard output does not take
      that line, what [print] raises in the handler ends the script.
    - When the [with] block comes to its end, the script ends with status
      0 if the line that reports the file is printed; an exception of that
      [print] is caught like one of the [with] block.
    - With a standard output that takes every line the status is 0. *)
Theorem write_errors_are_logged_not_raised E prog file_path output_dir w model_info w1 :
  endswith file_path EXTENSION = true ->
  build_model_info E file_path w = (Ret (Some model_info), w1) ->
  output_dir_ready E w1 output_dir ->
  let argv := [prog; file_path; output_dir] in
  let target := join output_dir (basename file_path) in
  let json_path := sidecar_path file_path output_dir in
  let block := write_file E json_path (VDict model_info) (after_dir_step output_dir w1) in
  (forall e w3,
     block = (Raise e, w3) ->
     write_exn json_path e
     /\ (prints E [save_error_line target e] ->
         main E argv w = (Ret tt, log [EvPrint (save_error_line target e)] w3)
         /\ exit_status (fst (main E argv w)) = 0)
     /\ (forall e', print_error E (save_error_line target e) = Some e' ->
         main E argv w = (Raise e', w3)))
  /\ (forall w3,
        block = (Ret tt, w3) ->
        (prints E [saved_line json_path] ->
         main E argv w = (Ret tt, log [EvPrint (saved_line json_path)] w3)
         /\ exit_status (fst (main E argv w)) = 0)
        /\ (forall e,
              print_error E (saved_line json_path) = Some e -> is_Exception e = true ->
              (prints E [save_error_line target e] ->
               main E argv w = (Ret tt, log [EvPrint (save_error_line target e)] w3))
              /\ (forall e', print_error E (save_error_line target e) = Some e' ->
                  main E argv w = (Raise e', w3))))
  /\ ((forall line, print_error E line = None) -> exit_status (fst (main E argv w)) = 0).
Proof.
  intros Hext Hbuild Hready argv target json_path block.
  assert (Hrun : main E argv w
                 = match block with
                   | (Ret _, w3) =>
                       match print_error E (saved_line json_path) with
                       | None => (Ret tt, log [EvPrint (saved_line json_path)] w3)
                       | Some e =>
                           if is_Exception e then print E (save_error_line target e) w3
                           else (Raise e, w3)
                       end
                   | (Raise e, w3) =>
                       if is_Exception e then print E (save_error_line target e) w3
                       else (Raise e, w3)
                   end).
  { unfold argv. rewrite main_three, (get_metadata_for_lora_blocks _ _ _ _ Hext), Hbuild.
    rewrite (persist_ready _ _ _ _ _ Hready), save_model_info_eq.
    rewrite write_sidecar_eq. fold target.
    change (fst (splitext target) ++ py ".json") with json_path. fold block.
    destruct block as [[[]|e] w3]; [|reflexivity].
    rewrite print_run. now destruct (print_error E (saved_line json_path)). }
  split; [|split].
  - intros e w3 Hb. pose proof (write_file_frame _ _ _ _ _ _ Hb) as (_ & He & _).
    rewrite Hrun, Hb, (write_exn_Exception _ _ He), print_run.
    split; [exact He|]. split.
    + intros [Hp _]%prints_cons. now rewrite Hp.
    + intros e' Hp. now rewrite Hp.
  - intros w3 Hb. rewrite Hrun, Hb. split.
    + intros [Hp _]%prints_cons. now rewrite Hp.
    + intros e Hp He. rewrite Hp, He, print_run. split.
      * intros [Hp' _]%prints_cons. now rewrite Hp'.
      * intros e' Hp'. now rewrite Hp'.
  - intros Hall. rewrite Hrun.
    destruct block as [[[]|e] w3] eqn:Hb.
    + now rewrite Hall.
    + pose proof (write_file_frame _ _ _ _ _ _ Hb) as (_ & He & _).
      now rewrite (write_exn_Exception _ _ He), print_run, Hall.
Qed.

Lemma write_errors_witness :
  main ex_env_no_write ex_argv ex_world
  = (Ret tt,
     log [EvPrint (save_error_line (py "out/a.safetensors") (OSError EACCES (py "out/a.json")))]
       ex_not_opened)
  /\ exit_status (fst (main ex_env_no_write ex_argv ex_world)) = 0.
Proof.
  refine (proj1 (proj2 (proj1 (write_errors_are_logged_not_raised ex_env_no_write
                                 (py "civitai_model_metadata_download.py") (py "a.safetensors")
                                 (py "out") ex_world ex_info ex_fetched eq_refl _ _)
                          (OSError EACCES (py "out/a.json")) ex_not_opened _))
            (ex_env_prints _ _ _ _ _)).
  - vm_compute. reflexivity.
  - right. right. reflexivity.
  - vm_compute. reflexivity.
Defined.

(** C1 as it is worded fails: [os.makedirs] is called outside the [try], and
    its exception ends the script with a traceback and status 1. *)
Lemma makedirs_error_is_not_caught :
  fst (main ex_env_no_mkdir ex_argv ex_world) = Raise (OSError EACCES (py "out"))
  /\ exit_status (fst (main ex_env_no_mkdir ex_argv ex_world)) = 1
  /\ trace (snd (main ex_env_no_mkdir ex_argv ex_world))
     = trace (log [EvGet (model_url (VInt 42)); EvMakedirs (py "out")] ex_looked_up).
Proof. vm_compute. repeat split; reflexivity. Qed.

(** Nor does the [try] hold what its own handler raises. The output
    directory is given as the bytes of [out] and the byte 0xff, and the
    standard output is UTF-8 with the handler [strict]: the directory is
    made and the sidecar written, the line that reports the file cannot be
    encoded, the [UnicodeEncodeError] is caught, and the line of the
    handler, which carries the same path, raises it again: status 1. *)
Example unprintable_path_is_not_caught :
  fst (main ex_env_strict_stdout ex_argv_unprintable ex_world)
  = Raise (UnicodeEncodeError 0xDCFF)
  /\ exit_status (fst (main ex_env_strict_stdout ex_argv_unprintable ex_world)) = 1
  /\ dumps_of (trace (snd (main ex_env_strict_stdout ex_argv_unprintable ex_world)))
     = [(ex_unprintable_dir ++ py "/a.json", VDict ex_info)]
  /\ utf8_decode <$> files (snd (main ex_env_strict_stdout ex_argv_unprintable ex_world))
                      !! (ex_unprintable_dir ++ py "/a.json")
     = Some (Some (indented ex_float_repr 0 (VDict ex_info))).
Proof. vm_compute. repeat split; reflexivity. Qed.

(* ================================================================== *)
(** * Part IV. Further properties of the script                        *)
(* ================================================================== *)

(** ** The hasher returns the digest of the whole file or raises *)




(** ** Lines 77 to 94, whatever the file, the registry and the output *)




(** ** What the persist step leaves on the disk *)






(** ** Where the sidecar is *)



(** ** The whole run *)






(** ** Exceptions that end the run *)








